(** * LISA batch inference pipeline ([chat_do_all.py])

    A shallow embedding of the pipeline of [chat_do_all.py]: pair discovery
    ([collect_pairs]), the prompt table ([Prompts]), the backbone transform
    ([preprocess]), the user turn of the conversation, the mask loop that
    writes the two rasters per predicted mask, and the loop of [main] over
    the discovered pairs.

    Python values are modelled as follows.
    - [str] is [string]; [str.replace], [str.split] and [str.join] are
      written out below.
    - The file system is a function from path strings to entries, together
      with the sequence [os.walk] yields.
    - A tensor or array of rank three is a list of lists of lists.
    - Code that prints, writes files or raises runs in a state and error
      monad over the file system and the standard output. *)

From Stdlib Require Import ZArith QArith Ascii.
From Stdlib Require String.
From Stdlib Require Import Floats.SpecFloat.
From stdpp Require Import base option list gmap strings pretty.

Local Open Scope Z_scope.

(** ** Python strings *)

Module Str.

Definition len (s : string) : nat := String.length s.

(** [s.startswith(p)] *)
Fixpoint startswith (p s : string) : bool :=
  match p, s with
  | EmptyString, _ => true
  | String a p', String b s' => if Ascii.eqb a b then startswith p' s' else false
  | String _ _, EmptyString => false
  end.

(** [s.endswith(p)] *)
Definition endswith (p s : string) : bool :=
  startswith (String.rev p) (String.rev s).

(** [old in s] *)
Fixpoint contains (old s : string) : bool :=
  startswith old s ||
  match s with
  | EmptyString => false
  | String _ s' => contains old s'
  end.

(** [s[i:]] *)
Fixpoint drop (i : nat) (s : string) : string :=
  match i, s with
  | O, _ => s
  | S i', String _ s' => drop i' s'
  | S _, EmptyString => EmptyString
  end.

(** [s.startswith(old, i)]: [old] occurs in [s] at offset [i]. *)
Definition occurs_at (old s : string) (i : nat) : bool :=
  (i <=? len s)%nat && startswith old (drop i s).

(** No proper, non-empty suffix of [tok] is a prefix of [tok]: two
    occurrences of [tok] in a string cannot overlap. *)
Definition unbordered (tok : string) : bool :=
  forallb (fun k => negb (startswith (drop k tok) tok)) (seq 1 (len tok - 1)).

(** [s.replace(old, new)] for a non-empty [old]: the scan goes left to
    right; at an occurrence of [old] it emits [new] and resumes after the
    occurrence.  [skip] counts the characters of a matched occurrence
    that are still to be stepped over. *)
Fixpoint replace_go (old new : string) (skip : nat) (s : string) : string :=
  match s with
  | EmptyString => EmptyString
  | String c s' =>
      match skip with
      | S k => replace_go old new k s'
      | O =>
          if startswith old s
          then new +:+ replace_go old new (len old - 1) s'
          else String c (replace_go old new 0 s')
      end
  end.

(** [s.replace("", new)] puts [new] before every character and at the end. *)
Fixpoint intersperse (new s : string) : string :=
  match s with
  | EmptyString => new
  | String c s' => new +:+ String c (intersperse new s')
  end.

Definition replace (s old new : string) : string :=
  match old with
  | EmptyString => intersperse new s
  | String _ _ => replace_go old new 0 s
  end.

(** [s.split(sep)] for a separator of one character. *)
Fixpoint split (sep : ascii) (s : string) : list string :=
  match s with
  | EmptyString => [EmptyString]
  | String c s' =>
      if Ascii.eqb c sep then EmptyString :: split sep s'
      else match split sep s' with
           | h :: t => String c h :: t
           | [] => [String c EmptyString]
           end
  end.

(** [sep.join(l)] *)
Fixpoint join (sep : string) (l : list string) : string :=
  match l with
  | [] => EmptyString
  | [x] => x
  | x :: l' => x +:+ sep +:+ join sep l'
  end.

(** [l[-1]] and [l[0]] of a list that [split] returned (never empty). *)
Definition last_seg (l : list string) : string := List.last l EmptyString.
Definition first_seg (l : list string) : string := List.hd EmptyString l.

(** [str(n)] for an [int]. *)
Definition of_Z (n : Z) : string := pretty n.
Definition of_nat (n : nat) : string := pretty n.

End Str.

(** ** [os.path] (posixpath) *)

Module OsPath.

(** [os.path.join(a, b)] *)
Definition join (a b : string) : string :=
  if Str.startswith "/" b then b
  else if (String.eqb a "" || Str.endswith "/" a)%bool then a +:+ b
  else a +:+ "/" +:+ b.

(** [os.path.basename(p)]: what follows the last slash. *)
Definition basename (p : string) : string :=
  Str.last_seg (Str.split "/" p).

End OsPath.

(** ** Exceptions, results and the state and error monad *)

(** The exceptions the modelled code can raise.  [Collaborator] stands for
    whatever an external component (the model, the tokenizer) raises. *)
Inductive exception :=
| KeyError (key : Z)
| FileNotFoundError (path : string)
| NotADirectoryError (path : string)
| RuntimeError (msg : string)
| ValueError (msg : string)
| IndexError (msg : string)
| cv2_error (msg : string)
| Collaborator (class_name : string).

(** The name of the Python class of an exception. *)
Definition exc_class (e : exception) : string :=
  match e with
  | KeyError _ => "KeyError"
  | FileNotFoundError _ => "FileNotFoundError"
  | NotADirectoryError _ => "NotADirectoryError"
  | RuntimeError _ => "RuntimeError"
  | ValueError _ => "ValueError"
  | IndexError _ => "IndexError"
  | cv2_error _ => "cv2.error"
  | Collaborator c => c
  end.

Inductive result (A : Type) :=
| Ok (a : A)
| Raise (e : exception).
Arguments Ok {A} a.
Arguments Raise {A} e.

(** A computation over a state [S] that returns or raises; the state it
    reached survives a raise (what was printed or written stays). *)
Definition SE (S A : Type) : Type := S -> result A * S.

Definition se_ret {S A} (a : A) : SE S A := fun s => (Ok a, s).

Definition se_bind {S A B} (m : SE S A) (k : A -> SE S B) : SE S B :=
  fun s => match m s with
           | (Ok a, s') => k a s'
           | (Raise e, s') => (Raise e, s')
           end.

Definition se_raise {S A} (e : exception) : SE S A := fun s => (Raise e, s).
Definition se_get {S} : SE S S := fun s => (Ok s, s).
Definition se_modify {S} (f : S -> S) : SE S unit := fun s => (Ok tt, f s).
Definition se_lift {S A} (r : result A) : SE S A := fun s => (r, s).

Notation "x <- m ;; k" := (se_bind m (fun x => k))
  (at level 100, m at next level, right associativity, only parsing).
Notation "m ;;; k" := (se_bind m (fun _ => k))
  (at level 100, right associativity, only parsing).

(** [for x in l: body(x)] *)
Fixpoint for_each {S X} (l : list X) (body : X -> SE S unit) : SE S unit :=
  match l with
  | [] => se_ret tt
  | x :: l' => body x ;;; for_each l' body
  end.

(** [enumerate(l)] *)
Definition enumerate {X} (l : list X) : list (nat * X) := imap (fun i x => (i, x)) l.

(** ** The file system *)

(** What [cv2.imwrite] is given: a grayscale array of height x width, or a
    colour array of height x width x 3 in blue, green, red order. *)
Inductive raster :=
| Gray (px : list (list Z))
| Color (px : list (list (Z * Z * Z))).

Inductive entry :=
| Dir (names : list string)
| Img (content : raster)
| Other.

(** [fs_entry] resolves a path; [fs_walk top] is the sequence of
    [(root, dirs, files)] that [os.walk(top)] yields. *)
Record filesystem := {
  fs_entry : string -> option entry;
  fs_walk : string -> list (string * list string * list string)
}.

Module Os.

(** [os.path.exists(p)] *)
Definition path_exists (fs : filesystem) (p : string) : bool :=
  match fs_entry fs p with Some _ => true | None => false end.

(** [os.path.isdir(p)] *)
Definition path_isdir (fs : filesystem) (p : string) : bool :=
  match fs_entry fs p with Some (Dir _) => true | _ => false end.

(** [os.listdir(p)] *)
Definition listdir (fs : filesystem) (p : string) : result (list string) :=
  match fs_entry fs p with
  | Some (Dir names) => Ok names
  | Some _ => Raise (NotADirectoryError p)
  | None => Raise (FileNotFoundError p)
  end.

End Os.

(** ** Pair discovery: [collect_pairs] *)

(** An (image path, label path) tuple. *)
Definition pair : Type := string * string.

(** [image_clip_path = os.path.join(root, clip_id)] *)
Definition image_clip_path_of (root clip_id : string) : string :=
  OsPath.join root clip_id.

(** [label_clip_path = image_clip_path.replace("/images/", "/labels/")] *)
Definition label_clip_path_of (image_clip_path : string) : string :=
  Str.replace image_clip_path "/images/" "/labels/".

(** [frame_file.replace(".jpeg", ".png")] *)
Definition label_file_of (frame_file : string) : string :=
  Str.replace frame_file ".jpeg" ".png".

(** The body of [for frame_file in os.listdir(image_ts_path)]. *)
Definition frame_body (fs : filesystem) (image_ts_path label_ts_path frame_file : string)
  : SE (list pair) unit :=
  let image_path := OsPath.join image_ts_path frame_file in
  let label_path := OsPath.join label_ts_path (label_file_of frame_file) in
  if Os.path_exists fs label_path
  then se_modify (fun image_label_pairs => image_label_pairs ++ [(image_path, label_path)])
  else se_ret tt.

(** The body of [for timestamp in os.listdir(image_clip_path)]. *)
Definition timestamp_body (fs : filesystem) (image_clip_path label_clip_path timestamp : string)
  : SE (list pair) unit :=
  let image_ts_path := OsPath.join image_clip_path timestamp in
  let label_ts_path := OsPath.join label_clip_path timestamp in
  if negb (Os.path_isdir fs label_ts_path) then se_ret tt
  else
    frames <- se_lift (Os.listdir fs image_ts_path) ;;
    for_each frames (frame_body fs image_ts_path label_ts_path).

(** The body of [for clip_id in dirs]. *)
Definition clip_body (fs : filesystem) (root clip_id : string) : SE (list pair) unit :=
  let image_clip_path := image_clip_path_of root clip_id in
  let label_clip_path := label_clip_path_of image_clip_path in
  timestamps <- se_lift (Os.listdir fs image_clip_path) ;;
  for_each timestamps (timestamp_body fs image_clip_path label_clip_path).

(** The body of [for root, dirs, _ in os.walk(root_dir)]. *)
Definition walk_body (fs : filesystem) (step : string * list string * list string)
  : SE (list pair) unit :=
  let '(root, dirs, _) := step in
  if String.eqb (OsPath.basename root) "images"
  then for_each dirs (clip_body fs root)
  else se_ret tt.

Definition collect_pairs (fs : filesystem) (root_dir : string) : result (list pair) :=
  match for_each (fs_walk fs root_dir) (walk_body fs) [] with
  | (Ok _, image_label_pairs) => Ok image_label_pairs
  | (Raise e, _) => Raise e
  end.

(** Every pair in the list has a label that exists: the invariant of the
    four loops of [collect_pairs]. *)
Definition labels_exist (fs : filesystem) (acc : list pair) : Prop :=
  Forall (fun p : pair => Os.path_exists fs p.2 = true) acc.

(** ** The prompt table *)

Definition PROMPT1 : string := "
- People who are walking or riding kick scooters (including electric kick scooters), segways, skateboards, etc. are labeled as pedestrians.
- People inside other vehicles are not labeled, except for people standing on the top of cars/trucks or standing on flatbeds of trucks.
- A person riding a bicycle is not labeled as a pedestrian, but labeled as a cyclist instead.
- Mannequins, statues, billboards, posters, or reflections of people are not labeled.
- Include small child or carrying small items (smaller than 2m in size such as umbrella or small handbag or a sign).
- Include small mobility devices like a kick scooter (including electric kick scooter), a segway, a skateboard, etc
- If the pedestrian is carrying an object larger than 2m, or pushing a bike or shopping cart, the bounding box does not include the additional object.
- If the pedestrian is pushing a stroller with a child in it, separate bounding boxes are created for the pedestrian and the child. The stroller is not included in the child bounding box.
- If pedestrians overlap each other, they are labeled as separate objects. If they overlap then the bounding boxes can overlap as well.
".

Definition PROMPT2 : string := "
Output segmentation masks for pedestrians with:
1. Label visible pedestrians.
2. Do not label if pedestrian identity is unclear.
3. Label people walking or on scooters, segways, skateboards.
4. Do not label people inside vehicles, unless on top/flatbeds.
5. Cyclists are not labeled as pedestrians.
6. Ignore mannequins, posters, reflections, etc.
7. Use one box if pedestrian carries small items (<2m) or a child.
8. Label scooter/segway/skateboard riders with one box.
9. Exclude large items (>2m) or pushed carts/bikes from box.
10. Use separate boxes for pedestrian and child in stroller; exclude stroller.
11. Overlapping pedestrians get separate (possibly overlapping) boxes.
".

Definition PROMPT3 : string := "
pedestrian
".

Definition PROMPT4 : string := "
".

Definition Prompts : gmap Z string :=
  {[ 1 := PROMPT1; 2 := PROMPT2; 3 := PROMPT3; 4 := PROMPT4 ]}.

(** [Prompts[prompt_number]]: a dictionary subscript, which raises
    [KeyError] at a key that is absent. *)
Definition lookup_prompt (prompt_number : Z) : result string :=
  match Prompts !! prompt_number with
  | Some text => Ok text
  | None => Raise (KeyError prompt_number)
  end.

(** ** The backbone transform: [preprocess] *)

(** Tensors of rank three (channel, height, width) as nested lists. *)
Definition tensor3 (A : Type) : Type := list (list (list A)).

(** [m[i, j]], and [None] outside the array. *)
Definition at2 {A} (m : list (list A)) (i j : nat) : option A :=
  match m !! i with
  | Some row => row !! j
  | None => None
  end.

(** [t[c, i, j]], and [None] outside the tensor. *)
Definition at3 {A} (t : list (list (list A))) (c i j : nat) : option A :=
  match t !! c with
  | Some ch => at2 ch i j
  | None => None
  end.

(** IEEE 754 binary32, the dtype of [torch.Tensor]: 24 bits of precision,
    exponents below 128. *)
Module F32.
Definition prec : Z := 24.
Definition emax : Z := 128.
Definition zero : spec_float := S754_zero false.
Definition sub : spec_float -> spec_float -> spec_float := SFsub prec emax.
Definition div : spec_float -> spec_float -> spec_float := SFdiv prec emax.
(** The conversion of an integer to binary32. *)
Definition of_Z (n : Z) : spec_float := binary_normalize prec emax n 0 false.
End F32.

(** [torch.Tensor([123.675, 116.28, 103.53])]: the binary32 numbers nearest
    to the literals, as mantissa and exponent. *)
Definition pixel_mean : list spec_float :=
  [ S754_finite false 16210330 (-17);
    S754_finite false 15241052 (-17);
    S754_finite false 13569884 (-17) ].

(** [torch.Tensor([58.395, 57.12, 57.375])] *)
Definition pixel_std : list spec_float :=
  [ S754_finite false 15307899 (-18);
    S754_finite false 14973665 (-18);
    S754_finite false 15040512 (-18) ].

(** [x op v] for [x] of shape (C, H, W) and [v] of shape (K, 1, 1), with
    torch's broadcasting of the channel dimension: sizes are equal, or one
    of them is 1. *)
Definition channelwise {A B D} (op : A -> B -> D) (x : tensor3 A) (v : list B)
  : result (tensor3 D) :=
  let on_channel ch m := map (map (fun a => op a m)) ch in
  if (length x =? length v)%nat then Ok (zip_with on_channel x v)
  else match v, x with
       | [m], _ => Ok (map (fun ch => on_channel ch m) x)
       | _, [ch] => Ok (map (fun m => on_channel ch m) v)
       | _, _ => Raise (RuntimeError "The size of tensor a must match the size of tensor b")
       end.

(** Constant padding at the end of one dimension, as [F.pad] does it: a
    negative amount removes elements from the end. *)
Definition pad_end {A} (fill : A) (amount : Z) (l : list A) : list A :=
  if amount <? 0 then take (Z.to_nat (Z.of_nat (length l) + amount)) l
  else l ++ replicate (Z.to_nat amount) fill.

(** [F.pad(x, (0, padw, 0, padh))] on a tensor of shape (C, h, w), in
    constant mode with value 0: [padw] at the right of the last dimension
    and [padh] at the bottom of the one before.  torch raises when a
    resulting size is negative. *)
Definition F_pad (x : tensor3 spec_float) (h w : nat) (padw padh : Z)
  : result (tensor3 spec_float) :=
  let new_h := Z.of_nat h + padh in
  let new_w := Z.of_nat w + padw in
  if (new_h <? 0) || (new_w <? 0)
  then Raise (RuntimeError "negative output size")
  else
    let zero_row := replicate (Z.to_nat new_w) F32.zero in
    Ok (map (fun ch => pad_end zero_row padh (map (pad_end F32.zero padw) ch)) x).

(** [x.shape[-2:]] of a tensor of rank three. *)
Definition shape_hw {A} (x : tensor3 A) : nat * nat :=
  (length (List.hd [] x), length (List.hd [] (List.hd [] x))).

(** [preprocess(x, pixel_mean, pixel_std, img_size)], for [x] the uint8
    tensor that [main] passes: the subtraction promotes [x] to binary32. *)
Definition preprocess (x : tensor3 Z) (pixel_mean pixel_std : list spec_float)
    (img_size : Z) : result (tensor3 spec_float) :=
  match channelwise (fun a m => F32.sub (F32.of_Z a) m) x pixel_mean with
  | Raise e => Raise e
  | Ok x1 =>
      match channelwise F32.div x1 pixel_std with
      | Raise e => Raise e
      | Ok x2 =>
          let '(h, w) := shape_hw x2 in
          let padh := img_size - Z.of_nat h in
          let padw := img_size - Z.of_nat w in
          F_pad x2 h w padw padh
      end
  end.

(** [(a - mean) / std] in binary32, for an element [a] of the uint8 tensor. *)
Definition normalized (mean std : spec_float) (a : Z) : spec_float :=
  F32.div (F32.sub (F32.of_Z a) mean) std.

(** ** The user turn of the conversation *)

Definition NL : string := String (ascii_of_nat 10) EmptyString.

(** Lines 233 to 238 of [main]: [image_token], [im_start] and [im_end] are
    [DEFAULT_IMAGE_TOKEN], [DEFAULT_IM_START_TOKEN] and
    [DEFAULT_IM_END_TOKEN] of [utils.utils]. *)
Definition user_turn (image_token im_start im_end : string)
    (use_mm_start_end : bool) (prompt : string) : string :=
  let prompt := image_token +:+ NL +:+ prompt in
  if use_mm_start_end then
    let replace_token := im_start +:+ image_token +:+ im_end in
    Str.replace prompt image_token replace_token
  else prompt.

(** ** Masks and rasters *)

(** An image as [cv2] and [numpy] hold it: height x width x 3, uint8. *)
Definition image : Type := list (list (Z * Z * Z)).

(** [a.shape[:2]] *)
Definition shape2 {A} (a : list (list A)) : nat * nat :=
  (length a, length (List.hd [] a)).

(** [cv2.cvtColor] with [COLOR_BGR2RGB] or [COLOR_RGB2BGR]: the first and
    the third channel change places. *)
Definition swap_rb (p : Z * Z * Z) : Z * Z * Z :=
  let '(a, b, c) := p in (c, b, a).

Definition cvtColor (img : image) : image := map (map swap_rb) img.

(** [pred_mask > 0] on binary floating point numbers. *)
Definition gt0 (v : spec_float) : bool := SFltb (S754_zero false) v.

Definition binarize (m : list (list spec_float)) : list (list bool) :=
  map (map gt0) m.

(** [astype(np.uint8)] of a boolean. *)
Definition bool_to_u8 (b : bool) : Z := if b then 1 else 0.

(** Multiplication of a uint8 array by a Python integer: modulo 256. *)
Definition u8_mul (a k : Z) : Z := (a * k) mod 256.

(** [gray_mask = pred_mask.astype(np.uint8) * 255] *)
Definition gray_mask_of (pred_mask : list (list bool)) : list (list Z) :=
  map (map (fun b => u8_mul (bool_to_u8 b) 255)) pred_mask.

(** The conversion of a float64 to uint8 that an assignment into a uint8
    array performs: truncation toward zero. *)
Definition Qtrunc (q : Q) : Z := Z.quot (Qnum q) (Zpos (Qden q)).
Definition to_u8 (q : Q) : Z := Qtrunc q mod 256.

(** One channel of
    [image_np * 0.5 + pred_mask[:, :, None].astype(np.uint8) * np.array([255, 0, 0]) * 0.5]
    at a pixel where the mask is [m].  The float64 operations are exact on
    these values (multiples of one half below 256), so rationals model them. *)
Definition blend_channel (v : Z) (m : bool) (colour : Z) : Q :=
  (inject_Z v * (1 # 2) + inject_Z (bool_to_u8 m * colour) * (1 # 2))%Q.

Definition blend_pixel (p : Z * Z * Z) (m : bool) : Z * Z * Z :=
  let '(r, g, b) := p in
  (to_u8 (blend_channel r m 255), to_u8 (blend_channel g m 0), to_u8 (blend_channel b m 0)).

(** numpy's test that two sizes broadcast. *)
Definition broadcastable (a b : nat) : bool :=
  (a =? b)%nat || (a =? 1)%nat || (b =? 1)%nat.

(** [save_img = image_np.copy(); save_img[pred_mask] = (...)[pred_mask]]:
    numpy raises unless the mask has the shape of the image. *)
Definition overlay (image_np : image) (pred_mask : list (list bool)) : result image :=
  let '(h, w) := shape2 image_np in
  let '(mh, mw) := shape2 pred_mask in
  if (h =? mh)%nat && (w =? mw)%nat then
    Ok (zip_with (zip_with (fun (p : Z * Z * Z) (m : bool) => if m then blend_pixel p m else p)) image_np pred_mask)
  else if broadcastable h mh && broadcastable w mw then
    Raise (IndexError "boolean index did not match indexed array")
  else Raise (ValueError "operands could not be broadcast together").

(** [parent_dir = "/".join(lbl_path.split("/")[:-1])] *)
Definition parent_dir_of (lbl_path : string) : string :=
  Str.join "/" (removelast (Str.split "/" lbl_path)).

(** [base_name = lbl_path.split("/")[-1].split(".")[0]] *)
Definition base_name_of (lbl_path : string) : string :=
  Str.first_seg (Str.split "." (Str.last_seg (Str.split "/" lbl_path))).

(** ["{}/{}_LISA_mask_{}_prompt{}.png".format(parent_dir, base_name, i, prompt_number)] *)
Definition mask_path (parent_dir base_name : string) (i : nat) (prompt_number : Z) : string :=
  parent_dir +:+ "/" +:+ base_name +:+ "_LISA_mask_" +:+ Str.of_nat i +:+
  "_prompt" +:+ Str.of_Z prompt_number +:+ ".png".

(** ["{}/{}_LISA_masked_img_{}_prompt{}.png".format(parent_dir, base_name, i, prompt_number)] *)
Definition masked_img_path (parent_dir base_name : string) (i : nat) (prompt_number : Z) : string :=
  parent_dir +:+ "/" +:+ base_name +:+ "_LISA_masked_img_" +:+ Str.of_nat i +:+
  "_prompt" +:+ Str.of_Z prompt_number +:+ ".png".

(** ** The world of [main] *)

Inductive event :=
| Printed (line : string)
| Wrote (path : string) (content : raster).

(** The file system, what was printed and written so far (oldest first),
    and the hidden state of the model. *)
Record world (MS : Type) := World {
  w_fs : filesystem;
  w_trace : list event;
  w_model : MS
}.
Arguments World {MS}.
Arguments w_fs {MS}.
Arguments w_trace {MS}.
Arguments w_model {MS}.

Definition print {MS} (line : string) : SE (world MS) unit :=
  se_modify (fun w => World (w_fs w) (w_trace w ++ [Printed line]) (w_model w)).

(** An array without pixels: of height 0 or of width 0. *)
Definition empty2 {A} (a : list (list A)) : bool :=
  let '(h, w) := shape2 a in (h =? 0)%nat || (w =? 0)%nat.

Definition raster_empty (r : raster) : bool :=
  match r with
  | Gray px => empty2 px
  | Color px => empty2 px
  end.

(** The file system in which [path] holds the raster [r].  Only the entry
    of [path] changes.  What [os.listdir] and [os.walk] give is read by
    discovery alone, which is over before the first file is written: the
    listing of the directory that holds [path] is left as discovery saw
    it, and no statement is made about it after a write. *)
Definition write_file (fs : filesystem) (path : string) (r : raster) : filesystem :=
  {| fs_entry := fun q => if String.eqb q path then Some (Img r) else fs_entry fs q;
     fs_walk := fs_walk fs |}.

(** [cv2.imwrite(path, array)]: the file is created or overwritten; an
    empty array is refused with an exception.  The directory is taken to
    exist and to be writable. *)
Definition imwrite {MS} (path : string) (r : raster) : SE (world MS) unit :=
  if raster_empty r then se_raise (cv2_error "imwrite: empty image")
  else se_modify (fun w =>
         World (write_file (w_fs w) path r) (w_trace w ++ [Wrote path r]) (w_model w)).

(** [cv2.imread(path)]: a blue, green, red array, or [None] when the file
    cannot be read as an image. *)
Definition imread (fs : filesystem) (path : string) : option image :=
  match fs_entry fs path with
  | Some (Img (Color px)) => Some px
  | Some (Img (Gray px)) => Some (map (map (fun v => (v, v, v))) px)
  | _ => None
  end.

(** The body of [for i, pred_mask in enumerate(pred_masks)]; a predicted
    mask has shape (n, height, width). *)
Definition mask_body {MS} (prompt_number : Z) (parent_dir base_name : string)
    (image_np : image) (item : nat * tensor3 spec_float) : SE (world MS) unit :=
  let '(i, pred_mask) := item in
  match pred_mask with
  | [] => se_ret tt
  | first :: _ =>
      let pred_mask := binarize first in
      let gray_mask := gray_mask_of pred_mask in
      let save_path := mask_path parent_dir base_name i prompt_number in
      imwrite save_path (Gray gray_mask) ;;;
      print (save_path +:+ " has been saved.") ;;;
      let save_path := masked_img_path parent_dir base_name i prompt_number in
      save_img <- se_lift (overlay image_np pred_mask) ;;
      let save_img := cvtColor save_img in
      imwrite save_path (Color save_img) ;;;
      print (save_path +:+ " has been saved.")
  end.

(** Lines 300 to 345 of [main]. *)
Definition save_masks {MS} (prompt_number : Z) (lbl_path : string) (image_np : image)
    (pred_masks : list (tensor3 spec_float)) : SE (world MS) unit :=
  let parent_dir := parent_dir_of lbl_path in
  let base_name := base_name_of lbl_path in
  for_each (enumerate pred_masks) (mask_body prompt_number parent_dir base_name image_np).

(** ** The run configuration and the collaborators *)

Inductive Precision := fp32 | bf16 | fp16.
Inductive ConvType := llava_v1 | llava_llama_2.

(** The options of [parse_args] that lines 221 to 345 of [main] read. *)
Record Args := {
  precision : Precision;
  image_size : Z;
  use_mm_start_end : bool;
  conv_type : ConvType;
  folder_path : string;
  prompt_number : Z
}.

(** What [main] imports or builds before the loop and the embedding leaves
    open: the constants of [utils.utils], the conversation template, the
    two image processors, the tokenizer and the model. *)
Record Collaborators := {
  clip_tensor : Type;
  model_state : Type;
  DEFAULT_IMAGE_TOKEN : string;
  DEFAULT_IM_START_TOKEN : string;
  DEFAULT_IM_END_TOKEN : string;
  IMAGE_TOKEN_INDEX : Z;
  (** [str] of the list of pairs, for the first line printed *)
  repr_pairs : list pair -> string;
  (** [conv_templates[conv_type].copy()] with the user turn and an empty
      reply appended, then [get_prompt()] *)
  conv_get_prompt : ConvType -> string -> string;
  (** [clip_image_processor.preprocess(...)] and the cast to the precision *)
  clip_preprocess : Precision -> image -> clip_tensor;
  (** [ResizeLongestSide(image_size).apply_image] *)
  apply_image : Z -> image -> image;
  (** [.bfloat16()], [.half()] or [.float()] on one element *)
  to_precision : Precision -> spec_float -> spec_float;
  tokenizer_image_token : string -> list Z;
  (** [model.evaluate(...)]: token ids and predicted masks, or an exception *)
  evaluate : model_state -> clip_tensor -> tensor3 spec_float -> list Z ->
             list (nat * nat) -> list (nat * nat) ->
             result (list Z * list (tensor3 spec_float)) * model_state;
  tokenizer_decode : list Z -> string
}.

(** [torch.from_numpy(image).permute(2, 0, 1)]: height x width x 3 to
    3 x height x width. *)
Definition permute_201 (img : image) : tensor3 Z :=
  [ map (map (fun p : Z * Z * Z => p.1.1)) img;
    map (map (fun p : Z * Z * Z => p.1.2)) img;
    map (map (fun p : Z * Z * Z => p.2)) img ].

(** The call of [model.evaluate], which may change the state of the model. *)
Definition run_model (C : Collaborators) (image_clip : clip_tensor C)
    (img : tensor3 spec_float) (input_ids : list Z)
    (resize_list original_size_list : list (nat * nat))
  : SE (world (model_state C)) (list Z * list (tensor3 spec_float)) :=
  fun w =>
    let '(r, ms) := evaluate C (w_model w) image_clip img input_ids resize_list original_size_list in
    (r, World (w_fs w) (w_trace w) ms).

(** The body of [for img_path, lbl_path in pairs]. *)
Definition pair_body (C : Collaborators) (args : Args) (p : pair)
  : SE (world (model_state C)) unit :=
  let '(img_path, lbl_path) := p in
  print ("Processing image: " +:+ img_path +:+ " " +:+ lbl_path) ;;;
  prompt <- se_lift (lookup_prompt (prompt_number args)) ;;
  let prompt := user_turn (DEFAULT_IMAGE_TOKEN C) (DEFAULT_IM_START_TOKEN C)
                  (DEFAULT_IM_END_TOKEN C) (use_mm_start_end args) prompt in
  let prompt := conv_get_prompt C (conv_type args) prompt in
  let image_path := img_path in
  w <- se_get ;;
  if negb (Os.path_exists (w_fs w) image_path) then
    print ("File not found in " +:+ image_path)
  else
    match imread (w_fs w) image_path with
    | None => se_raise (cv2_error "cvtColor: empty image")
    | Some image_bgr =>
        let image_np := cvtColor image_bgr in
        let original_size_list := [shape2 image_np] in
        let image_clip := clip_preprocess C (precision args) image_np in
        let img := apply_image C (image_size args) image_np in
        let resize_list := [shape2 img] in
        img <- se_lift (preprocess (permute_201 img) pixel_mean pixel_std 1024) ;;
        let img := map (map (map (to_precision C (precision args)))) img in
        let input_ids := tokenizer_image_token C prompt in
        out <- run_model C image_clip img input_ids resize_list original_size_list ;;
        let '(output_ids, pred_masks) := out in
        let output_ids := filter (fun t => t ≠ IMAGE_TOKEN_INDEX C) output_ids in
        let text_output := tokenizer_decode C output_ids in
        let text_output := Str.replace (Str.replace text_output NL "") "  " " " in
        print ("text_output:  " +:+ text_output) ;;;
        save_masks (prompt_number args) lbl_path image_np pred_masks
    end.

(** [collect_pairs(args.folder_path)] on the file system of the world. *)
Definition discover {MS} (root_dir : string) : SE (world MS) (list pair) :=
  fun w => (collect_pairs (w_fs w) root_dir, w).

(** Lines 221 to 345 of [main]: discovery, the two lines printed, and the
    loop over the pairs.  What comes before (the output directory, the
    tokenizer, the model and its placement) sets up the collaborators. *)
Definition main_loop (C : Collaborators) (args : Args) : SE (world (model_state C)) unit :=
  pairs <- discover (folder_path args) ;;
  print ("Total pairs collected: " +:+ repr_pairs C pairs) ;;;
  prompt <- se_lift (lookup_prompt (prompt_number args)) ;;
  print ("Prompt: " +:+ prompt) ;;;
  for_each pairs (pair_body C args).

(** ** Shapes, events and the base name of the specification *)

(** [x] is a tensor of shape ([c], [h], [w]). *)
Definition has_shape {A} (x : list (list (list A))) (c h w : nat) : Prop :=
  length x = c /\
  Forall (fun ch => length ch = h /\ Forall (fun row : list A => length row = w) ch) x.

(** [a] is an array of [h] rows and [w] columns. *)
Definition rect2 {A} (a : list (list A)) (h w : nat) : Prop :=
  length a = h /\ Forall (fun row : list A => length row = w) a.

#[global] Instance rect2_dec {A} (a : list (list A)) h w : Decision (rect2 a h w).
Proof. unfold rect2. apply _. Defined.

#[global] Instance has_shape_dec {A} (x : list (list (list A))) c h w :
  Decision (has_shape x c h w).
Proof. unfold has_shape. apply _. Defined.

(** A predicted mask is empty, or its first slice has the shape of the
    image: what the model returns for an image, by its contract. *)
Definition mask_fits (image_np : image) (pred_mask : tensor3 spec_float) : Prop :=
  match pred_mask with
  | [] => True
  | first :: _ => shape2 first = shape2 image_np
  end.

#[global] Instance mask_fits_dec image_np pred_mask : Decision (mask_fits image_np pred_mask).
Proof. unfold mask_fits. destruct pred_mask; apply _. Defined.

#[global] Instance labels_exist_dec fs acc : Decision (labels_exist fs acc).
Proof. unfold labels_exist. apply _. Defined.

(** The writes among the events. *)
Definition writes_of (trace : list event) : list (string * raster) :=
  omap (fun e => match e with Wrote p r => Some (p, r) | Printed _ => None end) trace.

(** The file system after a sequence of writes. *)
Definition apply_writes (fs : filesystem) (l : list (string * raster)) : filesystem :=
  foldl (fun fs pr => write_file fs pr.1 pr.2) fs l.

(** The world after the events [evs]: the files written, the trace
    extended. *)
Definition world_after {MS} (w : world MS) (evs : list event) : world MS :=
  World (apply_writes (w_fs w) (writes_of evs)) (w_trace w ++ evs) (w_model w).

(** The events of one iteration of the mask loop on a mask whose first
    slice has the shape of the image: nothing for a mask of zero rows,
    otherwise the two rasters written, each followed by its line. *)
Definition mask_events (prompt_number : Z) (parent_dir base_name : string)
    (image_np : image) (i : nat) (pred_mask : tensor3 spec_float) : list event :=
  match pred_mask with
  | [] => []
  | first :: _ =>
      let m := binarize first in
      let p1 := mask_path parent_dir base_name i prompt_number in
      let p2 := masked_img_path parent_dir base_name i prompt_number in
      let save_img :=
        zip_with (zip_with (fun (p : Z * Z * Z) (b : bool) => if b then blend_pixel p b else p))
          image_np m in
      [ Wrote p1 (Gray (gray_mask_of m)); Printed (p1 +:+ " has been saved.");
        Wrote p2 (Color (cvtColor save_img)); Printed (p2 +:+ " has been saved.") ]
  end.

(** The specification's base name: the label's file name without its
    extension, that is, up to its last dot (a name without a dot, or with
    nothing but dots before the last one, has no extension). *)
Definition spec_base_name (lbl_path : string) : string :=
  let file_name := Str.last_seg (Str.split "/" lbl_path) in
  let segs := Str.split "." file_name in
  let stem := Str.join "." (removelast segs) in
  if forallb (String.eqb "") (removelast segs) then file_name else stem.

(** Every character of [s] satisfies [P]. *)
Fixpoint all_chars (P : ascii -> bool) (s : string) : bool :=
  match s with
  | EmptyString => true
  | String c s' => P c && all_chars P s'
  end.

(** The characters of [str(n)]: the ten digits and the minus sign. *)
Definition is_int_char (c : ascii) : bool :=
  match Ascii.is_nat c with
  | Some _ => true
  | None => Ascii.eqb c "-"
  end.

(** The array that [save_img] holds after the assignment under the mask,
    for a mask of the shape of the image. *)
Definition overlay_array (image_np : image) (pred_mask : list (list bool)) : image :=
  zip_with (zip_with (fun (p : Z * Z * Z) (b : bool) => if b then blend_pixel p b else p))
    image_np pred_mask.

(** The two files of the mask at position [i]: none for a mask of zero
    rows. *)
Definition mask_files (prompt_number : Z) (lbl_path : string) (image_np : image)
    (i : nat) (pred_mask : tensor3 spec_float) : list (string * raster) :=
  match pred_mask with
  | [] => []
  | first :: _ =>
      [ (mask_path (parent_dir_of lbl_path) (base_name_of lbl_path) i prompt_number,
         Gray (gray_mask_of (binarize first)));
        (masked_img_path (parent_dir_of lbl_path) (base_name_of lbl_path) i prompt_number,
         Color (cvtColor (overlay_array image_np (binarize first)))) ]
  end.

(** ** Predicates on discovery *)

(** The pair [p] comes from a frame that [collect_pairs] enumerates in
    one of the [steps] of the walk: a file [frame_file] of a timestamp
    directory of a clip under a directory named [images], where the
    label side has a directory for the timestamp and the label file
    exists. *)
Definition discovered_from (fs : filesystem)
    (steps : list (string * list string * list string)) (p : pair) : Prop :=
  exists root dirs files clip_id timestamps timestamp frames frame_file,
    (root, dirs, files) ∈ steps /\
    OsPath.basename root = "images" /\
    clip_id ∈ dirs /\
    Os.listdir fs (image_clip_path_of root clip_id) = Ok timestamps /\
    timestamp ∈ timestamps /\
    Os.path_isdir fs
      (OsPath.join (label_clip_path_of (image_clip_path_of root clip_id)) timestamp) = true /\
    Os.listdir fs (OsPath.join (image_clip_path_of root clip_id) timestamp) = Ok frames /\
    frame_file ∈ frames /\
    Os.path_exists fs
      (OsPath.join (OsPath.join (label_clip_path_of (image_clip_path_of root clip_id)) timestamp)
         (label_file_of frame_file)) = true /\
    p = (OsPath.join (OsPath.join (image_clip_path_of root clip_id) timestamp) frame_file,
         OsPath.join (OsPath.join (label_clip_path_of (image_clip_path_of root clip_id)) timestamp)
           (label_file_of frame_file)).

(** Every name that a directory lists resolves, under the directory, to
    an entry: what holds of a file system that nobody changes while it is
    read. *)
Definition listing_consistent (fs : filesystem) : Prop :=
  forall dir names name,
    fs_entry fs dir = Some (Dir names) -> name ∈ names ->
    Os.path_exists fs (OsPath.join dir name) = true.

(** Every directory listing that [collect_pairs] performs on the walk
    of [root_dir] succeeds: the one of each clip, and the one of each
    timestamp whose label side is a directory. *)
Definition listings_succeed (fs : filesystem) (root_dir : string) : Prop :=
  forall root dirs files clip_id,
    (root, dirs, files) ∈ fs_walk fs root_dir ->
    OsPath.basename root = "images" ->
    clip_id ∈ dirs ->
    exists timestamps,
      Os.listdir fs (image_clip_path_of root clip_id) = Ok timestamps /\
      forall timestamp,
        timestamp ∈ timestamps ->
        Os.path_isdir fs
          (OsPath.join (label_clip_path_of (image_clip_path_of root clip_id)) timestamp) = true ->
        exists frames,
          Os.listdir fs (OsPath.join (image_clip_path_of root clip_id) timestamp) = Ok frames.

(** ** The model call of one iteration *)

(** The tensor that [main] passes to the model for the image [image_np]:
    resized, permuted, normalized and padded to 1024, then cast to the
    precision of the run. *)
Definition backbone_input (C : Collaborators) (args : Args) (image_np : image)
  : tensor3 spec_float :=
  match preprocess (permute_201 (apply_image C (image_size args) image_np))
          pixel_mean pixel_std 1024 with
  | Ok img => map (map (map (to_precision C (precision args)))) img
  | Raise _ => []
  end.

(** The token ids of the conversation prompt for the instruction [text]. *)
Definition input_ids_of (C : Collaborators) (args : Args) (text : string) : list Z :=
  tokenizer_image_token C
    (conv_get_prompt C (conv_type args)
       (user_turn (DEFAULT_IMAGE_TOKEN C) (DEFAULT_IM_START_TOKEN C)
          (DEFAULT_IM_END_TOKEN C) (use_mm_start_end args) text)).

(** [model.evaluate(image_clip, image, input_ids, resize_list,
    original_size_list, ...)] as [main] calls it for the image [image_np]
    and the instruction [text], from the model state [ms]. *)
Definition model_call (C : Collaborators) (args : Args) (text : string) (image_np : image)
    (ms : model_state C)
  : result (list Z * list (tensor3 spec_float)) * model_state C :=
  evaluate C ms (clip_preprocess C (precision args) image_np)
    (backbone_input C args image_np) (input_ids_of C args text)
    [shape2 (apply_image C (image_size args) image_np)] [shape2 image_np].

(** The text that is printed after ["text_output:  "]: the decoded output
    without the image token, and with the two replacements of line 296. *)
Definition text_output_of (C : Collaborators) (output_ids : list Z) : string :=
  Str.replace
    (Str.replace (tokenizer_decode C (filter (fun t => t ≠ IMAGE_TOKEN_INDEX C) output_ids))
       NL "")
    "  " " ".

(** The line printed first in every iteration. *)
Definition processing_line (img_path lbl_path : string) : string :=
  "Processing image: " +:+ img_path +:+ " " +:+ lbl_path.

(** ** The label name of the specification, and the cut of a replacement *)

(** The specification's label name: the frame's name with the extension
    [.jpeg] replaced by [.png]; a name that does not end in [.jpeg] has no
    such extension and is kept. *)
Definition spec_label_file_of (frame_file : string) : string :=
  if Str.endswith ".jpeg" frame_file
  then String.substring 0 (Str.len frame_file - 5) frame_file +:+ ".png"
  else frame_file.

(** The cut that a left-to-right scan for [old] makes in [s]: [s] is the
    [pieces] and [last] joined by [old]; in every piece followed by [old]
    the leftmost occurrence of [old] is that one at the end of the piece
    ([old] starts at no offset inside the piece); and [old] does not occur
    in [last]. *)
Definition cut_at_leftmost (old s : string) (pieces : list string) (last : string) : Prop :=
  s = Str.join old (pieces ++ [last]) /\
  Forall (fun p => forall j : nat, (j < Str.len p)%nat ->
                     Str.occurs_at old (p +:+ old) j = false) pieces /\
  Str.contains old last = false.

(** ** The directory listings of discovery, in the order of the calls *)

(** The timestamp directories that the loop over [timestamps] lists: those
    whose label side is a directory. *)
Definition timestamp_listings (fs : filesystem) (image_clip_path label_clip_path : string)
    (timestamps : list string) : list string :=
  flat_map (fun timestamp =>
              if Os.path_isdir fs (OsPath.join label_clip_path timestamp)
              then [OsPath.join image_clip_path timestamp] else [])
    timestamps.

(** The paths that the body of the loop over the clips gives to
    [os.listdir]: the clip, then its timestamp directories. *)
Definition clip_listings (fs : filesystem) (root clip_id : string) : list string :=
  let image_clip_path := image_clip_path_of root clip_id in
  image_clip_path ::
  match Os.listdir fs image_clip_path with
  | Ok timestamps =>
      timestamp_listings fs image_clip_path (label_clip_path_of image_clip_path) timestamps
  | Raise _ => []
  end.

(** The paths that [collect_pairs] gives to [os.listdir], in the order of
    the calls, when no call fails. *)
Definition listed_paths (fs : filesystem) (root_dir : string) : list string :=
  flat_map (fun step : string * list string * list string =>
              let '(root, dirs, _) := step in
              if String.eqb (OsPath.basename root) "images"
              then flat_map (clip_listings fs root) dirs else [])
    (fs_walk fs root_dir).

(** The exception of the first path of [paths] that [os.listdir] refuses. *)
Fixpoint first_failure (fs : filesystem) (paths : list string) : option exception :=
  match paths with
  | [] => None
  | p :: rest =>
      match Os.listdir fs p with
      | Raise e => Some e
      | Ok _ => first_failure fs rest
      end
  end.

(** The outcome of a run that ends with the first failure, if any. *)
Definition outcome_of (failure : option exception) : result unit :=
  match failure with
  | Some e => Raise e
  | None => Ok tt
  end.

(** ** Sample data *)

(** A small dataset: one clip with two timestamps, of which only [t1] has
    labels, and in [t1] two frames, of which only [f] has a label. *)
Definition sample_tree : gmap string entry :=
  {[ "/d" := Dir ["images"; "labels"];
     "/d/images" := Dir ["c1"];
     "/d/labels" := Dir ["c1"];
     "/d/images/c1" := Dir ["t1"; "t2"];
     "/d/labels/c1" := Dir ["t1"];
     "/d/images/c1/t1" := Dir ["f.jpeg"; "g.jpeg"];
     "/d/images/c1/t2" := Dir ["h.jpeg"];
     "/d/labels/c1/t1" := Dir ["f.png"];
     "/d/images/c1/t1/f.jpeg" := Img (Color [[(30, 20, 10); (0, 0, 0)]]);
     "/d/images/c1/t1/g.jpeg" := Img (Color [[(1, 2, 3); (4, 5, 6)]]);
     "/d/images/c1/t2/h.jpeg" := Img (Color [[(7, 8, 9); (7, 8, 9)]]);
     "/d/labels/c1/t1/f.png" := Img (Gray [[1; 0]]) ]}.

Definition sample_walk (top : string) : list (string * list string * list string) :=
  if String.eqb top "/d" then
    [ ("/d", ["images"; "labels"], []);
      ("/d/images", ["c1"], []);
      ("/d/images/c1", ["t1"; "t2"], []);
      ("/d/images/c1/t1", [], ["f.jpeg"; "g.jpeg"]);
      ("/d/images/c1/t2", [], ["h.jpeg"]);
      ("/d/labels", ["c1"], []);
      ("/d/labels/c1", ["t1"], []);
      ("/d/labels/c1/t1", [], ["f.png"]) ]
  else [].

Definition sample_fs : filesystem :=
  {| fs_entry := fun p => sample_tree !! p; fs_walk := sample_walk |}.

(** A uint8 tensor of 3 channels, 2 rows and 1 column. *)
Definition sample_tall : tensor3 Z := [ [[1]; [2]]; [[3]; [4]]; [[5]; [6]] ].

(** A uint8 tensor of 3 channels, 1 row and 2 columns. *)
Definition sample_wide : tensor3 Z := [ [[10; 20]]; [[30; 40]]; [[50; 60]] ].

(** An image of one row and two columns, and a predicted mask of its
    shape with one slice. *)
Definition sample_image : image := [[(10, 20, 30); (200, 100, 50)]].
Definition sample_mask : tensor3 spec_float :=
  [ [ [S754_finite false 1 0; S754_zero false] ] ].

(** Collaborators for running the pipeline on the sample data: the
    constants are those of LISA's [utils.utils]; the model predicts, for
    any image, one mask of zero rows and one mask of one row and two
    columns in which the first pixel is positive. *)
Definition sample_collaborators : Collaborators :=
  {| clip_tensor := unit;
     model_state := nat;
     DEFAULT_IMAGE_TOKEN := "<image>";
     DEFAULT_IM_START_TOKEN := "<im_start>";
     DEFAULT_IM_END_TOKEN := "<im_end>";
     IMAGE_TOKEN_INDEX := -200;
     repr_pairs := fun pairs => Str.of_nat (length pairs) +:+ " pairs";
     conv_get_prompt := fun _ turn => "USER: " +:+ turn +:+ " ASSISTANT:";
     clip_preprocess := fun _ _ => tt;
     apply_image := fun _ img => img;
     to_precision := fun _ v => v;
     tokenizer_image_token := fun _ => [1; -200; 2];
     evaluate := fun calls _ _ ids _ _ =>
       (Ok (ids, [ []; [ [ [S754_finite false 1 0; S754_finite true 1 0] ] ] ]), S calls);
     tokenizer_decode := fun _ => "[SEG]" |}.

Definition sample_args : Args :=
  {| precision := bf16;
     image_size := 1024;
     use_mm_start_end := true;
     conv_type := llava_v1;
     folder_path := "/d";
     prompt_number := 3 |}.

Definition sample_world : world nat :=
  World sample_fs [] 0%nat.

(** A tree without a directory named [images]. *)
Definition sample_fs_plain : filesystem :=
  {| fs_entry := fun p =>
       ({[ "/e" := Dir ["a"; "x.txt"]; "/e/a" := Dir []; "/e/x.txt" := Other ]}
          : gmap string entry) !! p;
     fs_walk := fun top =>
       if String.eqb top "/e" then [ ("/e", ["a"], ["x.txt"]); ("/e/a", [], []) ] else [] |}.

(** A clip in which [notes] is a file on the image side and a directory
    on the label side. *)
Definition sample_fs_file_timestamp : filesystem :=
  {| fs_entry := fun p =>
       ({[ "/b/images" := Dir ["c1"]; "/b/labels" := Dir ["c1"];
           "/b/images/c1" := Dir ["notes"]; "/b/labels/c1" := Dir ["notes"];
           "/b/images/c1/notes" := Other; "/b/labels/c1/notes" := Dir [] ]}
          : gmap string entry) !! p;
     fs_walk := fun top =>
       if String.eqb top "/b" then
         [ ("/b", ["images"; "labels"], []);
           ("/b/images", ["c1"], []); ("/b/images/c1", [], ["notes"]);
           ("/b/labels", ["c1"], []); ("/b/labels/c1", ["notes"], []);
           ("/b/labels/c1/notes", [], []) ]
       else [] |}.

(** A dataset given by the relative path [images]: no path below it
    contains [/images/]. *)
Definition sample_fs_relative : filesystem :=
  {| fs_entry := fun p =>
       ({[ "images" := Dir ["c1"]; "images/c1" := Dir ["t1"];
           "images/c1/t1" := Dir ["f.png"];
           "images/c1/t1/f.png" := Img (Color [[(1, 2, 3)]]) ]}
          : gmap string entry) !! p;
     fs_walk := fun top =>
       if String.eqb top "images" then
         [ ("images", ["c1"], []); ("images/c1", ["t1"], []);
           ("images/c1/t1", [], ["f.png"]) ]
       else [] |}.

(** Channel [k] of a pixel: what [permute(2, 0, 1)] puts at [k, i, j]. *)
Definition channel (k : nat) (p : Z * Z * Z) : option Z :=
  [p.1.1; p.1.2; p.2] !! k.

(** A uint8 tensor of 4 channels (red, green, blue, alpha), 1 row and
    1 column. *)
Definition sample_rgba : tensor3 Z := [ [[1]]; [[2]]; [[3]]; [[255]] ].

(** Collaborators whose model fails with an out-of-memory error. *)
Definition sample_collaborators_failing : Collaborators :=
  {| clip_tensor := unit;
     model_state := nat;
     DEFAULT_IMAGE_TOKEN := "<image>";
     DEFAULT_IM_START_TOKEN := "<im_start>";
     DEFAULT_IM_END_TOKEN := "<im_end>";
     IMAGE_TOKEN_INDEX := -200;
     repr_pairs := fun pairs => Str.of_nat (length pairs) +:+ " pairs";
     conv_get_prompt := fun _ turn => "USER: " +:+ turn +:+ " ASSISTANT:";
     clip_preprocess := fun _ _ => tt;
     apply_image := fun _ img => img;
     to_precision := fun _ v => v;
     tokenizer_image_token := fun _ => [1; -200; 2];
     evaluate := fun calls _ _ _ _ _ => (Raise (RuntimeError "CUDA out of memory"), S calls);
     tokenizer_decode := fun _ => "[SEG]" |}.

(** A predicted mask of two rows and one column, which does not have the
    shape of [sample_image]. *)
Definition sample_mask_tall : tensor3 spec_float :=
  [ [ [S754_finite false 1 0]; [S754_zero false] ] ].

(** The sample run with a prompt id that is not in the registry. *)
Definition sample_args_unknown_prompt : Args :=
  {| precision := bf16;
     image_size := 1024;
     use_mm_start_end := true;
     conv_type := llava_v1;
     folder_path := "/d";
     prompt_number := 7 |}.

(** A frame whose name has [.jpeg] twice, with the label that the
    replacement of the extension names. *)
Definition sample_fs_double_jpeg : filesystem :=
  {| fs_entry := fun p =>
       ({[ "/j" := Dir ["images"; "labels"];
           "/j/images" := Dir ["c1"]; "/j/labels" := Dir ["c1"];
           "/j/images/c1" := Dir ["t1"]; "/j/labels/c1" := Dir ["t1"];
           "/j/images/c1/t1" := Dir ["a.jpeg.jpeg"];
           "/j/labels/c1/t1" := Dir ["a.jpeg.png"];
           "/j/images/c1/t1/a.jpeg.jpeg" := Img (Color [[(1, 2, 3)]]);
           "/j/labels/c1/t1/a.jpeg.png" := Img (Gray [[1]]) ]}
          : gmap string entry) !! p;
     fs_walk := fun top =>
       if String.eqb top "/j" then
         [ ("/j", ["images"; "labels"], []);
           ("/j/images", ["c1"], []); ("/j/images/c1", ["t1"], []);
           ("/j/images/c1/t1", [], ["a.jpeg.jpeg"]);
           ("/j/labels", ["c1"], []); ("/j/labels/c1", ["t1"], []);
           ("/j/labels/c1/t1", [], ["a.jpeg.png"]) ]
       else [] |}.

(** * Properties *)

(** ** The string and path functions on concrete inputs *)

Example replace_samples :
  Str.replace "/d/images/c1" "/images/" "/labels/" = "/d/labels/c1" /\
  Str.replace "f.jpeg" ".jpeg" ".png" = "f.png" /\
  Str.replace "aaa" "aa" "b" = "ba" /\
  Str.replace "abc" "" "-" = "-a-b-c-".
Proof. repeat split; reflexivity. Qed.

Example split_join_samples :
  Str.split "/" "/a/b.png" = [""; "a"; "b.png"] /\
  Str.split "." "" = [""] /\
  Str.join "/" [""; "a"] = "/a" /\
  Str.join "/" [] = "".
Proof. repeat split; reflexivity. Qed.

Example os_path_samples :
  OsPath.join "/a/images" "c1" = "/a/images/c1" /\
  OsPath.join "/a/" "c1" = "/a/c1" /\
  OsPath.join "" "c1" = "c1" /\
  OsPath.join "/a" "/b" = "/b" /\
  OsPath.basename "/a/images" = "images" /\
  OsPath.basename "/a/images/" = "".
Proof. repeat split; reflexivity. Qed.

Example str_of_int_samples :
  Str.of_Z 0 = "0" /\ Str.of_Z (-12) = "-12" /\ Str.of_nat 10 = "10".
Proof. repeat split; reflexivity. Qed.

Example unbordered_samples :
  Str.unbordered "<image>" = true /\ Str.unbordered ".jpeg" = true /\
  Str.unbordered "/images/" = false.
Proof. repeat split; reflexivity. Qed.

(** ** Loops in the state and error monad *)

Section ForEach.
Context {S X : Type}.
Implicit Types (body : X -> SE S unit) (l : list X) (s : S).

Lemma for_each_cons body x l s :
  for_each (x :: l) body s =
  match body x s with
  | (Ok _, s') => for_each l body s'
  | (Raise e, s') => (Raise e, s')
  end.
Proof. reflexivity. Qed.

Lemma for_each_app body l1 l2 s :
  for_each (l1 ++ l2) body s =
  match for_each l1 body s with
  | (Ok _, s') => for_each l2 body s'
  | (Raise e, s') => (Raise e, s')
  end.
Proof.
  revert s. induction l1 as [|x l1 IH]; intros s; [reflexivity|].
  rewrite <- app_comm_cons, !for_each_cons.
  destruct (body x s) as [[[]|e] s1]; [apply IH | reflexivity].
Qed.

(** A relation on states that every run of the body respects, and that
    is reflexive and transitive, is respected by the loop. *)
Lemma for_each_preserves (R : S -> S -> Prop) body l :
  (forall s, R s s) ->
  (forall s1 s2 s3, R s1 s2 -> R s2 s3 -> R s1 s3) ->
  (forall x s r s', x ∈ l -> body x s = (r, s') -> R s s') ->
  forall s r s', for_each l body s = (r, s') -> R s s'.
Proof.
  intros Hrefl Htrans. induction l as [|x l IH]; intros Hbody s r s' Hrun.
  - cbn in Hrun. injection Hrun as _ <-. apply Hrefl.
  - rewrite for_each_cons in Hrun.
    destruct (body x s) as [[[]|e] s1] eqn:Hx.
    + apply Htrans with s1.
      * eapply Hbody; [left | exact Hx].
      * eapply IH; [|exact Hrun]. intros y t r' t' Hy. apply Hbody. by right.
    + injection Hrun as _ <-. eapply Hbody; [left | exact Hx].
Qed.

(** In a loop that returned, the body returned at every element, from a
    state the loop reached and into a state the loop went on from. *)
Lemma for_each_elem (R : S -> S -> Prop) body l x :
  (forall s, R s s) ->
  (forall s1 s2 s3, R s1 s2 -> R s2 s3 -> R s1 s3) ->
  (forall y s r s', y ∈ l -> body y s = (r, s') -> R s s') ->
  x ∈ l ->
  forall s s', for_each l body s = (Ok tt, s') ->
  exists s1 s2, R s s1 /\ body x s1 = (Ok tt, s2) /\ R s2 s'.
Proof.
  intros Hrefl Htrans. induction l as [|y l IH]; intros Hbody Hin s s' Hrun.
  - by apply elem_of_nil in Hin.
  - rewrite for_each_cons in Hrun.
    destruct (body y s) as [[[]|e] s1] eqn:Hy; [|discriminate].
    assert (Hrest : forall z t r t', z ∈ l -> body z t = (r, t') -> R t t').
    { intros z t r t' Hz. apply Hbody. by right. }
    apply elem_of_cons in Hin as [->|Hin].
    + exists s, s1. split; [apply Hrefl|]. split; [exact Hy|].
      eapply for_each_preserves; eauto.
    + destruct (IH Hrest Hin s1 s' Hrun) as (t1 & t2 & H1 & H2 & H3).
      exists t1, t2. split; [|by split].
      apply Htrans with s1; [|exact H1]. eapply Hbody; [left | exact Hy].
Qed.

(** A property of the state that every run of the body keeps is kept by
    the loop. *)
Lemma for_each_invariant (I : S -> Prop) body l :
  (forall x s r s', x ∈ l -> I s -> body x s = (r, s') -> I s') ->
  forall s r s', I s -> for_each l body s = (r, s') -> I s'.
Proof.
  induction l as [|x l IH]; intros Hbody s r s' Hs Hrun.
  - cbn in Hrun. by injection Hrun as _ <-.
  - rewrite for_each_cons in Hrun.
    destruct (body x s) as [[[]|e] s1] eqn:Hx.
    + eapply IH; [| |exact Hrun].
      * intros y t r' t' Hy. apply Hbody. by right.
      * eapply Hbody; [left | exact Hs | exact Hx].
    + injection Hrun as _ <-. eapply Hbody; [left | exact Hs | exact Hx].
Qed.

End ForEach.

(** ** Pair discovery *)

Section Discovery.
Variable fs : filesystem.

(** Each loop body of [collect_pairs] only appends to the list. *)
Lemma frame_body_grows image_ts label_ts frame_file acc r acc' :
  frame_body fs image_ts label_ts frame_file acc = (r, acc') -> acc `prefix_of` acc'.
Proof.
  unfold frame_body. destruct (Os.path_exists fs _); cbn; intros [= _ <-].
  - by apply prefix_app_r.
  - done.
Qed.

Lemma frames_grow image_ts label_ts frames acc r acc' :
  for_each frames (frame_body fs image_ts label_ts) acc = (r, acc') -> acc `prefix_of` acc'.
Proof.
  apply (for_each_preserves (fun a b : list pair => a `prefix_of` b)).
  - done.
  - intros ???. by etrans.
  - intros ?????. apply frame_body_grows.
Qed.

Lemma timestamp_body_grows image_clip label_clip timestamp acc r acc' :
  timestamp_body fs image_clip label_clip timestamp acc = (r, acc') -> acc `prefix_of` acc'.
Proof.
  unfold timestamp_body. destruct (negb _); [by intros [= _ <-]|].
  unfold se_bind, se_lift. destruct (Os.listdir fs _); [apply frames_grow|by intros [= _ <-]].
Qed.

Lemma timestamps_grow image_clip label_clip timestamps acc r acc' :
  for_each timestamps (timestamp_body fs image_clip label_clip) acc = (r, acc') ->
  acc `prefix_of` acc'.
Proof.
  apply (for_each_preserves (fun a b : list pair => a `prefix_of` b)).
  - done.
  - intros ???. by etrans.
  - intros ?????. apply timestamp_body_grows.
Qed.

Lemma clip_body_grows root clip_id acc r acc' :
  clip_body fs root clip_id acc = (r, acc') -> acc `prefix_of` acc'.
Proof.
  unfold clip_body, se_bind, se_lift.
  destruct (Os.listdir fs _); [apply timestamps_grow|by intros [= _ <-]].
Qed.

Lemma clips_grow root dirs acc r acc' :
  for_each dirs (clip_body fs root) acc = (r, acc') -> acc `prefix_of` acc'.
Proof.
  apply (for_each_preserves (fun a b : list pair => a `prefix_of` b)).
  - done.
  - intros ???. by etrans.
  - intros ?????. apply clip_body_grows.
Qed.

Lemma walk_body_grows step acc r acc' :
  walk_body fs step acc = (r, acc') -> acc `prefix_of` acc'.
Proof.
  destruct step as [[root dirs] files]. unfold walk_body.
  destruct (String.eqb _ _); [apply clips_grow|by intros [= _ <-]].
Qed.

Lemma frame_body_sound image_ts label_ts frame_file acc r acc' :
  labels_exist fs acc ->
  frame_body fs image_ts label_ts frame_file acc = (r, acc') -> labels_exist fs acc'.
Proof.
  unfold frame_body. intros Hacc.
  destruct (Os.path_exists fs _) eqn:Hex; cbn; intros [= _ <-]; [|done].
  apply Forall_app. split; [done|]. by apply Forall_singleton.
Qed.

Lemma timestamp_body_sound image_clip label_clip timestamp acc r acc' :
  labels_exist fs acc ->
  timestamp_body fs image_clip label_clip timestamp acc = (r, acc') -> labels_exist fs acc'.
Proof.
  unfold timestamp_body. intros Hacc. destruct (negb _); [by intros [= _ <-]|].
  unfold se_bind, se_lift. destruct (Os.listdir fs _); [|by intros [= _ <-]].
  apply (for_each_invariant (labels_exist fs)); [|done].
  intros ?????. apply frame_body_sound.
Qed.

Lemma clip_body_sound root clip_id acc r acc' :
  labels_exist fs acc -> clip_body fs root clip_id acc = (r, acc') -> labels_exist fs acc'.
Proof.
  unfold clip_body, se_bind, se_lift. intros Hacc.
  destruct (Os.listdir fs _); [|by intros [= _ <-]].
  apply (for_each_invariant (labels_exist fs)); [|done].
  intros ?????. apply timestamp_body_sound.
Qed.

Lemma walk_body_sound step acc r acc' :
  labels_exist fs acc -> walk_body fs step acc = (r, acc') -> labels_exist fs acc'.
Proof.
  destruct step as [[root dirs] files]. unfold walk_body. intros Hacc.
  destruct (String.eqb _ _); [|by intros [= _ <-]].
  apply (for_each_invariant (labels_exist fs)); [|done].
  intros ?????. apply clip_body_sound.
Qed.

(** For all discovered pairs, the label path exists. *)
Lemma collect_pairs_labels_exist root_dir pairs :
  collect_pairs fs root_dir = Ok pairs -> labels_exist fs pairs.
Proof.
  unfold collect_pairs.
  destruct (for_each _ _ _) as [[[]|e] acc] eqn:Hrun; [|discriminate].
  intros [= <-]. revert Hrun. apply (for_each_invariant (labels_exist fs)).
  - intros ?????. apply walk_body_sound.
  - constructor.
Qed.

(** A root without a directory named [images] yields the empty list. *)
Lemma collect_pairs_no_images root_dir :
  (forall root dirs files, (root, dirs, files) ∈ fs_walk fs root_dir ->
     OsPath.basename root ≠ "images") ->
  collect_pairs fs root_dir = Ok [].
Proof.
  intros Hno. unfold collect_pairs.
  destruct (for_each _ _ _) as [r acc] eqn:Hrun.
  revert Hrun.
  enough (H : forall l (acc0 : list pair),
            (forall st, st ∈ l -> st ∈ fs_walk fs root_dir) ->
            for_each l (walk_body fs) acc0 = (Ok tt, acc0)).
  { rewrite H by done. by intros [= <- <-]. }
  induction l as [|[[root dirs] files] l IH]; intros acc0 Hl; [done|].
  rewrite for_each_cons. cbn.
  destruct (String.eqb_spec (OsPath.basename root) "images") as [Heq|_].
  - exfalso. eapply Hno; [|exact Heq]. apply Hl. left.
  - cbn. apply IH. intros st Hst. apply Hl. by right.
Qed.

End Discovery.

Section DiscoveryComplete.
Variable fs : filesystem.

Local Lemma grows_elem (p : pair) (a b : list pair) : p ∈ a -> a `prefix_of` b -> p ∈ b.
Proof. intros Hp [k ->]. apply elem_of_app. by left. Qed.

(** In a loop that returned and whose body only appends, the body
    returned at each element, into a prefix of the final list. *)
Local Lemma appending_loop_elem {X} (body : X -> SE (list pair) unit) l x acc acc' :
  for_each l body acc = (Ok tt, acc') ->
  x ∈ l ->
  (forall y s r s', body y s = (r, s') -> s `prefix_of` s') ->
  exists a1 a2, body x a1 = (Ok tt, a2) /\ a2 `prefix_of` acc'.
Proof.
  intros Hrun Hin Hbody.
  destruct (for_each_elem (fun a b : list pair => a `prefix_of` b) body l x)
    with (s := acc) (s' := acc') as (a1 & a2 & _ & H1 & H2); try done.
  - intros ???. by etrans.
  - intros y s r s' _ H. exact (Hbody y s r s' H).
  - by exists a1, a2.
Qed.

Lemma frames_complete image_ts label_ts frames frame_file acc acc' :
  for_each frames (frame_body fs image_ts label_ts) acc = (Ok tt, acc') ->
  frame_file ∈ frames ->
  Os.path_exists fs (OsPath.join label_ts (label_file_of frame_file)) = true ->
  (OsPath.join image_ts frame_file, OsPath.join label_ts (label_file_of frame_file)) ∈ acc'.
Proof.
  intros Hrun Hin Hex.
  destruct (appending_loop_elem _ _ _ _ _ Hrun Hin) as (a1 & a2 & Hbody & Hrest);
    [intros ????; apply frame_body_grows |].
  unfold frame_body in Hbody. rewrite Hex in Hbody. cbn in Hbody.
    injection Hbody as <-. eapply grows_elem; [|exact Hrest].
    apply elem_of_app. right. by apply list_elem_of_singleton.
Qed.

Lemma timestamps_complete image_clip label_clip timestamps timestamp frames frame_file acc acc' :
  for_each timestamps (timestamp_body fs image_clip label_clip) acc = (Ok tt, acc') ->
  timestamp ∈ timestamps ->
  Os.path_isdir fs (OsPath.join label_clip timestamp) = true ->
  Os.listdir fs (OsPath.join image_clip timestamp) = Ok frames ->
  frame_file ∈ frames ->
  Os.path_exists fs
    (OsPath.join (OsPath.join label_clip timestamp) (label_file_of frame_file)) = true ->
  (OsPath.join (OsPath.join image_clip timestamp) frame_file,
   OsPath.join (OsPath.join label_clip timestamp) (label_file_of frame_file)) ∈ acc'.
Proof.
  intros Hrun Hin Hdir Hls Hframe Hex.
  destruct (appending_loop_elem _ _ _ _ _ Hrun Hin) as (a1 & a2 & Hbody & Hrest);
    [intros ????; apply timestamp_body_grows |].
  unfold timestamp_body in Hbody. rewrite Hdir in Hbody. cbn in Hbody.
    unfold se_bind, se_lift in Hbody. rewrite Hls in Hbody.
    eapply grows_elem; [|exact Hrest]. eapply frames_complete; eauto.
Qed.

Lemma clips_complete root dirs clip_id timestamps timestamp frames frame_file acc acc' :
  let image_clip := image_clip_path_of root clip_id in
  let label_clip := label_clip_path_of image_clip in
  for_each dirs (clip_body fs root) acc = (Ok tt, acc') ->
  clip_id ∈ dirs ->
  Os.listdir fs image_clip = Ok timestamps ->
  timestamp ∈ timestamps ->
  Os.path_isdir fs (OsPath.join label_clip timestamp) = true ->
  Os.listdir fs (OsPath.join image_clip timestamp) = Ok frames ->
  frame_file ∈ frames ->
  Os.path_exists fs
    (OsPath.join (OsPath.join label_clip timestamp) (label_file_of frame_file)) = true ->
  (OsPath.join (OsPath.join image_clip timestamp) frame_file,
   OsPath.join (OsPath.join label_clip timestamp) (label_file_of frame_file)) ∈ acc'.
Proof.
  intros image_clip label_clip Hrun Hin Hts Htin Hdir Hls Hframe Hex.
  destruct (appending_loop_elem _ _ _ _ _ Hrun Hin) as (a1 & a2 & Hbody & Hrest);
    [intros ????; apply clip_body_grows |].
  unfold clip_body, se_bind, se_lift in Hbody. fold image_clip in Hbody.
    rewrite Hts in Hbody.
    eapply grows_elem; [|exact Hrest]. eapply timestamps_complete; eauto.
Qed.

Lemma walk_complete steps root dirs files clip_id timestamps timestamp frames frame_file acc acc' :
  let image_clip := image_clip_path_of root clip_id in
  let label_clip := label_clip_path_of image_clip in
  for_each steps (walk_body fs) acc = (Ok tt, acc') ->
  (root, dirs, files) ∈ steps ->
  OsPath.basename root = "images" ->
  clip_id ∈ dirs ->
  Os.listdir fs image_clip = Ok timestamps ->
  timestamp ∈ timestamps ->
  Os.path_isdir fs (OsPath.join label_clip timestamp) = true ->
  Os.listdir fs (OsPath.join image_clip timestamp) = Ok frames ->
  frame_file ∈ frames ->
  Os.path_exists fs
    (OsPath.join (OsPath.join label_clip timestamp) (label_file_of frame_file)) = true ->
  (OsPath.join (OsPath.join image_clip timestamp) frame_file,
   OsPath.join (OsPath.join label_clip timestamp) (label_file_of frame_file)) ∈ acc'.
Proof.
  intros image_clip label_clip Hrun Hin Hbase Hclip Hts Htin Hdir Hls Hframe Hex.
  destruct (appending_loop_elem _ _ _ _ _ Hrun Hin) as (a1 & a2 & Hbody & Hrest);
    [intros ????; apply walk_body_grows |].
  unfold walk_body in Hbody. rewrite Hbase in Hbody. cbn in Hbody.
    eapply grows_elem; [|exact Hrest]. eapply clips_complete; eauto.
Qed.

End DiscoveryComplete.

(** ** Strings: concatenation, prefixes and occurrences *)

Module StrFacts.
Import Str.
#[local] Arguments String.append !s1 s2 : simpl nomatch.

Lemma app_nil_r s : s +:+ "" = s.
Proof. induction s as [|c s IH]; simpl; [done|by rewrite IH]. Qed.

Lemma app_assoc a b c : (a +:+ b) +:+ c = a +:+ (b +:+ c).
Proof. induction a as [|x a IH]; simpl; [done|by rewrite IH]. Qed.

Lemma len_app a b : len (a +:+ b) = (len a + len b)%nat.
Proof. unfold len. induction a as [|x a IH]; simpl; [done|]. by rewrite IH. Qed.

Lemma len_pos s : s ≠ "" -> (0 < len s)%nat.
Proof. destruct s; [done|]. unfold len. simpl. lia. Qed.

Lemma app_inv_head a b c : a +:+ b = a +:+ c -> b = c.
Proof. induction a as [|x a IH]; simpl; [done|]. intros [= H]. by apply IH. Qed.

(** Two ways of cutting one string: the shorter head is a prefix of the
    longer one. *)
Lemma app_eq_app a b c d :
  a +:+ b = c +:+ d -> (len a <= len c)%nat ->
  exists e, c = a +:+ e /\ b = e +:+ d.
Proof.
  revert c. induction a as [|x a IH]; intros c Heq Hlen.
  - exists c. by simpl in *.
  - destruct c as [|y c]; simpl in Hlen; [lia|].
    simpl in Heq. injection Heq as -> Heq.
    destruct (IH c Heq) as (e & -> & ->); [unfold len in *; lia|].
    by exists e.
Qed.

Lemma startswith_spec p s : startswith p s = true <-> exists r, s = p +:+ r.
Proof.
  revert s. induction p as [|a p IH]; intros s; simpl.
  - split; [by exists s|done].
  - destruct s as [|b s].
    + split; [done|]. by intros [r [=]].
    + destruct (Ascii.eqb_spec a b) as [->|Hne].
      * rewrite IH. split; intros [r Hr]; exists r; [by rewrite Hr|by injection Hr].
      * split; [done|]. intros [r [= ? _]]. by subst.
Qed.

Lemma startswith_app p r : startswith p (p +:+ r) = true.
Proof. apply startswith_spec. by exists r. Qed.

Lemma startswith_app_r p s r : startswith p s = true -> startswith p (s +:+ r) = true.
Proof.
  rewrite !startswith_spec. intros [t ->]. exists (t +:+ r). apply app_assoc.
Qed.

Lemma startswith_len p s : startswith p s = true -> (len p <= len s)%nat.
Proof. rewrite startswith_spec. intros [r ->]. rewrite len_app. lia. Qed.

Lemma drop_app a r : drop (len a) (a +:+ r) = r.
Proof. induction a as [|x a IH]; simpl; [by destruct r|done]. Qed.

Lemma drop_len_le i s : (len (drop i s) <= len s)%nat.
Proof.
  unfold len. revert s. induction i as [|i IH]; intros [|c s]; simpl; try lia.
  specialize (IH s). lia.
Qed.

Lemma occurs_at_0 old s : occurs_at old s 0 = startswith old s.
Proof. reflexivity. Qed.

Lemma occurs_at_S old c s i : occurs_at old (String c s) (S i) = occurs_at old s i.
Proof. reflexivity. Qed.

Lemma occurs_at_nil old i : old ≠ "" -> occurs_at old "" i = false.
Proof.
  intros Hne. unfold occurs_at. destruct i; simpl; [|done]. by destruct old.
Qed.

Lemma occurs_at_app_skip old a s i :
  occurs_at old (a +:+ s) (len a + i) = occurs_at old s i.
Proof. induction a as [|x a IH]; simpl; [done|]. by rewrite occurs_at_S. Qed.

(** [old] occurs at offset [i] exactly when the string splits there. *)
Lemma occurs_at_spec old s i :
  occurs_at old s i = true <-> exists a b, s = a +:+ old +:+ b /\ len a = i.
Proof.
  revert s. induction i as [|i IH]; intros s.
  - rewrite occurs_at_0, startswith_spec. split.
    + intros [r ->]. by exists "", r.
    + intros (a & b & -> & Ha). destruct a; [|done]. by exists b.
  - destruct s as [|c s].
    + split; [done|]. intros (a & b & Hs & Ha). by destruct a.
    + rewrite occurs_at_S, IH. split.
      * intros (a & b & -> & <-). by exists (String c a), b.
      * intros (a & b & Hs & Ha). destruct a as [|x a]; [done|].
        simpl in Hs, Ha. injection Hs as -> ->. injection Ha as <-. by exists a, b.
Qed.

Lemma contains_false_startswith old s : contains old s = false -> startswith old s = false.
Proof. destruct s; simpl; intros H; by apply orb_false_iff in H as [? _]. Qed.

Lemma contains_false_tail old c s : contains old (String c s) = false -> contains old s = false.
Proof. simpl. intros H. by apply orb_false_iff in H as [_ ?]. Qed.

End StrFacts.

(** ** [str.replace] *)

Module ReplaceFacts.
Import Str StrFacts.
#[local] Open Scope nat_scope.
#[local] Arguments String.append !s1 s2 : simpl nomatch.

Section Replace.
Variables old new : string.

Lemma replace_go_0_cons c s :
  replace_go old new 0 (String c s) =
  if startswith old (String c s)
  then new +:+ replace_go old new (len old - 1) s
  else String c (replace_go old new 0 s).
Proof. reflexivity. Qed.

(** Stepping over the rest of a matched occurrence. *)
Lemma replace_go_skip a r : replace_go old new (len a) (a +:+ r) = replace_go old new 0 r.
Proof. induction a as [|x a IH]; simpl; [by destruct r|done]. Qed.

(** At an occurrence, [new] is emitted and the scan resumes after it. *)
Lemma replace_go_match r : old ≠ "" -> replace_go old new 0 (old +:+ r) = new +:+ replace_go old new 0 r.
Proof.
  intros Hne. destruct (decide (old = "")) as [|_]; [done|].
  assert (exists c t, old = String c t) as (c & t & Hold).
  { destruct old as [|c t]; [done|]. by exists c, t. }
  assert (Hcons : old +:+ r = String c (t +:+ r)) by (by rewrite Hold).
  rewrite Hcons, replace_go_0_cons, <- Hcons, startswith_app.
  f_equal. replace (len old - 1)%nat with (len t).
  - apply replace_go_skip.
  - rewrite Hold. unfold len. simpl. lia.
Qed.

(** Where [old] does not occur, nothing changes. *)
Lemma replace_go_absent s : contains old s = false -> replace_go old new 0 s = s.
Proof.
  induction s as [|c s IH]; [done|]. intros H.
  pose proof (contains_false_startswith _ _ H) as Hs.
  pose proof (contains_false_tail _ _ _ H) as Ht.
  simpl. rewrite Hs. f_equal. by apply IH.
Qed.

(** Without a border, [old] cannot start inside a piece that is free of
    it and end inside the occurrence that follows the piece. *)
Lemma no_early_match p rest :
  unbordered old = true -> contains old p = false -> p ≠ "" ->
  startswith old (p +:+ old +:+ rest) = false.
Proof.
  intros Hub Hp Hne. destruct (startswith old _) eqn:Hs; [exfalso|done].
  apply startswith_spec in Hs as [r Hr].
  destruct (decide (len old <= len p)%nat) as [Hle|Hgt].
  - symmetry in Hr. destruct (app_eq_app _ _ _ _ Hr Hle) as (e & -> & _).
    apply contains_false_startswith in Hp. by rewrite startswith_app in Hp.
  - destruct (app_eq_app p (old +:+ rest) old r Hr) as (v & Hold & Hv); [lia|].
    assert (Hlen : len old = (len p + len v)%nat) by (by rewrite Hold at 1; rewrite len_app).
    assert (len v <= len old)%nat by lia.
    destruct (app_eq_app v r old rest (eq_sym Hv)) as (e & Hold2 & _); [done|].
    assert (Hk : (len p) ∈ seq 1 (len old - 1)).
    { apply elem_of_seq. destruct p; [done|]. unfold len in *. simpl in *. lia. }
    unfold unbordered in Hub. rewrite forallb_forall in Hub.
    apply list_elem_of_In in Hk. specialize (Hub _ Hk).
    apply negb_true_iff in Hub.
    rewrite Hold in Hub at 1. rewrite drop_app in Hub.
    rewrite Hold2 in Hub at 1. by rewrite startswith_app in Hub.
Qed.

(** A piece free of [old], then [old]: the piece is copied, [old] is
    replaced, and the scan resumes after it. *)
Lemma replace_go_piece p rest :
  old ≠ "" -> unbordered old = true -> contains old p = false ->
  replace_go old new 0 (p +:+ old +:+ rest) = p +:+ new +:+ replace_go old new 0 rest.
Proof.
  intros Hne Hub. induction p as [|c p IH]; intros Hp.
  - simpl. by apply replace_go_match.
  - pose proof (no_early_match (String c p) rest Hub Hp) as Hs.
    simpl in *. rewrite Hs by done. f_equal. apply IH.
    by apply contains_false_tail in Hp.
Qed.

(** Pieces free of [old] joined by [old] become the same pieces joined
    by [new]. *)
Lemma replace_go_join pieces :
  old ≠ "" -> unbordered old = true ->
  Forall (fun p => contains old p = false) pieces ->
  replace_go old new 0 (join old pieces) = join new pieces.
Proof.
  intros Hne Hub. induction pieces as [|p [|q l] IH]; intros Hall.
  - done.
  - simpl. apply replace_go_absent. by inversion Hall.
  - change (join old (p :: q :: l)) with (p +:+ old +:+ join old (q :: l)).
    change (join new (p :: q :: l)) with (p +:+ new +:+ join new (q :: l)).
    inversion Hall; subst. rewrite replace_go_piece by done. by rewrite IH.
Qed.

(** The first occurrence of [old] splits a string that contains it. *)
Lemma first_occurrence s :
  old ≠ "" -> contains old s = true ->
  exists a b, s = a +:+ old +:+ b /\ contains old a = false.
Proof.
  intros Hne. induction s as [|c s IH]; intros Hs.
  - destruct old; [done|]. done.
  - destruct (startswith old (String c s)) eqn:Hp.
    + apply startswith_spec in Hp as [b ->]. exists "", b. split; [done|].
      by destruct old.
    + simpl in Hs. rewrite Hp in Hs. simpl in Hs.
      destruct (IH Hs) as (a & b & -> & Ha). exists (String c a), b.
      split; [done|]. simpl. rewrite Ha, orb_false_r.
      destruct (startswith old (String c a)) eqn:Hq; [|done].
      apply (startswith_app_r _ _ (old +:+ b)) in Hq. simpl in Hq. congruence.
Qed.

(** Every string is pieces free of [old] joined by [old]. *)
Lemma pieces_exist s :
  old ≠ "" ->
  exists p ps, s = join old (p :: ps) /\
               Forall (fun q => contains old q = false) (p :: ps).
Proof.
  intros Hne. remember (len s) as n eqn:Hn. revert s Hn.
  induction n as [n IH] using lt_wf_ind. intros s ->.
  destruct (contains old s) eqn:Hs.
  - destruct (first_occurrence s Hne Hs) as (a & b & -> & Ha).
    destruct (IH (len b)) with (s := b) as (p & ps & Hb & Hall); [|done|].
    + rewrite !len_app. destruct old; [done|]. unfold len. simpl. lia.
    + exists a, (p :: ps). split; [|by constructor].
      change (join old (a :: p :: ps)) with (a +:+ old +:+ join old (p :: ps)).
      by rewrite <- Hb.
  - exists s, []. split; [done|]. by constructor.
Qed.

(** *** Replacement by a string of the same length *)

Hypothesis Hlen : len new = len old.
Hypothesis Hold : old ≠ "".

Lemma len_old_pos : (0 < len old)%nat.
Proof using Hold. by apply len_pos. Qed.

Lemma replace_go_len s skip :
  len (replace_go old new skip s) = (len s - skip)%nat.
Proof using Hlen Hold.
  pose proof len_old_pos as Hpos.
  revert skip. induction s as [|c s IH]; intros skip; [done|].
  destruct skip as [|k].
  - rewrite replace_go_0_cons. destruct (startswith old (String c s)) eqn:Hs.
    + apply startswith_len in Hs. rewrite len_app, IH, Hlen.
      unfold len in *. simpl in *. lia.
    + unfold len in *. simpl. rewrite IH. lia.
  - simpl. rewrite IH. unfold len. simpl. lia.
Qed.

(** An occurrence that the scan reaches, and that no earlier
    occurrence overlaps, is replaced in place. *)
Lemma replace_go_occurrence s skip i :
  (skip <= i)%nat ->
  occurs_at old s i = true ->
  (forall j, (skip <= j)%nat -> (j < i)%nat -> (i < j + len old)%nat ->
             occurs_at old s j = false) ->
  occurs_at new (replace_go old new skip s) (i - skip) = true.
Proof using Hlen Hold.
  pose proof len_old_pos as Hpos.
  revert skip i. induction s as [|c s IH]; intros skip i Hi Hocc Hfree.
  - by rewrite occurs_at_nil in Hocc.
  - destruct skip as [|k].
    + rewrite replace_go_0_cons, Nat.sub_0_r.
      destruct (startswith old (String c s)) eqn:Hs.
      * destruct (decide (i = 0)) as [->|Hi0].
        { rewrite occurs_at_0. apply startswith_app. }
        destruct (decide (i < len old)%nat) as [Hlt|Hge].
        { assert (H0 : occurs_at old (String c s) 0 = false) by (apply Hfree; lia).
          rewrite occurs_at_0 in H0. congruence. }
        destruct i as [|i']; [done|]. rewrite occurs_at_S in Hocc.
        replace (S i') with (len new + (i' - (len old - 1)))%nat by lia.
        rewrite occurs_at_app_skip. apply IH; [lia|done|].
        intros j ???. rewrite <- (occurs_at_S old c). apply Hfree; lia.
      * destruct i as [|i']; [by rewrite occurs_at_0, Hs in Hocc|].
        rewrite !occurs_at_S in *.
        replace i' with (i' - 0)%nat by lia. apply IH; [lia|done|].
        intros j ???. rewrite <- (occurs_at_S old c). apply Hfree; lia.
    + destruct i as [|i']; [lia|]. simpl. rewrite occurs_at_S in Hocc.
      apply IH; [lia|done|].
      intros j ???. rewrite <- (occurs_at_S old c). apply Hfree; lia.
Qed.

Lemma get_app_skip a s i : String.get (len a + i) (a +:+ s) = String.get i s.
Proof. induction a as [|x a IH]; simpl; done. Qed.

(** A character that no occurrence covers is copied in place. *)
Lemma replace_go_get s skip i :
  (skip <= i)%nat ->
  (forall j, (j <= i)%nat -> (i < j + len old)%nat -> occurs_at old s j = false) ->
  String.get (i - skip) (replace_go old new skip s) = String.get i s.
Proof using Hlen Hold.
  pose proof len_old_pos as Hpos.
  revert skip i. induction s as [|c s IH]; intros skip i Hi Hfree; [by destruct (i - skip)%nat, i|].
  destruct skip as [|k].
  - rewrite replace_go_0_cons, Nat.sub_0_r.
    destruct (startswith old (String c s)) eqn:Hs.
    + destruct (decide (i < len old)%nat) as [Hlt|Hge].
      { assert (H0 : occurs_at old (String c s) 0 = false) by (apply Hfree; lia).
        rewrite occurs_at_0 in H0. congruence. }
      destruct i as [|i']; [lia|].
      replace (S i') with (len new + (i' - (len old - 1)))%nat at 1 by lia.
      rewrite get_app_skip. simpl. apply IH; [lia|].
      intros j ??. rewrite <- (occurs_at_S old c). apply Hfree; lia.
    + destruct i as [|i']; [done|]. simpl.
      replace i' with (i' - 0)%nat at 1 by lia. apply IH; [lia|].
      intros j ??. rewrite <- (occurs_at_S old c). apply Hfree; lia.
  - destruct i as [|i']; [lia|]. simpl. apply IH; [lia|].
    intros j ??. rewrite <- (occurs_at_S old c). apply Hfree; lia.
Qed.

End Replace.

End ReplaceFacts.

(** ** Pair discovery: the label of a frame and the inclusion of a pair *)

(** A frame [stem.jpeg] whose stem is free of [.jpeg] has the label
    [stem.png]. *)
Lemma label_file_of_jpeg stem :
  Str.contains ".jpeg" stem = false ->
  label_file_of (stem +:+ ".jpeg") = stem +:+ ".png".
Proof.
  intros Hstem. unfold label_file_of, Str.replace.
  rewrite <- (StrFacts.app_nil_r (stem +:+ ".jpeg")), StrFacts.app_assoc.
  rewrite ReplaceFacts.replace_go_piece by done.
  reflexivity.
Qed.

(** A frame whose name is free of [.jpeg] has a label of the same name. *)
Lemma label_file_of_other frame_file :
  Str.contains ".jpeg" frame_file = false -> label_file_of frame_file = frame_file.
Proof. apply ReplaceFacts.replace_go_absent. Qed.

Example collect_pairs_sample :
  collect_pairs sample_fs "/d" = Ok [("/d/images/c1/t1/f.jpeg", "/d/labels/c1/t1/f.png")].
Proof. vm_compute. reflexivity. Qed.

(** C7, as stated, fails for a frame whose name has [.jpeg] before its
    extension: [a.jpeg.jpeg] is enumerated in a matched timestamp
    directory and the label that the replacement of the extension names,
    [a.jpeg.png], exists, but no pair is made; the code looks for
    [a.png.png]. *)
Lemma collect_pairs_misses_label_of_double_jpeg :
  let fs := sample_fs_double_jpeg in
  Os.listdir fs "/j/images/c1/t1" = Ok ["a.jpeg.jpeg"] /\
  Os.path_isdir fs "/j/labels/c1/t1" = true /\
  spec_label_file_of "a.jpeg.jpeg" = "a.jpeg.png" /\
  Os.path_exists fs (OsPath.join "/j/labels/c1/t1" (spec_label_file_of "a.jpeg.jpeg")) = true /\
  collect_pairs fs "/j" = Ok [] /\
  label_file_of "a.jpeg.jpeg" = "a.png.png".
Proof. repeat split; vm_compute; reflexivity. Qed.

(** C7, amended. For every file that pair discovery enumerates in a
    matched timestamp directory (a directory [timestamp] of a clip under a
    directory named [images], whose counterpart on the label side is a
    directory), the pair of the image path and the label path is in the
    list that [collect_pairs] returns if and only if the label path exists
    on the file system; the label path is the label timestamp directory
    joined with the frame's name in which every occurrence of [.jpeg],
    not the extension only, is replaced by [.png]: cutting the name at
    the occurrences of [.jpeg] into pieces free of it, the label name is
    the same pieces joined by [.png].  For a frame [stem.jpeg] whose stem
    is free of [.jpeg] that is [stem.png]. *)
Theorem collect_pairs_includes_iff_label_exists
    (fs : filesystem) (root_dir : string) (pairs : list pair)
    (root : string) (dirs files : list string) (clip_id : string)
    (timestamps : list string) (timestamp : string)
    (frames : list string) (frame_file : string) :
  let image_clip_path := OsPath.join root clip_id in
  let label_clip_path := Str.replace image_clip_path "/images/" "/labels/" in
  let image_ts_path := OsPath.join image_clip_path timestamp in
  let label_ts_path := OsPath.join label_clip_path timestamp in
  let image_path := OsPath.join image_ts_path frame_file in
  let label_path := OsPath.join label_ts_path (label_file_of frame_file) in
  collect_pairs fs root_dir = Ok pairs ->
  (root, dirs, files) ∈ fs_walk fs root_dir ->
  OsPath.basename root = "images" ->
  clip_id ∈ dirs ->
  Os.listdir fs image_clip_path = Ok timestamps ->
  timestamp ∈ timestamps ->
  Os.path_isdir fs label_ts_path = true ->
  Os.listdir fs image_ts_path = Ok frames ->
  frame_file ∈ frames ->
  ((image_path, label_path) ∈ pairs <-> Os.path_exists fs label_path = true) /\
  (exists p ps,
     frame_file = Str.join ".jpeg" (p :: ps) /\
     Forall (fun q => Str.contains ".jpeg" q = false) (p :: ps)) /\
  (forall pieces,
     frame_file = Str.join ".jpeg" pieces ->
     Forall (fun q => Str.contains ".jpeg" q = false) pieces ->
     label_path = OsPath.join label_ts_path (Str.join ".png" pieces)) /\
  (forall stem, frame_file = stem +:+ ".jpeg" -> Str.contains ".jpeg" stem = false ->
     label_path = OsPath.join label_ts_path (stem +:+ ".png")).
Proof.
  intros image_clip_path label_clip_path image_ts_path label_ts_path image_path label_path
    Hrun Hstep Hbase Hclip Hts Htin Hdir Hls Hframe.
  split; [|split; [|split]].
  - split.
    + intros Hin. apply collect_pairs_labels_exist in Hrun.
      unfold labels_exist in Hrun. rewrite Forall_forall in Hrun.
      apply (Hrun _ Hin).
    + intros Hex. unfold collect_pairs in Hrun.
      destruct (for_each _ _ _) as [[[]|e] acc] eqn:Hloop; [|discriminate].
      injection Hrun as <-.
      eapply (walk_complete fs); eauto.
  - apply ReplaceFacts.pieces_exist. done.
  - intros pieces -> Hfree. unfold label_path. f_equal.
    unfold label_file_of, Str.replace.
    by apply ReplaceFacts.replace_go_join.
  - intros stem -> Hstem. unfold label_path. by rewrite label_file_of_jpeg.
Qed.

Lemma collect_pairs_includes_iff_label_exists_witness :
  (("/d/images/c1/t1/f.jpeg", "/d/labels/c1/t1/f.png")
     ∈ [("/d/images/c1/t1/f.jpeg", "/d/labels/c1/t1/f.png")]
   <-> Os.path_exists sample_fs "/d/labels/c1/t1/f.png" = true) /\
  (("/d/images/c1/t1/g.jpeg", "/d/labels/c1/t1/g.png")
     ∈ [("/d/images/c1/t1/f.jpeg", "/d/labels/c1/t1/f.png")]
   <-> Os.path_exists sample_fs "/d/labels/c1/t1/g.png" = true) /\
  OsPath.join "/j/labels/c1/t1" (label_file_of "a.jpeg.jpeg") =
    OsPath.join "/j/labels/c1/t1" (Str.join ".png" ["a"; ""; ""]).
Proof.
  split; [|split].
  - apply (collect_pairs_includes_iff_label_exists sample_fs "/d"
             [("/d/images/c1/t1/f.jpeg", "/d/labels/c1/t1/f.png")]
             "/d/images" ["c1"] [] "c1" ["t1"; "t2"] "t1" ["f.jpeg"; "g.jpeg"] "f.jpeg");
      try (vm_compute; reflexivity);
      try (apply list_elem_of_In; vm_compute; tauto).
  - apply (collect_pairs_includes_iff_label_exists sample_fs "/d"
             [("/d/images/c1/t1/f.jpeg", "/d/labels/c1/t1/f.png")]
             "/d/images" ["c1"] [] "c1" ["t1"; "t2"] "t1" ["f.jpeg"; "g.jpeg"] "g.jpeg");
      try (vm_compute; reflexivity);
      try (apply list_elem_of_In; vm_compute; tauto).
  - apply (proj1 (proj2 (proj2
             (collect_pairs_includes_iff_label_exists sample_fs_double_jpeg "/j" []
                "/j/images" ["c1"] [] "c1" ["t1"] "t1" ["a.jpeg.jpeg"] "a.jpeg.jpeg"
                ltac:(vm_compute; reflexivity)
                ltac:(apply list_elem_of_In; vm_compute; tauto)
                ltac:(vm_compute; reflexivity)
                ltac:(apply list_elem_of_In; vm_compute; tauto)
                ltac:(vm_compute; reflexivity)
                ltac:(apply list_elem_of_In; vm_compute; tauto)
                ltac:(vm_compute; reflexivity)
                ltac:(vm_compute; reflexivity)
                ltac:(apply list_elem_of_In; vm_compute; tauto)))) ["a"; ""; ""]).
    + reflexivity.
    + repeat constructor.
Defined.

(** ** Pair discovery: from the image clip path to the label clip path *)

Example label_clip_path_sample :
  label_clip_path_of (image_clip_path_of "/d/images" "c1") = "/d/labels/c1" /\
  label_clip_path_of (image_clip_path_of "/images/set/images" "c1") = "/labels/set/labels/c1".
Proof. split; reflexivity. Qed.

(** *** The cut of a left-to-right replacement *)

Module CutFacts.
Import Str StrFacts.
#[local] Open Scope nat_scope.
#[local] Arguments String.append !s1 s2 : simpl nomatch.

Section Cut.
Variables old new : string.
Hypothesis Hold : old ≠ "".

(** Whether [old] starts a string is decided within the first [len old]
    characters. *)
Lemma startswith_within a r :
  startswith old (a +:+ r) = true -> len old <= len a -> startswith old a = true.
Proof using Type.
  intros Hs Hle. apply startswith_spec in Hs as [t Ht].
  destruct (app_eq_app old t a r (eq_sym Ht) Hle) as (e & -> & _).
  apply startswith_app.
Qed.

Lemma join_cons_nonempty sep x (l : list string) :
  l ≠ [] -> join sep (x :: l) = x +:+ sep +:+ join sep l.
Proof using Type. by destruct l. Qed.

(** A piece in which [old] starts nowhere, then [old]: the piece is
    copied, [old] is replaced, and the scan resumes after it. *)
Lemma replace_go_cut p rest :
  (forall j, j < len p -> occurs_at old (p +:+ old) j = false) ->
  replace_go old new 0 (p +:+ old +:+ rest) = p +:+ new +:+ replace_go old new 0 rest.
Proof using Hold.
  induction p as [|c p IH]; intros Hfree.
  - simpl. by apply ReplaceFacts.replace_go_match.
  - assert (H0 : startswith old (String c p +:+ old) = false).
    { rewrite <- occurs_at_0. apply Hfree. unfold len. simpl. lia. }
    assert (Hs : startswith old (String c p +:+ old +:+ rest) = false).
    { destruct (startswith old (String c p +:+ old +:+ rest)) eqn:Hs; [|done].
      rewrite <- app_assoc in Hs. apply startswith_within in Hs; [congruence|].
      rewrite len_app. lia. }
    simpl in Hs. simpl. rewrite Hs. f_equal. apply IH.
    intros j Hj. rewrite <- (occurs_at_S old c). apply (Hfree (S j)).
    unfold len in *. simpl. lia.
Qed.

(** The pieces of a cut, joined by [new]. *)
Lemma replace_go_cuts s pieces last :
  cut_at_leftmost old s pieces last ->
  replace_go old new 0 s = join new (pieces ++ [last]).
Proof using Hold.
  intros (-> & Hpieces & Hlast).
  induction pieces as [|p ps IH].
  - simpl. by apply ReplaceFacts.replace_go_absent.
  - apply Forall_cons in Hpieces as [Hp Hps].
    rewrite <- app_comm_cons, !join_cons_nonempty by (by destruct ps).
    rewrite replace_go_cut by done. by rewrite IH.
Qed.

(** The leftmost occurrence of [old] splits a string that contains it. *)
Lemma leftmost_occurrence s :
  contains old s = true ->
  exists a b, s = a +:+ old +:+ b /\
              forall j, j < len a -> occurs_at old (a +:+ old) j = false.
Proof using Hold.
  induction s as [|c s IH]; intros Hs.
  - destruct old; [done|]. done.
  - destruct (startswith old (String c s)) eqn:Hp.
    + apply startswith_spec in Hp as [b ->]. exists "", b. split; [done|].
      intros j Hj. unfold len in Hj. simpl in Hj. lia.
    + simpl in Hs. rewrite Hp in Hs. simpl in Hs.
      destruct (IH Hs) as (a & b & -> & Ha). exists (String c a), b.
      split; [done|]. intros [|j] Hj.
      * rewrite occurs_at_0.
        destruct (startswith old (String c a +:+ old)) eqn:Hq; [|done].
        apply (startswith_app_r _ _ b) in Hq. rewrite app_assoc in Hq.
        simpl in Hq, Hp. congruence.
      * simpl. rewrite occurs_at_S. apply Ha. unfold len in *. simpl in Hj. lia.
Qed.

(** Every string has a cut. *)
Lemma cut_exists s : exists pieces last, cut_at_leftmost old s pieces last.
Proof using Hold.
  remember (len s) as n eqn:Hn. revert s Hn.
  induction n as [n IH] using lt_wf_ind. intros s ->.
  destruct (contains old s) eqn:Hs.
  - destruct (leftmost_occurrence s Hs) as (a & b & -> & Ha).
    destruct (IH (len b)) with (s := b) as (ps & last & Hb & Hps & Hlast); [|done|].
    + rewrite !len_app. destruct old; [done|]. unfold len. simpl. lia.
    + exists (a :: ps), last. split; [|split; [by constructor|done]].
      rewrite <- app_comm_cons, join_cons_nonempty by (by destruct ps).
      by rewrite <- Hb.
  - exists [], s. by repeat split.
Qed.

End Cut.

End CutFacts.

(** C10, as stated, fails where two occurrences of [/images/] share a
    slash: below a directory [images] inside a directory [images], the
    clip path [/data/images/images/c] has [/images/] at offsets 5 and 12,
    and the label clip path keeps the one at offset 12. *)
Lemma label_clip_path_keeps_overlapped_occurrence :
  let image_clip_path := image_clip_path_of "/data/images/images" "c" in
  image_clip_path = "/data/images/images/c" /\
  Str.occurs_at "/images/" image_clip_path 12 = true /\
  Str.occurs_at "/labels/" (label_clip_path_of image_clip_path) 12 = false /\
  label_clip_path_of image_clip_path = "/data/labels/images/c".
Proof. repeat split; reflexivity. Qed.

(** C10, amended. The label clip path is the image clip path after a
    replacement that is global and goes left to right: the image clip
    path is cut at the leftmost occurrence of [/images/], what follows
    that occurrence is cut at its leftmost occurrence, and so on until
    [/images/] occurs no more; the label clip path is the pieces of this
    cut joined by [/labels/].  Every image clip path has such a cut, and
    whichever cut of this kind is taken, the label clip path is its
    pieces joined by [/labels/].  So an occurrence in the root path, above
    the dataset, is replaced too, and an occurrence that shares its
    leading slash with an occurrence replaced just before it is not. *)
Theorem label_clip_path_replaces_occurrences (root clip_id : string) :
  let image_clip_path := OsPath.join root clip_id in
  (exists pieces last, cut_at_leftmost "/images/" image_clip_path pieces last) /\
  (forall pieces last,
     cut_at_leftmost "/images/" image_clip_path pieces last ->
     label_clip_path_of image_clip_path = Str.join "/labels/" (pieces ++ [last])).
Proof.
  intros p. split.
  - by apply CutFacts.cut_exists.
  - intros pieces last Hcut. unfold label_clip_path_of.
    change (Str.replace p "/images/" "/labels/")
      with (Str.replace_go "/images/" "/labels/" 0 p).
    by apply CutFacts.replace_go_cuts.
Qed.

Lemma label_clip_path_replaces_occurrences_witness :
  label_clip_path_of (OsPath.join "/images/images/images" "c") =
    Str.join "/labels/" ([""; "images"] ++ ["c"]) /\
  label_clip_path_of (OsPath.join "/data/images/images" "c") =
    Str.join "/labels/" (["/data"] ++ ["images/c"]).
Proof.
  split.
  - apply (proj2 (label_clip_path_replaces_occurrences "/images/images/images" "c")
             [""; "images"] "c").
    split; [reflexivity|]. split; [|reflexivity].
    repeat constructor.
    + intros j Hj. vm_compute in Hj. lia.
    + intros j Hj. do 6 (destruct j as [|j]; [reflexivity|]). vm_compute in Hj. lia.
  - apply (proj2 (label_clip_path_replaces_occurrences "/data/images/images" "c")
             ["/data"] "images/c").
    split; [reflexivity|]. split; [|reflexivity].
    repeat constructor.
    intros j Hj. do 5 (destruct j as [|j]; [reflexivity|]). vm_compute in Hj. lia.
Defined.

(** ** The user turn *)

Example user_turn_sample :
  user_turn "<image>" "<im_start>" "<im_end>" true "mark <image> here" =
  "<im_start><image><im_end>" +:+ NL +:+ "mark <im_start><image><im_end> here".
Proof. reflexivity. Qed.

(** C9. For every instruction text: without the wrapper flag the user
    turn is the image token, a newline and the instruction; with the flag,
    every occurrence of the image token in that string is replaced by
    start marker, token, end marker: cutting the newline and the
    instruction at the occurrences of the token into pieces free of it,
    the user turn is the wrapped token followed by the same pieces joined
    by the wrapped token.  The token is any non-empty string of which no
    two occurrences can overlap, as [<image>] is. *)
Theorem user_turn_wraps_image_tokens (image_token im_start im_end prompt : string) :
  image_token ≠ "" ->
  Str.unbordered image_token = true ->
  let wrapped := im_start +:+ image_token +:+ im_end in
  user_turn image_token im_start im_end false prompt = image_token +:+ NL +:+ prompt /\
  (exists p ps,
     NL +:+ prompt = Str.join image_token (p :: ps) /\
     Forall (fun q => Str.contains image_token q = false) (p :: ps) /\
     user_turn image_token im_start im_end true prompt =
       wrapped +:+ Str.join wrapped (p :: ps)) /\
  (forall pieces,
     NL +:+ prompt = Str.join image_token pieces ->
     Forall (fun q => Str.contains image_token q = false) pieces ->
     user_turn image_token im_start im_end true prompt =
       wrapped +:+ Str.join wrapped pieces).
Proof.
  intros Hne Hub wrapped.
  assert (Hall : forall pieces,
     NL +:+ prompt = Str.join image_token pieces ->
     Forall (fun q => Str.contains image_token q = false) pieces ->
     user_turn image_token im_start im_end true prompt =
       wrapped +:+ Str.join wrapped pieces).
  { intros pieces Hcut Hfree. unfold user_turn. fold wrapped.
    assert (Hrep : forall s, Str.replace s image_token wrapped =
                             Str.replace_go image_token wrapped 0 s).
    { intros s. unfold Str.replace. by destruct image_token. }
    rewrite Hrep, Hcut.
    destruct pieces as [|p ps]; [by destruct prompt|].
    change (image_token +:+ Str.join image_token (p :: ps))
      with (Str.join image_token ("" :: p :: ps)).
    rewrite ReplaceFacts.replace_go_join; [done..|].
    constructor; [|done]. by destruct image_token. }
  split; [done|]. split; [|done].
  destruct (ReplaceFacts.pieces_exist image_token (NL +:+ prompt) Hne) as (p & ps & Hcut & Hfree).
  exists p, ps. split; [done|]. split; [done|]. by apply Hall.
Qed.

Lemma user_turn_wraps_image_tokens_witness :
  user_turn "<image>" "<im_start>" "<im_end>" true PROMPT3 =
    "<im_start><image><im_end>" +:+ Str.join "<im_start><image><im_end>" [NL +:+ PROMPT3] /\
  user_turn "<image>" "<im_start>" "<im_end>" true "mark <image> here" =
    "<im_start><image><im_end>" +:+
    Str.join "<im_start><image><im_end>" [NL +:+ "mark "; " here"].
Proof.
  split.
  - apply (proj2 (proj2 (user_turn_wraps_image_tokens "<image>" "<im_start>" "<im_end>" PROMPT3
             ltac:(discriminate) eq_refl)) [NL +:+ PROMPT3]).
    + reflexivity.
    + repeat constructor.
  - apply (proj2 (proj2 (user_turn_wraps_image_tokens "<image>" "<im_start>" "<im_end>"
             "mark <image> here" ltac:(discriminate) eq_refl)) [NL +:+ "mark "; " here"]).
    + reflexivity.
    + repeat constructor.
Defined.

(** ** The backbone transform *)

Section Padding.
Context {A : Type}.
Implicit Types (l : list A) (fill : A).
#[local] Open Scope nat_scope.

(** Padding or cropping to [size] elements. *)
Lemma pad_end_length fill l size :
  length (pad_end fill (Z.of_nat size - Z.of_nat (length l)) l) = size.
Proof.
  unfold pad_end. destruct (Z.ltb_spec (Z.of_nat size - Z.of_nat (length l)) 0).
  - rewrite length_take. lia.
  - rewrite length_app, length_replicate. lia.
Qed.

Lemma pad_end_lookup_lt fill l size i :
  i < length l -> i < size ->
  pad_end fill (Z.of_nat size - Z.of_nat (length l)) l !! i = l !! i.
Proof.
  intros Hi Hs. unfold pad_end.
  destruct (Z.ltb_spec (Z.of_nat size - Z.of_nat (length l)) 0).
  - apply lookup_take_lt. lia.
  - by apply lookup_app_l.
Qed.

Lemma pad_end_lookup_ge fill l size i :
  length l <= i -> i < size ->
  pad_end fill (Z.of_nat size - Z.of_nat (length l)) l !! i = Some fill.
Proof.
  intros Hi Hs. unfold pad_end.
  destruct (Z.ltb_spec (Z.of_nat size - Z.of_nat (length l)) 0); [lia|].
  rewrite lookup_app_r by done. apply lookup_replicate_2. lia.
Qed.

End Padding.

Section Channelwise.
Context {A B D : Type} (op : A -> B -> D).
#[local] Open Scope nat_scope.

Lemma channelwise_same_length (x : list (list (list A))) (v : list B) :
  length x = length v ->
  channelwise op x v = Ok (zip_with (fun ch m => map (map (fun a => op a m)) ch) x v).
Proof. intros H. unfold channelwise. by rewrite H, Nat.eqb_refl. Qed.

Lemma zip_channels_shape (x : list (list (list A))) (v : list B) c h w :
  has_shape x c h w -> length v = c ->
  has_shape (zip_with (fun ch m => map (map (fun a => op a m)) ch) x v) c h w.
Proof.
  intros [Hc Hx] Hv. split.
  - rewrite length_zip_with. lia.
  - clear Hc Hv. revert v. induction Hx as [|ch x [Hh Hrows] _ IH]; intros [|m v];
      simpl; try constructor; [|apply IH].
    split; [by rewrite length_map|].
    apply Forall_map. eapply Forall_impl; [exact Hrows|].
    intros row Hrow. simpl. by rewrite length_map.
Qed.

Lemma zip_channels_at3 (x : list (list (list A))) (v : list B) c i j a m :
  at3 x c i j = Some a -> v !! c = Some m ->
  at3 (zip_with (fun ch m => map (map (fun a => op a m)) ch) x v) c i j = Some (op a m).
Proof.
  unfold at3, at2. intros Hx Hv. rewrite lookup_zip_with.
  destruct (x !! c) as [ch|]; [|done]. simpl. rewrite Hv. simpl.
  rewrite list_lookup_fmap. destruct (ch !! i) as [row|]; [|done]. simpl.
  rewrite list_lookup_fmap. by rewrite Hx.
Qed.

End Channelwise.

Section Pad.
#[local] Open Scope nat_scope.
Implicit Types (ch : list (list spec_float)) (x : list (list (list spec_float))).

(** One channel of [h] rows of width [w], padded or cropped to [size]
    by [size]; [h'] and [w'] are the sizes that [preprocess] read off
    the tensor. *)
Lemma pad_channel ch h w h' w' size :
  length ch = h -> Forall (fun row => length row = w) ch ->
  h' = h -> (h = 0 \/ w' = w) ->
  let out := pad_end (replicate size F32.zero) (Z.of_nat size - Z.of_nat h')
               (map (pad_end F32.zero (Z.of_nat size - Z.of_nat w')) ch) in
  length out = size /\
  Forall (fun row => length row = size) out /\
  (forall i j, i < size -> j < size -> i < h -> j < w -> at2 out i j = at2 ch i j) /\
  (forall i j, i < size -> j < size -> h <= i \/ w <= j -> at2 out i j = Some F32.zero).
Proof.
  intros Hh Hrows -> Hw out.
  set (ch' := map (pad_end F32.zero (Z.of_nat size - Z.of_nat w')) ch) in *.
  assert (Hh' : length ch' = h) by (unfold ch'; by rewrite length_map).
  assert (Hout : out = pad_end (replicate size F32.zero)
                         (Z.of_nat size - Z.of_nat (length ch')) ch')
    by (by rewrite Hh').
  assert (Hrow : forall i row, i < h -> ch !! i = Some row ->
            length row = w /\
            ch' !! i = Some (pad_end F32.zero (Z.of_nat size - Z.of_nat (length row)) row)).
  { intros i row Hi Hrow. rewrite Forall_lookup in Hrows.
    pose proof (Hrows _ _ Hrow) as Hlen. split; [done|].
    unfold ch'. rewrite list_lookup_fmap, Hrow. simpl.
    destruct Hw as [->| ->]; [lia|by rewrite Hlen]. }
  assert (Hlow : forall i, i < size -> i < h -> out !! i = ch' !! i).
  { intros i ??. rewrite Hout. apply pad_end_lookup_lt; lia. }
  assert (Hhigh : forall i, i < size -> h <= i -> out !! i = Some (replicate size F32.zero)).
  { intros i ??. rewrite Hout. apply pad_end_lookup_ge; lia. }
  split; [|split; [|split]].
  - rewrite Hout. apply pad_end_length.
  - apply Forall_lookup. intros i row Hi.
    assert (i < size).
    { apply lookup_lt_Some in Hi. rewrite Hout, pad_end_length in Hi. done. }
    destruct (decide (i < h)) as [Hlt|Hge].
    + rewrite Hlow in Hi by done.
      destruct (lookup_lt_is_Some_2 ch i) as [row0 Hrow0]; [lia|].
      destruct (Hrow _ _ Hlt Hrow0) as [_ Hrow']. rewrite Hrow' in Hi.
      injection Hi as <-. apply pad_end_length.
    + rewrite Hhigh in Hi by lia. injection Hi as <-. apply length_replicate.
  - intros i j Hi Hj Hih Hjw. unfold at2. rewrite Hlow by done.
    destruct (lookup_lt_is_Some_2 ch i) as [row0 Hrow0]; [lia|].
    destruct (Hrow _ _ Hih Hrow0) as [Hlen Hrow']. rewrite Hrow', Hrow0.
    apply pad_end_lookup_lt; lia.
  - intros i j Hi Hj Hor. unfold at2.
    destruct (decide (i < h)) as [Hlt|Hge].
    + rewrite Hlow by done.
      destruct (lookup_lt_is_Some_2 ch i) as [row0 Hrow0]; [lia|].
      destruct (Hrow _ _ Hlt Hrow0) as [Hlen Hrow']. rewrite Hrow'.
      apply pad_end_lookup_ge; lia.
    + rewrite Hhigh by lia. apply lookup_replicate_2. lia.
Qed.

(** The sizes that [x.shape[-2:]] reads off the nested lists are those
    of the tensor, wherever they matter. *)
Lemma shape_hw_of_shape x c h w :
  has_shape x c h w -> c ≠ 0 ->
  (shape_hw x).1 = h /\ (h = 0 \/ (shape_hw x).2 = w).
Proof.
  intros [Hc Hx] Hne. destruct x as [|ch x]; [simpl in Hc; lia|].
  apply Forall_cons in Hx as [[Hh Hrows] _]. unfold shape_hw. simpl.
  split; [done|]. destruct ch as [|row ch]; [left; by rewrite <- Hh|].
  right. by apply Forall_cons in Hrows as [? _].
Qed.

(** [F.pad] with the amounts that [preprocess] computes. *)
Lemma F_pad_to_size x c h w size :
  has_shape x c h w ->
  exists out,
    F_pad x (shape_hw x).1 (shape_hw x).2
      (Z.of_nat size - Z.of_nat (shape_hw x).2)
      (Z.of_nat size - Z.of_nat (shape_hw x).1) = Ok out /\
    has_shape out c size size /\
    (forall k i j, i < size -> j < size -> i < h -> j < w -> at3 out k i j = at3 x k i j) /\
    (forall k i j, k < c -> i < size -> j < size -> h <= i \/ w <= j ->
                   at3 out k i j = Some F32.zero).
Proof.
  intros Hshape. pose proof Hshape as [Hc Hx].
  set (h' := (shape_hw x).1). set (w' := (shape_hw x).2).
  unfold F_pad.
  replace (Z.of_nat h' + (Z.of_nat size - Z.of_nat h'))%Z with (Z.of_nat size) by lia.
  replace (Z.of_nat w' + (Z.of_nat size - Z.of_nat w'))%Z with (Z.of_nat size) by lia.
  destruct (Z.ltb_spec (Z.of_nat size) 0); [lia|]. simpl.
  rewrite Nat2Z.id. eexists. split; [reflexivity|].
  assert (Hch : forall k ch, x !! k = Some ch ->
            length ch = h /\ Forall (fun row => length row = w) ch /\
            h' = h /\ (h = 0 \/ w' = w)).
  { intros k ch Hk. rewrite Forall_lookup in Hx. destruct (Hx _ _ Hk) as [? ?].
    destruct (shape_hw_of_shape x c h w Hshape) as [? ?]; [|done].
    apply lookup_lt_Some in Hk. lia. }
  split; [split|split].
  - by rewrite length_map.
  - apply Forall_lookup. intros k och Hk. rewrite list_lookup_fmap in Hk.
    destruct (x !! k) as [ch|] eqn:Hxk; [|done]. injection Hk as <-.
    destruct (Hch _ _ Hxk) as (H1 & H2 & H3 & H4).
    destruct (pad_channel ch h w h' w' size H1 H2 H3 H4) as (? & ? & _). done.
  - intros k i j Hi Hj Hih Hjw. unfold at3. rewrite list_lookup_fmap.
    destruct (x !! k) as [ch|] eqn:Hxk; [|done]. simpl.
    destruct (Hch _ _ Hxk) as (H1 & H2 & H3 & H4).
    destruct (pad_channel ch h w h' w' size H1 H2 H3 H4) as (_ & _ & Hin & _).
    by apply Hin.
  - intros k i j Hk Hi Hj Hor. unfold at3. rewrite list_lookup_fmap.
    destruct (lookup_lt_is_Some_2 x k) as [ch Hxk]; [lia|]. rewrite Hxk. simpl.
    destruct (Hch _ _ Hxk) as (H1 & H2 & H3 & H4).
    destruct (pad_channel ch h w h' w' size H1 H2 H3 H4) as (_ & _ & _ & Hpad).
    by apply Hpad.
Qed.

End Pad.

(** [preprocess] on a tensor of [c] channels with as many means and
    standard deviations, for any target size: the output is a square of
    the target size; inside both the image and the square it holds the
    normalized image, and outside the image it holds zero. *)
Lemma preprocess_to_size (x : tensor3 Z) (mean std : list spec_float) (c h w size : nat) :
  has_shape x c h w -> length mean = c -> length std = c ->
  exists out,
    preprocess x mean std (Z.of_nat size) = Ok out /\
    has_shape out c size size /\
    (forall k i j a m s,
       (i < size)%nat -> (j < size)%nat ->
       at3 x k i j = Some a -> mean !! k = Some m -> std !! k = Some s ->
       at3 out k i j = Some (normalized m s a)) /\
    (forall k i j,
       (k < c)%nat -> (i < size)%nat -> (j < size)%nat -> (h <= i)%nat \/ (w <= j)%nat ->
       at3 out k i j = Some F32.zero).
Proof.
  unfold tensor3 in *.
  intros Hx Hmean Hstd. pose proof Hx as [Hc Hrows]. unfold preprocess.
  rewrite channelwise_same_length by lia.
  set (x1 := zip_with _ x mean).
  assert (Hx1 : has_shape x1 c h w) by (by apply zip_channels_shape).
  rewrite channelwise_same_length by (destruct Hx1; lia).
  set (x2 := zip_with _ x1 std).
  assert (Hx2 : has_shape x2 c h w) by (by apply zip_channels_shape).
  destruct (F_pad_to_size x2 c h w size Hx2) as (out & Hpad & Hout & Hin & Hzero).
  destruct (shape_hw x2) as [h' w'] eqn:Hhw. simpl in Hpad.
  exists out. split; [done|]. split; [done|]. split; [|done].
  intros k i j a m s Hi Hj Ha Hm Hs.
  assert (i < h /\ j < w)%nat as [Hih Hjw].
  { unfold at3, at2 in Ha. destruct (x !! k) as [ch|] eqn:Hk; [|done].
    destruct (ch !! i) as [row|] eqn:Hrow; [|done].
    rewrite Forall_lookup in Hrows. destruct (Hrows _ _ Hk) as [Hh Hwid].
    rewrite Forall_lookup in Hwid. specialize (Hwid _ _ Hrow).
    apply lookup_lt_Some in Hrow, Ha. lia. }
  rewrite Hin by done. unfold x2, normalized.
  apply (zip_channels_at3 F32.div); [|done].
  unfold x1. by apply (zip_channels_at3 (fun a m => F32.sub (F32.of_Z a) m)).
Qed.

Example preprocess_sample_wide :
  exists out,
    preprocess sample_wide pixel_mean pixel_std 2 = Ok out /\
    shape_hw out = (2%nat, 2%nat) /\
    at3 out 0 0 1 = Some (normalized (S754_finite false 16210330 (-17))
                                     (S754_finite false 15307899 (-18)) 20) /\
    at3 out 0 1 0 = Some F32.zero.
Proof. eexists. split; [vm_compute; reflexivity|]. repeat split; vm_compute; reflexivity. Qed.

(** C2. For every image (a uint8 tensor of [c] channels, as many as there
    are means and standard deviations) whose height [h] and width [w] are
    at most the target size, [preprocess] returns a tensor whose spatial
    dimensions are target x target, whose top-left [h] x [w] region holds
    the normalized image, [(x - mean) / std] per channel in binary32, and
    whose remaining region holds zero. *)
Theorem preprocess_pads_to_square
    (x : tensor3 Z) (mean std : list spec_float) (c h w target : nat) :
  has_shape x c h w -> length mean = c -> length std = c ->
  (h <= target)%nat -> (w <= target)%nat ->
  exists out,
    preprocess x mean std (Z.of_nat target) = Ok out /\
    has_shape out c target target /\
    (forall k i j a m s,
       at3 x k i j = Some a -> mean !! k = Some m -> std !! k = Some s ->
       at3 out k i j = Some (F32.div (F32.sub (F32.of_Z a) m) s)) /\
    (forall k i j,
       (k < c)%nat -> (i < target)%nat -> (j < target)%nat ->
       (h <= i)%nat \/ (w <= j)%nat ->
       at3 out k i j = Some F32.zero).
Proof.
  unfold tensor3 in *.
  intros Hx Hmean Hstd Hh Hw.
  destruct (preprocess_to_size x mean std c h w target Hx Hmean Hstd)
    as (out & Hrun & Hshape & Hin & Hzero).
  exists out. split; [done|]. split; [done|]. split; [|done].
  intros k i j a m s Ha Hm Hs.
  assert (i < h /\ j < w)%nat as [Hih Hjw].
  { destruct Hx as [_ Hrows]. unfold at3, at2 in Ha.
    destruct (x !! k) as [ch|] eqn:Hk; [|done].
    destruct (ch !! i) as [row|] eqn:Hrow; [|done].
    rewrite Forall_lookup in Hrows. destruct (Hrows _ _ Hk) as [Hlen Hwid].
    rewrite Forall_lookup in Hwid. specialize (Hwid _ _ Hrow).
    apply lookup_lt_Some in Hrow, Ha. lia. }
  apply Hin; [lia|lia|done..].
Qed.

Lemma preprocess_pads_to_square_witness :
  exists out,
    preprocess sample_wide pixel_mean pixel_std (Z.of_nat 2) = Ok out /\
    has_shape out 3 2 2 /\
    (forall k i j a m s,
       at3 sample_wide k i j = Some a -> pixel_mean !! k = Some m -> pixel_std !! k = Some s ->
       at3 out k i j = Some (F32.div (F32.sub (F32.of_Z a) m) s)) /\
    (forall k i j,
       (k < 3)%nat -> (i < 2)%nat -> (j < 2)%nat -> (1 <= i)%nat \/ (2 <= j)%nat ->
       at3 out k i j = Some F32.zero).
Proof.
  apply (preprocess_pads_to_square sample_wide pixel_mean pixel_std 3 1 2 2).
  - split; [reflexivity|]. repeat constructor.
  - reflexivity.
  - reflexivity.
  - lia.
  - lia.
Defined.

(** C4, as stated, fails: on a tensor of height 2 and a target size of 1
    the padding amount is negative and [preprocess] returns; the output
    has one row, the first row of the normalized image, and the second
    row is gone. *)
Lemma preprocess_negative_padding_crops :
  exists out,
    preprocess sample_tall pixel_mean pixel_std 1 = Ok out /\
    shape_hw sample_tall = (2%nat, 1%nat) /\
    shape_hw out = (1%nat, 1%nat) /\
    at3 out 0 0 0 = Some (normalized (S754_finite false 16210330 (-17))
                                     (S754_finite false 15307899 (-18)) 1) /\
    at3 out 0 1 0 = None.
Proof. eexists. split; [vm_compute; reflexivity|]. repeat split; vm_compute; reflexivity. Qed.

(** C4, amended. For every image whose height or width exceeds the target
    size, [preprocess] does not fail: the negative padding amount removes
    rows from the bottom or columns from the right, and the output is a
    square of the target size that holds the top-left part of the
    normalized image, and zero where the image is shorter or narrower
    than the target. *)
Theorem preprocess_crops_to_square
    (x : tensor3 Z) (mean std : list spec_float) (c h w target : nat) :
  has_shape x c h w -> length mean = c -> length std = c ->
  (target < h)%nat \/ (target < w)%nat ->
  exists out,
    preprocess x mean std (Z.of_nat target) = Ok out /\
    has_shape out c target target /\
    (forall k i j a m s,
       (i < target)%nat -> (j < target)%nat ->
       at3 x k i j = Some a -> mean !! k = Some m -> std !! k = Some s ->
       at3 out k i j = Some (F32.div (F32.sub (F32.of_Z a) m) s)) /\
    (forall k i j,
       (k < c)%nat -> (i < target)%nat -> (j < target)%nat ->
       (h <= i)%nat \/ (w <= j)%nat ->
       at3 out k i j = Some F32.zero).
Proof.
  intros Hx Hmean Hstd _. by apply preprocess_to_size.
Qed.

Lemma preprocess_crops_to_square_witness :
  exists out,
    preprocess sample_tall pixel_mean pixel_std (Z.of_nat 1) = Ok out /\
    has_shape out 3 1 1 /\
    (forall k i j a m s,
       (i < 1)%nat -> (j < 1)%nat ->
       at3 sample_tall k i j = Some a -> pixel_mean !! k = Some m -> pixel_std !! k = Some s ->
       at3 out k i j = Some (F32.div (F32.sub (F32.of_Z a) m) s)) /\
    (forall k i j,
       (k < 3)%nat -> (i < 1)%nat -> (j < 1)%nat -> (2 <= i)%nat \/ (1 <= j)%nat ->
       at3 out k i j = Some F32.zero).
Proof.
  apply (preprocess_crops_to_square sample_tall pixel_mean pixel_std 3 2 1 1).
  - split; [reflexivity|]. repeat constructor.
  - reflexivity.
  - reflexivity.
  - left. lia.
Defined.

(** A negative target size is the one case in which [F.pad] raises. *)
Lemma preprocess_negative_size_raises (x : tensor3 Z) (mean std : list spec_float) (img_size : Z) :
  length x = length mean -> length x = length std -> (img_size < 0)%Z ->
  exists e, preprocess x mean std img_size = Raise e /\ exc_class e = "RuntimeError".
Proof.
  intros Hm Hs Hneg. unfold preprocess.
  rewrite channelwise_same_length by done.
  rewrite channelwise_same_length by (rewrite length_zip_with; lia).
  destruct (shape_hw _) as [h w]. unfold F_pad.
  replace (Z.of_nat h + (img_size - Z.of_nat h))%Z with img_size by lia.
  destruct (Z.ltb_spec img_size 0); [|lia]. simpl. by eexists.
Qed.

(** ** The prompt table *)

Lemma Prompts_keys : dom Prompts = ({[ 1; 2; 3; 4 ]} : gset Z).
Proof. reflexivity. Qed.

Example lookup_prompt_3 : lookup_prompt 3 = Ok PROMPT3.
Proof. reflexivity. Qed.

(** C3, as stated, fails: at the unknown key 5 the lookup raises, but what
    it raises is Python's [KeyError], not a [ConfigurationError]. *)
Lemma lookup_prompt_unknown_not_ConfigurationError :
  lookup_prompt 5 = Raise (KeyError 5) /\
  ~ (exists e, lookup_prompt 5 = Raise e /\ exc_class e = "ConfigurationError").
Proof.
  split; [reflexivity|]. intros (e & He & Hclass).
  assert (e = KeyError 5) as -> by (vm_compute in He; congruence).
  discriminate Hclass.
Qed.

(** C3, amended. For every prompt id that is not a key of [Prompts] (the
    keys are 1, 2, 3 and 4), resolving the instruction text raises
    [KeyError] with that id. *)
Theorem lookup_prompt_unknown_raises_KeyError (prompt_number : Z) :
  prompt_number ∉ dom Prompts ->
  dom Prompts = ({[ 1; 2; 3; 4 ]} : gset Z) /\
  lookup_prompt prompt_number = Raise (KeyError prompt_number) /\
  exc_class (KeyError prompt_number) = "KeyError".
Proof.
  intros Hk. split; [apply Prompts_keys|]. split; [|reflexivity].
  apply not_elem_of_dom in Hk. unfold lookup_prompt. by rewrite Hk.
Qed.

Lemma lookup_prompt_unknown_raises_KeyError_witness :
  dom Prompts = ({[ 1; 2; 3; 4 ]} : gset Z) /\
  lookup_prompt 5 = Raise (KeyError 5) /\
  exc_class (KeyError 5) = "KeyError".
Proof.
  apply (lookup_prompt_unknown_raises_KeyError 5).
  apply not_elem_of_dom. reflexivity.
Defined.

(** [main] resolves the prompt right after discovery: with an unknown id
    it raises before the first pair, having printed one line. *)
Lemma main_loop_unknown_prompt (C : Collaborators) (args : Args)
    (w : world (model_state C)) (pairs : list pair) :
  collect_pairs (w_fs w) (folder_path args) = Ok pairs ->
  prompt_number args ∉ dom Prompts ->
  main_loop C args w =
    (Raise (KeyError (prompt_number args)),
     World (w_fs w)
       (w_trace w ++ [Printed ("Total pairs collected: " +:+ repr_pairs C pairs)])
       (w_model w)).
Proof.
  intros Hpairs Hk. apply not_elem_of_dom in Hk.
  unfold main_loop, se_bind, discover, se_lift, print, se_modify, lookup_prompt.
  rewrite Hpairs. simpl. by rewrite Hk.
Qed.

(** ** The binary mask raster *)

Lemma gray_value (v : spec_float) :
  u8_mul (bool_to_u8 (gt0 v)) 255 = if gt0 v then 255 else 0.
Proof. by destruct (gt0 v). Qed.

Lemma at2_map {A B} (f : A -> B) (m : list (list A)) i j :
  at2 (map (map f) m) i j = f <$> at2 m i j.
Proof.
  unfold at2. rewrite list_lookup_fmap. destruct (m !! i) as [row|]; [|done].
  simpl. by rewrite list_lookup_fmap.
Qed.

Lemma shape2_map {A B} (f : A -> B) (m : list (list A)) :
  shape2 (map (map f) m) = shape2 m.
Proof. unfold shape2. rewrite length_map. destruct m; simpl; [done|]. by rewrite length_map. Qed.

Lemma empty2_map {A B} (f : A -> B) (m : list (list A)) :
  empty2 (map (map f) m) = empty2 m.
Proof. unfold empty2. by rewrite shape2_map. Qed.

Example gt0_samples :
  gt0 (S754_finite false 1 0) = true /\ gt0 (S754_zero false) = false /\
  gt0 (S754_zero true) = false /\ gt0 (S754_finite true 1 0) = false /\
  gt0 S754_nan = false /\ gt0 (S754_infinity false) = true.
Proof. repeat split; reflexivity. Qed.

(** [v > 0] holds for the positive finite numbers and for plus infinity;
    not for the zeros, the negative numbers and NaN. *)
Lemma gt0_spec (v : spec_float) :
  gt0 v = true <-> v = S754_infinity false \/ exists m e, v = S754_finite false m e.
Proof.
  destruct v as [s|s| |s m e]; try destruct s; simpl; split;
    try done; try (by intros [|( ? & ? & ?)]); eauto.
Qed.

(** C5. For every predicted mask that is not empty, with first slice
    [first], the binary mask raster has the shape of [first], holds 255
    exactly where the predicted value is greater than 0 and 0 everywhere
    else, so only the values 0 and 255; and it is the raster that the
    mask loop writes to the mask path of that index. *)
Theorem gray_mask_is_0_or_255
    (MS : Type) (prompt_number : Z) (parent_dir base_name : string) (image_np : image)
    (i : nat) (first : list (list spec_float)) (rest : tensor3 spec_float) (w : world MS) :
  empty2 first = false ->
  let gray_mask := gray_mask_of (binarize first) in
  shape2 gray_mask = shape2 first /\
  (forall r c v, at2 first r c = Some v ->
     at2 gray_mask r c = Some (if gt0 v then 255 else 0)) /\
  (forall r c g, at2 gray_mask r c = Some g -> g = 0 \/ g = 255) /\
  (forall r c, at2 gray_mask r c = Some 255 <-> exists v, at2 first r c = Some v /\ gt0 v = true) /\
  exists more,
    w_trace (mask_body prompt_number parent_dir base_name image_np (i, first :: rest) w).2 =
    w_trace w ++
      Wrote (mask_path parent_dir base_name i prompt_number) (Gray gray_mask) :: more.
Proof.
  intros Hne gray_mask.
  assert (Hat : forall r c, at2 gray_mask r c =
                  (fun v => if gt0 v then 255 else 0) <$> at2 first r c).
  { intros r c. unfold gray_mask, gray_mask_of, binarize.
    rewrite !at2_map. destruct (at2 first r c) as [v|]; [|done].
    simpl. by rewrite gray_value. }
  split; [|split; [|split; [|split]]].
  - unfold gray_mask, gray_mask_of, binarize. by rewrite !shape2_map.
  - intros r c v Hv. by rewrite Hat, Hv.
  - intros r c g. rewrite Hat. destruct (at2 first r c) as [v|]; [|done].
    simpl. intros [= <-]. destruct (gt0 v); auto.
  - intros r c. rewrite Hat. destruct (at2 first r c) as [v|]; simpl.
    + split.
      * intros [= Hv]. exists v. split; [done|]. by destruct (gt0 v).
      * intros (v' & [= <-] & ->). done.
    + split; [done|]. by intros (v' & ? & _).
  - unfold mask_body. fold gray_mask. unfold se_bind at 1.
    assert (Hwrite : forall p : string,
              imwrite p (Gray gray_mask) w =
              (Ok tt, World (write_file (w_fs w) p (Gray gray_mask))
                            (w_trace w ++ [Wrote p (Gray gray_mask)]) (w_model w))).
    { intros p. unfold imwrite. simpl.
      unfold gray_mask, gray_mask_of, binarize. rewrite !empty2_map, Hne. done. }
    rewrite Hwrite.
    set (w1 := World _ _ _).
    set (k := se_bind _ _).
    assert (Hgrow : exists more', w_trace (k w1).2 = w_trace w1 ++ more').
    { unfold k, se_bind, print, se_modify, se_lift. simpl.
      destruct (overlay image_np (binarize first)) as [save_img|e]; simpl.
      - unfold imwrite. destruct (raster_empty _); simpl;
          eexists; rewrite <- ?app_assoc; reflexivity.
      - by eexists. }
    destruct Hgrow as [more' Hmore]. exists more'.
    rewrite Hmore. unfold w1. simpl. by rewrite <- app_assoc.
Qed.

Lemma gray_mask_is_0_or_255_witness :
  gray_mask_of (binarize [[S754_finite false 1 0; S754_zero false]]) = [[255; 0]] /\
  exists more,
    w_trace (mask_body 3 "/d/labels/c1/t1" "f" sample_image (1%nat, sample_mask) sample_world).2 =
    w_trace sample_world ++
      Wrote (mask_path "/d/labels/c1/t1" "f" 1 3)
            (Gray (gray_mask_of (binarize [[S754_finite false 1 0; S754_zero false]]))) :: more.
Proof.
  split; [reflexivity|].
  apply (gray_mask_is_0_or_255 nat 3 "/d/labels/c1/t1" "f" sample_image 1
           [[S754_finite false 1 0; S754_zero false]] [] sample_world).
  reflexivity.
Defined.

(** ** The overlay raster *)

Lemma at2_zip_with {A B D} (f : A -> B -> D) (a : list (list A)) (b : list (list B)) i j x y :
  at2 a i j = Some x -> at2 b i j = Some y ->
  at2 (zip_with (zip_with f) a b) i j = Some (f x y).
Proof.
  unfold at2. intros Ha Hb. rewrite lookup_zip_with.
  destruct (a !! i) as [ra|]; [|done]. destruct (b !! i) as [rb|]; [|done]. simpl.
  rewrite lookup_zip_with, Ha. simpl. by rewrite Hb.
Qed.

Lemma overlay_same_shape (image_np : image) (pred_mask : list (list bool)) :
  shape2 pred_mask = shape2 image_np ->
  overlay image_np pred_mask =
    Ok (zip_with (zip_with (fun (p : Z * Z * Z) (m : bool) => if m then blend_pixel p m else p))
          image_np pred_mask).
Proof.
  intros Hshape. unfold overlay. rewrite Hshape.
  destruct (shape2 image_np) as [h w]. by rewrite !Nat.eqb_refl.
Qed.

(** The blend of a channel with the highlight colour, stored as uint8. *)
Lemma blend_channel_value (v colour : Z) :
  0 <= v < 256 -> 0 <= colour < 256 ->
  to_u8 (blend_channel v true colour) = (v + colour) / 2.
Proof.
  intros Hv Hc. unfold to_u8, Qtrunc.
  assert (Hn : Qnum (blend_channel v true colour) = 2 * (v + colour)).
  { unfold blend_channel, bool_to_u8. simpl. destruct colour; lia. }
  assert (Hd : Z.pos (Qden (blend_channel v true colour)) = 2 * 2) by reflexivity.
  rewrite Hn, Hd, Z.quot_div_nonneg by lia.
  rewrite Z.div_mul_cancel_l by lia.
  apply Z.mod_small. split.
  - apply Z.div_pos; lia.
  - apply Z.div_lt_upper_bound; lia.
Qed.

Lemma blend_pixel_value (r g b : Z) :
  0 <= r < 256 -> 0 <= g < 256 -> 0 <= b < 256 ->
  blend_pixel (r, g, b) true = ((r + 255) / 2, g / 2, b / 2).
Proof.
  intros Hr Hg Hb. unfold blend_pixel.
  rewrite !blend_channel_value by lia. by rewrite !Z.add_0_r.
Qed.

Lemma swap_rb_involutive (p : Z * Z * Z) : swap_rb (swap_rb p) = p.
Proof. by destruct p as [[a b] c]. Qed.

Example overlay_sample :
  overlay sample_image [[true; false]] = Ok [[(132, 10, 15); (200, 100, 50)]].
Proof. reflexivity. Qed.





(** A mask of another shape makes the overlay raise. *)
Lemma overlay_other_shape (image_np : image) (pred_mask : list (list bool)) :
  shape2 pred_mask ≠ shape2 image_np ->
  exists e, overlay image_np pred_mask = Raise e.
Proof.
  intros Hne. unfold overlay.
  destruct (shape2 image_np) as [h w], (shape2 pred_mask) as [mh mw].
  destruct (Nat.eqb_spec h mh) as [->|]; [destruct (Nat.eqb_spec w mw) as [->|]|];
    [done|simpl..]; destruct (_ && _); by eexists.
Qed.

(** ** The mask loop *)

Lemma shape2_zip_with {A B D} (f : A -> B -> D) (a : list (list A)) (b : list (list B)) :
  shape2 b = shape2 a -> shape2 (zip_with (zip_with f) a b) = shape2 a.
Proof.
  unfold shape2. intros [= Hlen Hhd]. rewrite length_zip_with.
  destruct a as [|ra a], b as [|rb b]; simpl in *; try done.
  rewrite length_zip_with. f_equal; lia.
Qed.

Lemma writes_of_app (a b : list event) : writes_of (a ++ b) = writes_of a ++ writes_of b.
Proof. apply omap_app. Qed.

Lemma apply_writes_app fs (a b : list (string * raster)) :
  apply_writes fs (a ++ b) = apply_writes (apply_writes fs a) b.
Proof. apply foldl_app. Qed.

(** The writes of one iteration: none for a mask of zero rows, and for any
    other mask exactly two, the binary mask and the overlay, named after
    the index of the mask. *)
Lemma mask_events_writes prompt_number parent_dir base_name image_np i pred_mask :
  writes_of (mask_events prompt_number parent_dir base_name image_np i pred_mask) =
  match pred_mask with
  | [] => []
  | first :: _ =>
      [ (mask_path parent_dir base_name i prompt_number,
         Gray (gray_mask_of (binarize first)));
        (masked_img_path parent_dir base_name i prompt_number,
         Color (cvtColor
           (zip_with (zip_with (fun (p : Z * Z * Z) (b : bool) =>
                                  if b then blend_pixel p b else p))
              image_np (binarize first)))) ]
  end.
Proof. by destruct pred_mask. Qed.

Section MaskLoop.
Context {MS : Type}.
Variables (prompt_number : Z) (parent_dir base_name : string) (image_np : image).
Hypothesis Himage : empty2 image_np = false.

Lemma world_after_nil (w : world MS) : world_after w [] = w.
Proof. destruct w. unfold world_after. simpl. by rewrite app_nil_r. Qed.

Lemma world_after_app (w : world MS) a b :
  world_after (world_after w a) b = world_after w (a ++ b).
Proof.
  unfold world_after. simpl. by rewrite writes_of_app, apply_writes_app, app_assoc.
Qed.

(** One iteration of the loop performs the events of its mask. *)
Lemma mask_body_run i pred_mask (w : world MS) :
  mask_fits image_np pred_mask ->
  mask_body prompt_number parent_dir base_name image_np (i, pred_mask) w =
  (Ok tt, world_after w (mask_events prompt_number parent_dir base_name image_np i pred_mask)).
Proof using Himage.
  destruct pred_mask as [|first rest]; intros Hfit.
  - simpl. by rewrite world_after_nil.
  - simpl in Hfit. unfold mask_body, mask_events.
    assert (Hm : shape2 (binarize first) = shape2 image_np)
      by (unfold binarize; by rewrite shape2_map).
    rewrite (overlay_same_shape _ _ Hm).
    unfold se_bind, imwrite, print, se_modify, se_lift. simpl.
    assert (Hg : empty2 (gray_mask_of (binarize first)) = false).
    { unfold gray_mask_of, empty2. rewrite shape2_map, Hm. exact Himage. }
    rewrite Hg. simpl.
    assert (Hc : empty2 (cvtColor
              (zip_with (zip_with (fun (p : Z * Z * Z) (m : bool) =>
                                     if m then blend_pixel p m else p))
                 image_np (binarize first))) = false).
    { unfold cvtColor, empty2. rewrite shape2_map, shape2_zip_with by done. exact Himage. }
    rewrite Hc. unfold world_after. simpl. by rewrite <- !app_assoc.
Qed.

(** The loop over the masks from index [k] on. *)
Lemma mask_loop_run pred_masks k (w : world MS) :
  Forall (mask_fits image_np) pred_masks ->
  for_each (imap (fun i m => ((k + i)%nat, m)) pred_masks)
    (mask_body prompt_number parent_dir base_name image_np) w =
  (Ok tt,
   world_after w (concat (imap (fun i m =>
      mask_events prompt_number parent_dir base_name image_np (k + i) m) pred_masks))).
Proof using Himage.
  revert k w. induction pred_masks as [|m l IH]; intros k w Hall.
  - simpl. by rewrite world_after_nil.
  - apply Forall_cons in Hall as [Hm Hl].
    rewrite !imap_cons, for_each_cons, Nat.add_0_r, mask_body_run by done.
    rewrite (imap_ext _ (fun i m => ((S k + i)%nat, m))) by (intros; simpl; f_equal; lia).
    rewrite IH by done. rewrite world_after_app. do 2 f_equal.
    simpl. f_equal. f_equal. apply imap_ext. intros. simpl. f_equal. lia.
Qed.

End MaskLoop.

(** For masks that fit a non-empty image, [save_masks] returns, and what
    it printed and wrote is, mask by mask and in the order of the list,
    the events of each mask at its position in the list: a mask of zero
    rows contributes nothing and does not shift the indices after it. *)
Lemma save_masks_run {MS} (prompt_number : Z) (lbl_path : string) (image_np : image)
    (pred_masks : list (tensor3 spec_float)) (w : world MS) :
  empty2 image_np = false ->
  Forall (mask_fits image_np) pred_masks ->
  let evs := concat (imap (mask_events prompt_number (parent_dir_of lbl_path)
                             (base_name_of lbl_path) image_np) pred_masks) in
  save_masks prompt_number lbl_path image_np pred_masks w =
  (Ok tt, World (apply_writes (w_fs w) (writes_of evs)) (w_trace w ++ evs) (w_model w)).
Proof.
  intros Himage Hfit evs. unfold save_masks, enumerate.
  apply (mask_loop_run prompt_number _ _ image_np Himage pred_masks 0 w Hfit).
Qed.

(** The writes of [save_masks] at the position of one mask. *)
Lemma save_masks_writes_at prompt_number lbl_path image_np
    (pred_masks : list (tensor3 spec_float)) i pred_mask :
  pred_masks !! i = Some pred_mask ->
  imap (fun i m => writes_of (mask_events prompt_number (parent_dir_of lbl_path)
                                (base_name_of lbl_path) image_np i m)) pred_masks !! i =
  Some match pred_mask with
       | [] => []
       | first :: _ =>
           [ (mask_path (parent_dir_of lbl_path) (base_name_of lbl_path) i prompt_number,
              Gray (gray_mask_of (binarize first)));
             (masked_img_path (parent_dir_of lbl_path) (base_name_of lbl_path) i prompt_number,
              Color (cvtColor
                (zip_with (zip_with (fun (p : Z * Z * Z) (b : bool) =>
                                       if b then blend_pixel p b else p))
                   image_np (binarize first)))) ]
       end.
Proof.
  unfold tensor3 in *. intros Hi. rewrite list_lookup_imap, Hi. simpl.
  by rewrite mask_events_writes.
Qed.

(** ** The output directory and the base name *)

Module SplitFacts.
Import Str StrFacts.
#[local] Arguments String.append !s1 s2 : simpl nomatch.

Lemma split_nonempty c s : split c s ≠ [].
Proof.
  destruct s as [|a s]; simpl; [done|].
  destruct (Ascii.eqb a c); [done|]. by destruct (split c s).
Qed.

(** A string without the separator is one segment. *)
Lemma split_absent c s : contains (String c "") s = false -> split c s = [s].
Proof.
  induction s as [|a s IH]; [done|]. intros H.
  pose proof (contains_false_startswith _ _ H) as Hs.
  pose proof (contains_false_tail _ _ _ H) as Ht.
  simpl in Hs. rewrite Ascii.eqb_sym in Hs. simpl.
  destruct (Ascii.eqb a c); [done|]. by rewrite IH.
Qed.

(** Splitting at a separator splits the segment lists. *)
Lemma split_app_sep c a b : split c (a +:+ String c b) = split c a ++ split c b.
Proof.
  induction a as [|x a IH]; simpl.
  - by rewrite Ascii.eqb_refl.
  - destruct (Ascii.eqb x c); rewrite IH; [done|].
    pose proof (split_nonempty c a). by destruct (split c a).
Qed.

Lemma join_split c s : join (String c "") (split c s) = s.
Proof.
  induction s as [|x s IH]; [done|]. simpl.
  pose proof (split_nonempty c s) as Hne.
  destruct (Ascii.eqb_spec x c) as [->|_].
  - destruct (split c s) as [|h t]; [done|]. simpl in *. by rewrite IH.
  - destruct (split c s) as [|h [|h' t]]; [done|simpl in *; by rewrite IH|].
    simpl in *. by rewrite IH.
Qed.

Lemma first_seg_app (l k : list string) : l ≠ [] -> first_seg (l ++ k) = first_seg l.
Proof. by destruct l. Qed.

Lemma last_seg_snoc (l : list string) s : last_seg (l ++ [s]) = s.
Proof. apply last_last. Qed.

End SplitFacts.

(** For a label [dir/name] the output directory is [dir]. *)
Lemma parent_dir_of_join (dir name : string) :
  Str.contains "/" name = false ->
  parent_dir_of (dir +:+ "/" +:+ name) = dir.
Proof.
  intros Hname. unfold parent_dir_of.
  change (dir +:+ "/" +:+ name) with (dir +:+ String "/" name).
  rewrite SplitFacts.split_app_sep, (SplitFacts.split_absent _ name Hname).
  rewrite removelast_last. apply SplitFacts.join_split.
Qed.

(** For a label [dir/stem.rest] the base name is [stem], whatever dots
    [rest] has: the base name ends at the first dot of the file name. *)
Lemma base_name_of_first_dot (dir stem rest : string) :
  Str.contains "/" stem = false -> Str.contains "/" rest = false ->
  Str.contains "." stem = false ->
  base_name_of (dir +:+ "/" +:+ stem +:+ "." +:+ rest) = stem.
Proof.
  intros Hs Hr Hdot. unfold base_name_of.
  change (dir +:+ "/" +:+ stem +:+ "." +:+ rest)
    with (dir +:+ String "/" (stem +:+ String "." rest)).
  rewrite SplitFacts.split_app_sep.
  assert (Hfile : Str.split "/" (stem +:+ String "." rest) = [stem +:+ String "." rest]).
  { apply SplitFacts.split_absent.
    destruct (Str.contains "/" (stem +:+ String "." rest)) eqn:Hc; [exfalso|done].
    destruct (ReplaceFacts.first_occurrence "/" _ ltac:(done) Hc) as (a & b & Heq & _).
    clear Hc. revert a Heq. induction stem as [|x stem IH]; intros a Heq.
    - simpl in Heq. destruct a as [|y a]; [done|].
      injection Heq as <- Heq.
      assert (Str.contains "/" (a +:+ "/" +:+ b) = true) as Hin.
      { clear. induction a as [|z a IHa]; [done|]. simpl. rewrite IHa. apply orb_true_r. }
      rewrite <- Heq in Hin. congruence.
    - destruct a as [|y a].
      + injection Heq as -> _. done.
      + injection Heq as <- Heq. apply (IH (StrFacts.contains_false_tail _ _ _ Hs)
                                          (StrFacts.contains_false_tail _ _ _ Hdot) a Heq). }
  rewrite Hfile, SplitFacts.last_seg_snoc, SplitFacts.split_app_sep.
  rewrite (SplitFacts.split_absent _ stem Hdot). reflexivity.
Qed.

Example base_name_samples :
  base_name_of "/d/labels/c1/t1/f.png" = "f" /\
  spec_base_name "/d/labels/c1/t1/f.png" = "f" /\
  parent_dir_of "/d/labels/c1/t1/f.png" = "/d/labels/c1/t1".
Proof. repeat split; reflexivity. Qed.

Example save_masks_sample :
  save_masks 3 "/d/labels/c1/t1/f.png" sample_image [ []; sample_mask ] sample_world =
  (Ok tt,
   world_after sample_world
     [ Wrote "/d/labels/c1/t1/f_LISA_mask_1_prompt3.png" (Gray [[255; 0]]);
       Printed "/d/labels/c1/t1/f_LISA_mask_1_prompt3.png has been saved.";
       Wrote "/d/labels/c1/t1/f_LISA_masked_img_1_prompt3.png"
             (Color [[(15, 10, 132); (50, 100, 200)]]);
       Printed "/d/labels/c1/t1/f_LISA_masked_img_1_prompt3.png has been saved." ]).
Proof. reflexivity. Qed.

(** C1, at a label whose file name has two dots. The two rasters of the
    mask at position 1 are written into the directory of the label, named
    after that position, and nothing is written for the empty mask at
    position 0; but the base name in the two file names is [f], the file
    name up to its first dot, where the label's file name without its
    extension is [f.v2].  The labels [f.v1.png] and [f.v2.png] of one
    directory get the same two file names. *)
Theorem save_masks_base_name_stops_at_first_dot :
  let lbl_path := "/d/labels/c1/t1/f.v2.png" in
  spec_base_name lbl_path = "f.v2" /\
  base_name_of lbl_path = "f" /\
  parent_dir_of lbl_path = "/d/labels/c1/t1" /\
  writes_of (w_trace (save_masks 3 lbl_path sample_image [ []; sample_mask ] sample_world).2) =
    [ ("/d/labels/c1/t1/f_LISA_mask_1_prompt3.png", Gray [[255; 0]]);
      ("/d/labels/c1/t1/f_LISA_masked_img_1_prompt3.png",
       Color [[(15, 10, 132); (50, 100, 200)]]) ] /\
  writes_of (w_trace (save_masks 3 "/d/labels/c1/t1/f.v1.png" sample_image
                        [ []; sample_mask ] sample_world).2) =
  writes_of (w_trace (save_masks 3 lbl_path sample_image [ []; sample_mask ] sample_world).2).
Proof. repeat split; reflexivity. Qed.

(** ** The loop over the pairs *)

(** An iteration on a pair whose image does not exist prints two lines
    and returns; nothing is read, no model is called, nothing is
    written. *)
Lemma pair_body_missing_image (C : Collaborators) (args : Args)
    (img_path lbl_path text : string) (w : world (model_state C)) :
  lookup_prompt (prompt_number args) = Ok text ->
  Os.path_exists (w_fs w) img_path = false ->
  pair_body C args (img_path, lbl_path) w =
  (Ok tt,
   World (w_fs w)
     (w_trace w ++ [ Printed ("Processing image: " +:+ img_path +:+ " " +:+ lbl_path);
                     Printed ("File not found in " +:+ img_path) ])
     (w_model w)).
Proof.
  intros Hprompt Hmissing.
  unfold pair_body, se_bind, print, se_modify, se_lift, se_get. simpl.
  rewrite Hprompt, Hmissing. simpl. by rewrite <- app_assoc.
Qed.

(** C8. For every pair in the list whose image path does not exist when
    its turn comes (the pairs before it were processed without an
    exception and left the world [w1]): the loop prints the line that
    names the missing file, leaves the file system and the model
    untouched, raises nothing, and goes on with the pairs after it. *)
Theorem missing_image_is_skipped (C : Collaborators) (args : Args)
    (before after : list pair) (img_path lbl_path text : string)
    (w w1 : world (model_state C)) :
  lookup_prompt (prompt_number args) = Ok text ->
  for_each before (pair_body C args) w = (Ok tt, w1) ->
  Os.path_exists (w_fs w1) img_path = false ->
  for_each (before ++ (img_path, lbl_path) :: after) (pair_body C args) w =
  for_each after (pair_body C args)
    (World (w_fs w1)
       (w_trace w1 ++ [ Printed ("Processing image: " +:+ img_path +:+ " " +:+ lbl_path);
                        Printed ("File not found in " +:+ img_path) ])
       (w_model w1)).
Proof.
  intros Hprompt Hbefore Hmissing.
  rewrite for_each_app, Hbefore, for_each_cons.
  by rewrite (pair_body_missing_image C args img_path lbl_path text w1).
Qed.

Lemma missing_image_is_skipped_witness :
  for_each ([] ++ ("/d/images/c1/t1/gone.jpeg", "/d/labels/c1/t1/gone.png")
               :: [("/d/images/c1/t1/f.jpeg", "/d/labels/c1/t1/f.png")])
    (pair_body sample_collaborators sample_args) sample_world =
  for_each [("/d/images/c1/t1/f.jpeg", "/d/labels/c1/t1/f.png")]
    (pair_body sample_collaborators sample_args)
    (World (w_fs sample_world)
       (w_trace sample_world ++
          [ Printed ("Processing image: " +:+ "/d/images/c1/t1/gone.jpeg" +:+ " " +:+
                     "/d/labels/c1/t1/gone.png");
            Printed ("File not found in " +:+ "/d/images/c1/t1/gone.jpeg") ])
       (w_model sample_world)).
Proof.
  apply (missing_image_is_skipped sample_collaborators sample_args []
           [("/d/images/c1/t1/f.jpeg", "/d/labels/c1/t1/f.png")]
           "/d/images/c1/t1/gone.jpeg" "/d/labels/c1/t1/gone.png" PROMPT3
           sample_world sample_world).
  - reflexivity.
  - reflexivity.
  - reflexivity.
Defined.

(** The whole loop on the sample data: one pair is discovered; the model
    returns an empty mask and a mask of the shape of the image; two files
    are written beside the label, both for index 1. *)
Example main_loop_sample :
  let '(r, w) := main_loop sample_collaborators sample_args sample_world in
  r = Ok tt /\
  writes_of (w_trace w) =
    [ ("/d/labels/c1/t1/f_LISA_mask_1_prompt3.png", Gray [[255; 0]]);
      ("/d/labels/c1/t1/f_LISA_masked_img_1_prompt3.png",
       Color [[(15, 10, 132); (0, 0, 0)]]) ] /\
  w_model w = 1%nat.
Proof. vm_compute. repeat split; reflexivity. Qed.


(** * Further properties of the code *)

(** ** Pair discovery: where the pairs come from *)

Section DiscoveryProvenance.
Variable fs : filesystem.
Variable Q : pair -> Prop.

Lemma frames_keep image_ts label_ts frames acc r acc' :
  (forall frame_file, frame_file ∈ frames ->
     Os.path_exists fs (OsPath.join label_ts (label_file_of frame_file)) = true ->
     Q (OsPath.join image_ts frame_file, OsPath.join label_ts (label_file_of frame_file))) ->
  Forall Q acc ->
  for_each frames (frame_body fs image_ts label_ts) acc = (r, acc') -> Forall Q acc'.
Proof.
  intros HQ. apply (for_each_invariant (Forall Q)).
  intros frame_file s r' s' Hin Hs. unfold frame_body.
  destruct (Os.path_exists fs _) eqn:Hex; cbn; intros [= _ <-]; [|done].
  apply Forall_app. split; [done|]. apply Forall_singleton. by apply HQ.
Qed.

Lemma timestamps_keep image_clip label_clip timestamps acc r acc' :
  (forall timestamp frames frame_file,
     timestamp ∈ timestamps ->
     Os.path_isdir fs (OsPath.join label_clip timestamp) = true ->
     Os.listdir fs (OsPath.join image_clip timestamp) = Ok frames ->
     frame_file ∈ frames ->
     Os.path_exists fs
       (OsPath.join (OsPath.join label_clip timestamp) (label_file_of frame_file)) = true ->
     Q (OsPath.join (OsPath.join image_clip timestamp) frame_file,
        OsPath.join (OsPath.join label_clip timestamp) (label_file_of frame_file))) ->
  Forall Q acc ->
  for_each timestamps (timestamp_body fs image_clip label_clip) acc = (r, acc') ->
  Forall Q acc'.
Proof.
  intros HQ. apply (for_each_invariant (Forall Q)).
  intros timestamp s r' s' Hin Hs. unfold timestamp_body.
  destruct (Os.path_isdir fs _) eqn:Hdir; cbn; [|by intros [= _ <-]].
  unfold se_bind, se_lift. destruct (Os.listdir fs _) as [frames|e] eqn:Hls;
    [|by intros [= _ <-]].
  apply frames_keep; [|done]. intros frame_file ??. by eapply HQ.
Qed.

Lemma clips_keep root dirs acc r acc' :
  (forall clip_id timestamps timestamp frames frame_file,
     clip_id ∈ dirs ->
     Os.listdir fs (image_clip_path_of root clip_id) = Ok timestamps ->
     timestamp ∈ timestamps ->
     Os.path_isdir fs
       (OsPath.join (label_clip_path_of (image_clip_path_of root clip_id)) timestamp) = true ->
     Os.listdir fs (OsPath.join (image_clip_path_of root clip_id) timestamp) = Ok frames ->
     frame_file ∈ frames ->
     Os.path_exists fs
       (OsPath.join (OsPath.join (label_clip_path_of (image_clip_path_of root clip_id)) timestamp)
          (label_file_of frame_file)) = true ->
     Q (OsPath.join (OsPath.join (image_clip_path_of root clip_id) timestamp) frame_file,
        OsPath.join (OsPath.join (label_clip_path_of (image_clip_path_of root clip_id)) timestamp)
          (label_file_of frame_file))) ->
  Forall Q acc ->
  for_each dirs (clip_body fs root) acc = (r, acc') -> Forall Q acc'.
Proof.
  intros HQ. apply (for_each_invariant (Forall Q)).
  intros clip_id s r' s' Hin Hs. unfold clip_body, se_bind, se_lift.
  destruct (Os.listdir fs _) as [timestamps|e] eqn:Hls; [|by intros [= _ <-]].
  apply timestamps_keep; [|done]. intros timestamp frames frame_file ?????. by eapply HQ.
Qed.

End DiscoveryProvenance.

Lemma walk_keeps_provenance fs steps acc r acc' :
  Forall (discovered_from fs steps) acc ->
  for_each steps (walk_body fs) acc = (r, acc') ->
  Forall (discovered_from fs steps) acc'.
Proof.
  apply (for_each_invariant (Forall (discovered_from fs steps))).
  intros [[root dirs] files] s r' s' Hin Hs. unfold walk_body.
  destruct (String.eqb_spec (OsPath.basename root) "images") as [Hbase|_];
    [|by intros [= _ <-]].
  apply clips_keep; [|done].
  intros clip_id timestamps timestamp frames frame_file ???????.
  exists root, dirs, files, clip_id, timestamps, timestamp, frames, frame_file.
  by repeat split.
Qed.

(** X1. A root in whose walk no directory is named [images] yields the
    empty list, and no exception. *)
Theorem collect_pairs_without_images_is_empty (fs : filesystem) (root_dir : string) :
  (forall root dirs files, (root, dirs, files) ∈ fs_walk fs root_dir ->
     OsPath.basename root ≠ "images") ->
  collect_pairs fs root_dir = Ok [].
Proof. apply collect_pairs_no_images. Qed.

Lemma collect_pairs_without_images_is_empty_witness :
  collect_pairs sample_fs_plain "/e" = Ok [].
Proof.
  apply (collect_pairs_without_images_is_empty sample_fs_plain "/e").
  intros root dirs files Hin. apply list_elem_of_In in Hin.
  vm_compute in Hin. destruct Hin as [[= <- _ _]|[[= <- _ _]|[]]]; discriminate.
Defined.

(** X2. Every pair that [collect_pairs] returns comes from a frame it
    enumerated: its image path is a listed file of a timestamp directory
    of a clip under a directory named [images]; the label side of that
    timestamp is a directory; and its label path, the label timestamp
    directory joined with the frame's name after the replacement of
    [.jpeg], exists.  Nothing else gets into the list. *)
Theorem collect_pairs_only_discovered (fs : filesystem) (root_dir : string)
    (pairs : list pair) (p : pair) :
  collect_pairs fs root_dir = Ok pairs ->
  p ∈ pairs ->
  discovered_from fs (fs_walk fs root_dir) p.
Proof.
  unfold collect_pairs.
  destruct (for_each _ _ _) as [[[]|e] acc] eqn:Hrun; [|discriminate].
  intros [= <-] Hin.
  pose proof (walk_keeps_provenance fs _ [] _ _ (Forall_nil_2 _) Hrun) as Hall.
  rewrite Forall_forall in Hall. by apply Hall.
Qed.

Lemma collect_pairs_only_discovered_witness :
  discovered_from sample_fs (fs_walk sample_fs "/d")
    ("/d/images/c1/t1/f.jpeg", "/d/labels/c1/t1/f.png").
Proof.
  apply (collect_pairs_only_discovered sample_fs "/d"
           [("/d/images/c1/t1/f.jpeg", "/d/labels/c1/t1/f.png")]).
  - vm_compute. reflexivity.
  - apply list_elem_of_In. left. reflexivity.
Defined.

(** X3. On a file system whose listings are consistent, both paths of
    every discovered pair exist at discovery time. *)
Theorem collect_pairs_both_paths_exist (fs : filesystem) (root_dir : string)
    (pairs : list pair) (image_path label_path : string) :
  listing_consistent fs ->
  collect_pairs fs root_dir = Ok pairs ->
  (image_path, label_path) ∈ pairs ->
  Os.path_exists fs image_path = true /\ Os.path_exists fs label_path = true.
Proof.
  intros Hcons Hrun Hin. unfold collect_pairs in Hrun.
  destruct (for_each _ _ _) as [[[]|e] acc] eqn:Hloop; [|discriminate].
  injection Hrun as <-.
  pose proof (walk_keeps_provenance fs _ [] _ _ (Forall_nil_2 _) Hloop) as Hall.
  rewrite Forall_forall in Hall.
  destruct (Hall _ Hin) as (root & dirs & files & clip_id & timestamps & timestamp &
    frames & frame_file & _ & _ & _ & _ & _ & _ & Hls & Hframe & Hex & [= -> ->]).
  split; [|done].
  unfold Os.listdir in Hls.
  destruct (fs_entry fs (OsPath.join (image_clip_path_of root clip_id) timestamp))
    as [[names| |]|] eqn:Hentry; try discriminate.
  injection Hls as ->. by eapply Hcons.
Qed.

Lemma collect_pairs_both_paths_exist_witness :
  Os.path_exists sample_fs "/d/images/c1/t1/f.jpeg" = true /\
  Os.path_exists sample_fs "/d/labels/c1/t1/f.png" = true.
Proof.
  apply (collect_pairs_both_paths_exist sample_fs "/d"
           [("/d/images/c1/t1/f.jpeg", "/d/labels/c1/t1/f.png")]).
  - intros dir names name Hentry Hin.
    assert (Hall : map_Forall (fun dir e =>
              match e with
              | Dir names =>
                  forallb (fun name => Os.path_exists sample_fs (OsPath.join dir name)) names = true
              | _ => True
              end) sample_tree).
    { apply map_Forall_to_list. vm_compute. repeat constructor. }
    specialize (Hall dir (Dir names) Hentry). simpl in Hall.
    rewrite forallb_forall in Hall. apply Hall. by apply list_elem_of_In.
  - vm_compute. reflexivity.
  - apply list_elem_of_In. left. reflexivity.
Defined.

(** ** Pair discovery: when it returns *)

(** A loop whose body returns at every element, from any state, returns. *)
Lemma for_each_returns {S X} (body : X -> SE S unit) (l : list X) :
  (forall x, x ∈ l -> forall s, exists s', body x s = (Ok tt, s')) ->
  forall s, exists s', for_each l body s = (Ok tt, s').
Proof.
  induction l as [|x l IH]; intros Hbody s.
  - by exists s.
  - rewrite for_each_cons. destruct (Hbody x (list_elem_of_here _ _) s) as [s1 ->].
    apply IH. intros y Hy. apply Hbody. by right.
Qed.

Lemma collect_pairs_returns_if (fs : filesystem) (root_dir : string) :
  listings_succeed fs root_dir -> exists pairs, collect_pairs fs root_dir = Ok pairs.
Proof.
  intros Hls. unfold collect_pairs.
  destruct (for_each_returns (walk_body fs) (fs_walk fs root_dir)) with (s := @nil pair)
    as [acc ->]; [|by exists acc].
  intros [[root dirs] files] Hstep s. unfold walk_body.
  destruct (String.eqb_spec (OsPath.basename root) "images") as [Hbase|_]; [|by exists s].
  apply for_each_returns. intros clip_id Hclip s1.
  destruct (Hls root dirs files clip_id Hstep Hbase Hclip) as (timestamps & Hts & Hframes).
  unfold clip_body, se_bind, se_lift. rewrite Hts.
  apply for_each_returns. intros timestamp Hin s2. unfold timestamp_body.
  destruct (Os.path_isdir fs _) eqn:Hdir; cbn; [|by exists s2].
  destruct (Hframes timestamp Hin Hdir) as [frames Hfr].
  unfold se_bind, se_lift. rewrite Hfr.
  apply for_each_returns. intros frame_file _ s3. unfold frame_body.
  destruct (Os.path_exists fs _); by eexists.
Qed.

Lemma collect_pairs_returns_only_if (fs : filesystem) (root_dir : string) (pairs : list pair) :
  collect_pairs fs root_dir = Ok pairs -> listings_succeed fs root_dir.
Proof.
  unfold collect_pairs.
  destruct (for_each _ _ _) as [[[]|e] acc] eqn:Hrun; [|discriminate].
  intros _ root dirs files clip_id Hstep Hbase Hclip.
  destruct (appending_loop_elem _ _ _ _ _ Hrun Hstep) as (a1 & a2 & Hwalk & _);
    [intros ????; apply walk_body_grows|].
  unfold walk_body in Hwalk. rewrite Hbase in Hwalk. cbn in Hwalk.
  destruct (appending_loop_elem _ _ _ _ _ Hwalk Hclip) as (b1 & b2 & Hbody & _);
    [intros ????; apply clip_body_grows|].
  unfold clip_body, se_bind, se_lift in Hbody.
  destruct (Os.listdir fs (image_clip_path_of root clip_id)) as [timestamps|e];
    [|discriminate].
  exists timestamps. split; [done|]. intros timestamp Hin Hdir.
  destruct (appending_loop_elem _ _ _ _ _ Hbody Hin) as (c1 & c2 & Hts & _);
    [intros ????; apply timestamp_body_grows|].
  unfold timestamp_body in Hts. rewrite Hdir in Hts. cbn in Hts.
  unfold se_bind, se_lift in Hts.
  destruct (Os.listdir fs _) as [frames|e]; [by exists frames|discriminate].
Qed.

Example collect_pairs_file_timestamp_raises :
  collect_pairs sample_fs_file_timestamp "/b" = Raise (NotADirectoryError "/b/images/c1/notes").
Proof. vm_compute. reflexivity. Qed.

Lemma first_failure_app (fs : filesystem) (a b : list string) :
  first_failure fs (a ++ b) =
  match first_failure fs a with
  | Some e => Some e
  | None => first_failure fs b
  end.
Proof.
  induction a as [|p a IH]; [done|]. simpl.
  by destruct (Os.listdir fs p).
Qed.

(** A loop whose body ends with the first failing listing among its own
    ends with the first failing listing among those of all elements. *)
Lemma for_each_first_failure {S X} (fs : filesystem) (body : X -> SE S unit)
    (paths_of : X -> list string) (l : list X) :
  (forall x, x ∈ l -> forall s,
     exists s', body x s = (outcome_of (first_failure fs (paths_of x)), s')) ->
  forall s,
    exists s', for_each l body s = (outcome_of (first_failure fs (flat_map paths_of l)), s').
Proof.
  induction l as [|x l IH]; intros Hbody s.
  - by exists s.
  - rewrite for_each_cons. simpl. rewrite first_failure_app.
    destruct (Hbody x (list_elem_of_here _ _) s) as [s1 ->].
    destruct (first_failure fs (paths_of x)) as [e|]; simpl; [by exists s1|].
    apply IH. intros y Hy. apply Hbody. by right.
Qed.

Lemma collect_pairs_first_failure (fs : filesystem) (root_dir : string) :
  match first_failure fs (listed_paths fs root_dir) with
  | Some e => collect_pairs fs root_dir = Raise e
  | None => exists pairs, collect_pairs fs root_dir = Ok pairs
  end.
Proof.
  unfold collect_pairs, listed_paths.
  destruct (for_each_first_failure fs (walk_body fs)
              (fun step : string * list string * list string =>
                 let '(root, dirs, _) := step in
                 if String.eqb (OsPath.basename root) "images"
                 then flat_map (clip_listings fs root) dirs else [])
              (fs_walk fs root_dir)) with (s := @nil pair) as [acc ->].
  - intros [[root dirs] files] _ s. unfold walk_body.
    destruct (String.eqb (OsPath.basename root) "images"); [|by exists s].
    apply for_each_first_failure. intros clip_id _ s1.
    unfold clip_body, clip_listings, se_bind, se_lift. simpl.
    destruct (Os.listdir fs (image_clip_path_of root clip_id)) as [timestamps|e];
      [|by exists s1].
    apply for_each_first_failure. intros timestamp _ s2. unfold timestamp_body.
    destruct (Os.path_isdir fs _); cbn; [|by exists s2].
    unfold se_bind, se_lift.
    destruct (Os.listdir fs (OsPath.join (image_clip_path_of root clip_id) timestamp))
      as [frames|e]; [|by exists s2].
    match goal with
    | |- context [for_each frames ?b s2] =>
        destruct (for_each_returns b frames) with (s := s2) as [s3 ->]; [|by exists s3]
    end.
    intros frame_file _ s3. unfold frame_body.
    destruct (Os.path_exists fs _); by eexists.
  - destruct (first_failure fs _) as [e|]; simpl; [done|by exists acc].
Qed.

Example first_failure_sample :
  first_failure sample_fs_file_timestamp (listed_paths sample_fs_file_timestamp "/b") =
    Some (NotADirectoryError "/b/images/c1/notes") /\
  listed_paths sample_fs_file_timestamp "/b" = ["/b/images/c1"; "/b/images/c1/notes"].
Proof. split; vm_compute; reflexivity. Qed.

(** X4. [collect_pairs] returns a list exactly when every directory
    listing it performs succeeds (the listing of each clip, and of each
    timestamp whose label side is a directory); otherwise it raises, and
    what it raises is the exception of the first [os.listdir] that fails,
    in the order of the calls: for each walked directory named [images],
    for each of its clips, the clip and then its timestamps whose label
    side is a directory.  There is no partial result. *)
Theorem collect_pairs_returns_iff_listings_succeed (fs : filesystem) (root_dir : string) :
  ((exists pairs, collect_pairs fs root_dir = Ok pairs) <-> listings_succeed fs root_dir) /\
  ((exists pairs, collect_pairs fs root_dir = Ok pairs) <->
     first_failure fs (listed_paths fs root_dir) = None) /\
  (forall e, collect_pairs fs root_dir = Raise e <->
             first_failure fs (listed_paths fs root_dir) = Some e).
Proof.
  pose proof (collect_pairs_first_failure fs root_dir) as H.
  split; [|split].
  - split.
    + intros [pairs Hrun]. by eapply collect_pairs_returns_only_if.
    + apply collect_pairs_returns_if.
  - destruct (first_failure fs _) as [e|].
    + rewrite H. split; [by intros [pairs ?]|done].
    + done.
  - intros e. destruct (first_failure fs _) as [e'|].
    + rewrite H. split; congruence.
    + destruct H as [pairs ->]. split; discriminate.
Qed.

(** X5. A timestamp entry of a clip that is not a directory on the image
    side, while the label side has a directory of that name, makes
    [collect_pairs] raise: the guard of the loop tests the label side
    only. *)
Theorem collect_pairs_raises_on_file_timestamp
    (fs : filesystem) (root_dir root : string) (dirs files : list string)
    (clip_id : string) (timestamps : list string) (timestamp : string) :
  (root, dirs, files) ∈ fs_walk fs root_dir ->
  OsPath.basename root = "images" ->
  clip_id ∈ dirs ->
  Os.listdir fs (image_clip_path_of root clip_id) = Ok timestamps ->
  timestamp ∈ timestamps ->
  Os.path_isdir fs
    (OsPath.join (label_clip_path_of (image_clip_path_of root clip_id)) timestamp) = true ->
  Os.path_isdir fs (OsPath.join (image_clip_path_of root clip_id) timestamp) = false ->
  exists e, collect_pairs fs root_dir = Raise e.
Proof.
  intros Hstep Hbase Hclip Hts Hin Hdir Hfile.
  destruct (collect_pairs fs root_dir) as [pairs|e] eqn:Hrun; [exfalso|by exists e].
  destruct (collect_pairs_returns_only_if _ _ _ Hrun root dirs files clip_id Hstep Hbase Hclip)
    as (timestamps' & Hts' & Hframes).
  rewrite Hts in Hts'. injection Hts' as <-.
  destruct (Hframes timestamp Hin Hdir) as [frames Hfr].
  unfold Os.listdir in Hfr. unfold Os.path_isdir in Hfile.
  destruct (fs_entry fs _) as [[| |]|]; discriminate.
Qed.

Lemma collect_pairs_raises_on_file_timestamp_witness :
  exists e, collect_pairs sample_fs_file_timestamp "/b" = Raise e.
Proof.
  apply (collect_pairs_raises_on_file_timestamp sample_fs_file_timestamp "/b"
           "/b/images" ["c1"] [] "c1" ["notes"] "notes");
    try (vm_compute; reflexivity);
    try (apply list_elem_of_In; vm_compute; tauto).
Defined.

(** ** Pair discovery: a dataset path without [/images/] *)

(** X6. Where the image clip path does not contain [/images/] (a dataset
    given by the relative path [images], say), the label clip path is the
    image clip path itself, so labels are looked for among the images:
    every enumerated file that exists and whose name is free of [.jpeg]
    is paired with itself. *)
Theorem collect_pairs_pairs_file_with_itself
    (fs : filesystem) (root_dir : string) (pairs : list pair)
    (root : string) (dirs files : list string) (clip_id : string)
    (timestamps : list string) (timestamp : string)
    (frames : list string) (frame_file : string) :
  let image_clip_path := OsPath.join root clip_id in
  let image_ts_path := OsPath.join image_clip_path timestamp in
  let image_path := OsPath.join image_ts_path frame_file in
  collect_pairs fs root_dir = Ok pairs ->
  (root, dirs, files) ∈ fs_walk fs root_dir ->
  OsPath.basename root = "images" ->
  clip_id ∈ dirs ->
  Str.contains "/images/" image_clip_path = false ->
  Os.listdir fs image_clip_path = Ok timestamps ->
  timestamp ∈ timestamps ->
  Os.listdir fs image_ts_path = Ok frames ->
  frame_file ∈ frames ->
  Str.contains ".jpeg" frame_file = false ->
  Os.path_exists fs image_path = true ->
  label_clip_path_of image_clip_path = image_clip_path /\
  (image_path, image_path) ∈ pairs.
Proof.
  intros image_clip_path image_ts_path image_path
    Hrun Hstep Hbase Hclip Hfree Hts Hin Hls Hframe Hjpeg Hex.
  assert (Hlabel : label_clip_path_of image_clip_path = image_clip_path)
    by (by apply ReplaceFacts.replace_go_absent).
  split; [done|].
  unfold collect_pairs in Hrun.
  destruct (for_each _ _ _) as [[[]|e] acc] eqn:Hloop; [|discriminate].
  injection Hrun as <-.
  assert (Hdir : Os.path_isdir fs image_ts_path = true).
  { unfold Os.listdir in Hls. unfold Os.path_isdir.
    destruct (fs_entry fs image_ts_path) as [[| |]|]; done. }
  pose proof (walk_complete fs _ root dirs files clip_id timestamps timestamp frames
                frame_file [] acc Hloop Hstep Hbase Hclip Hts Hin) as Hc.
  unfold image_clip_path_of in Hc. fold image_clip_path in Hc.
  rewrite Hlabel, (label_file_of_other _ Hjpeg) in Hc.
  by apply Hc.
Qed.

Lemma collect_pairs_pairs_file_with_itself_witness :
  label_clip_path_of (OsPath.join "images" "c1") = OsPath.join "images" "c1" /\
  ("images/c1/t1/f.png", "images/c1/t1/f.png") ∈ [("images/c1/t1/f.png", "images/c1/t1/f.png")].
Proof.
  apply (collect_pairs_pairs_file_with_itself sample_fs_relative "images"
           [("images/c1/t1/f.png", "images/c1/t1/f.png")]
           "images" ["c1"] [] "c1" ["t1"] "t1" ["f.png"] "f.png");
    try (vm_compute; reflexivity);
    try (apply list_elem_of_In; vm_compute; tauto).
Defined.

(** ** The backbone transform: failures, broadcasting, and its use in [main] *)

(** X7. For a tensor with as many channels as there are means and
    standard deviations, [preprocess] raises exactly when the target size
    is negative (the padded size would be negative): no other size makes
    the padding step fail, and what is raised is torch's
    [RuntimeError]. *)
Theorem preprocess_raises_iff_negative_size
    (x : tensor3 Z) (mean std : list spec_float) (img_size : Z) :
  length x = length mean -> length x = length std ->
  ((exists e, preprocess x mean std img_size = Raise e) <-> (img_size < 0)%Z) /\
  (forall e, preprocess x mean std img_size = Raise e -> exc_class e = "RuntimeError").
Proof.
  intros Hm Hs. unfold preprocess.
  rewrite channelwise_same_length by done.
  rewrite channelwise_same_length by (rewrite length_zip_with; lia).
  destruct (shape_hw _) as [h w]. unfold F_pad.
  replace (Z.of_nat h + (img_size - Z.of_nat h))%Z with img_size by lia.
  replace (Z.of_nat w + (img_size - Z.of_nat w))%Z with img_size by lia.
  destruct (Z.ltb_spec img_size 0) as [Hneg|Hpos]; simpl.
  - split; [split; [done|by eexists]|]. by intros e [= <-].
  - split; [split; [by intros [e ?]|lia]|]. by intros e.
Qed.

Lemma preprocess_raises_iff_negative_size_witness :
  ((exists e, preprocess sample_wide pixel_mean pixel_std (-1) = Raise e) <-> (-1 < 0)%Z) /\
  (forall e, preprocess sample_wide pixel_mean pixel_std (-1) = Raise e ->
             exc_class e = "RuntimeError").
Proof.
  apply (preprocess_raises_iff_negative_size sample_wide pixel_mean pixel_std (-1)).
  - reflexivity.
  - reflexivity.
Defined.

(** X8. A tensor whose number of channels is neither the number of means
    nor 1, with more than one mean (four channels against the three
    means, say), cannot be broadcast: [preprocess] raises torch's
    [RuntimeError] at the subtraction, whatever the target size. *)
Theorem preprocess_raises_on_channel_mismatch
    (x : tensor3 Z) (mean std : list spec_float) (img_size : Z) :
  length x ≠ length mean -> length x ≠ 1%nat -> length mean ≠ 1%nat ->
  exists e, preprocess x mean std img_size = Raise e /\ exc_class e = "RuntimeError".
Proof.
  intros Hne Hx Hm. unfold preprocess, channelwise.
  destruct (Nat.eqb_spec (length x) (length mean)) as [|_]; [done|].
  destruct mean as [|m [|m' mean]]; destruct x as [|ch [|ch' x]]; simpl in *;
    try done; by eexists.
Qed.

Lemma preprocess_raises_on_channel_mismatch_witness :
  exists e, preprocess sample_rgba pixel_mean pixel_std 1024 = Raise e /\
            exc_class e = "RuntimeError".
Proof.
  apply (preprocess_raises_on_channel_mismatch sample_rgba pixel_mean pixel_std 1024).
  - simpl. lia.
  - simpl. lia.
  - simpl. lia.
Defined.

(** X9. A tensor of a single channel is broadcast against the means: the
    output has as many channels as there are means and standard
    deviations, and channel [k] holds the one input channel normalized
    with the mean and the standard deviation of [k]. *)
Theorem preprocess_broadcasts_single_channel
    (ch : list (list Z)) (mean std : list spec_float) (c h w size : nat) :
  rect2 ch h w -> length mean = c -> length std = c -> c ≠ 1%nat ->
  exists out,
    preprocess [ch] mean std (Z.of_nat size) = Ok out /\
    has_shape out c size size /\
    (forall k i j a m s,
       (i < size)%nat -> (j < size)%nat ->
       at2 ch i j = Some a -> mean !! k = Some m -> std !! k = Some s ->
       at3 out k i j = Some (normalized m s a)).
Proof.
  intros [Hh Hw] Hmean Hstd Hc. unfold preprocess.
  assert (H1 : channelwise (fun a m => F32.sub (F32.of_Z a) m) [ch] mean =
               Ok (map (fun m => map (map (fun a => F32.sub (F32.of_Z a) m)) ch) mean)).
  { unfold channelwise. simpl.
    destruct (Nat.eqb_spec 1 (length mean)) as [Heq|_]; [lia|].
    destruct mean as [|m [|m' mean]]; simpl in *; [done|lia|done]. }
  rewrite H1. set (x1 := map _ mean).
  assert (Hx1 : has_shape x1 c h w).
  { split; [unfold x1; by rewrite length_map|].
    apply Forall_map, Forall_forall. intros m _. simpl. split; [by rewrite length_map|].
    apply Forall_map. eapply Forall_impl; [exact Hw|]. intros row Hrow. simpl.
    by rewrite length_map. }
  rewrite channelwise_same_length by (destruct Hx1; lia).
  set (x2 := zip_with _ x1 std).
  assert (Hx2 : has_shape x2 c h w) by (by apply zip_channels_shape).
  destruct (F_pad_to_size x2 c h w size Hx2) as (out & Hpad & Hout & Hin & _).
  destruct (shape_hw x2) as [h' w'] eqn:Hhw. simpl in Hpad.
  exists out. split; [done|]. split; [done|].
  intros k i j a m s Hi Hj Ha Hm Hs.
  assert (i < h /\ j < w)%nat as [Hih Hjw].
  { unfold at2 in Ha. destruct (ch !! i) as [row|] eqn:Hrow; [|done].
    rewrite Forall_lookup in Hw. specialize (Hw _ _ Hrow).
    apply lookup_lt_Some in Hrow, Ha. lia. }
  rewrite Hin by done. unfold x2, normalized.
  apply (zip_channels_at3 F32.div); [|done].
  unfold at3, x1. rewrite list_lookup_fmap, Hm. simpl.
  rewrite at2_map. by rewrite Ha.
Qed.

Lemma preprocess_broadcasts_single_channel_witness :
  exists out,
    preprocess [[[10; 20]]] pixel_mean pixel_std (Z.of_nat 2) = Ok out /\
    has_shape out 3 2 2 /\
    (forall k i j a m s,
       (i < 2)%nat -> (j < 2)%nat ->
       at2 [[10; 20]] i j = Some a -> pixel_mean !! k = Some m -> pixel_std !! k = Some s ->
       at3 out k i j = Some (normalized m s a)).
Proof.
  apply (preprocess_broadcasts_single_channel [[10; 20]] pixel_mean pixel_std 3 1 2 2).
  - split; [reflexivity|]. repeat constructor.
  - reflexivity.
  - reflexivity.
  - lia.
Defined.

(** [main] gives [preprocess] three channels, three means and the target
    1024: the call returns for every image. *)
Lemma preprocess_in_main_returns (img : image) :
  exists out, preprocess (permute_201 img) pixel_mean pixel_std 1024 = Ok out.
Proof.
  unfold preprocess. rewrite channelwise_same_length by reflexivity.
  rewrite channelwise_same_length by reflexivity.
  destruct (shape_hw _) as [h w]. unfold F_pad.
  replace (Z.of_nat h + (1024 - Z.of_nat h))%Z with 1024%Z by lia.
  replace (Z.of_nat w + (1024 - Z.of_nat w))%Z with 1024%Z by lia.
  simpl. by eexists.
Qed.

Lemma permute_201_shape (img : image) h w :
  rect2 img h w -> has_shape (permute_201 img) 3 h w.
Proof.
  intros [Hh Hw]. split; [done|]. unfold permute_201.
  repeat (apply Forall_cons; split); try apply Forall_nil_2;
    (split; [by rewrite length_map|]); apply Forall_map;
    (eapply Forall_impl; [exact Hw|]); intros row Hrow; simpl; by rewrite length_map.
Qed.

Lemma permute_201_at3 (img : image) k i j p c :
  at2 img i j = Some p -> channel k p = Some c -> at3 (permute_201 img) k i j = Some c.
Proof.
  intros Hp Hc. unfold channel in Hc. unfold at3, permute_201.
  destruct k as [|[|[|k]]]; simpl in *; try done;
    injection Hc as <-; rewrite at2_map; by rewrite Hp.
Qed.

(** X10. In [main] the backbone transform never fails: for every image
    (height x width x 3) that the resize step returns, the permutation to
    channel-first followed by [preprocess] with the default target
    returns a tensor of 3 x 1024 x 1024, in which every pixel of the
    image inside the square is normalized channel by channel; where the
    resized image is larger than 1024 it is cropped, not refused. *)
Theorem backbone_transform_in_main (img : image) (h w : nat) :
  rect2 img h w ->
  exists out,
    preprocess (permute_201 img) pixel_mean pixel_std 1024 = Ok out /\
    has_shape out 3 1024 1024 /\
    (forall k i j p a m s,
       (i < 1024)%nat -> (j < 1024)%nat ->
       at2 img i j = Some p -> channel k p = Some a ->
       pixel_mean !! k = Some m -> pixel_std !! k = Some s ->
       at3 out k i j = Some (normalized m s a)) /\
    (forall k i j,
       (k < 3)%nat -> (i < 1024)%nat -> (j < 1024)%nat -> (h <= i)%nat \/ (w <= j)%nat ->
       at3 out k i j = Some F32.zero).
Proof.
  intros Himg.
  destruct (preprocess_to_size (permute_201 img) pixel_mean pixel_std 3 h w 1024
              (permute_201_shape _ _ _ Himg) eq_refl eq_refl)
    as (out & Hrun & Hshape & Hin & Hzero).
  exists out. split; [exact Hrun|]. split; [done|]. split; [|done].
  intros k i j p a m s Hi Hj Hp Ha Hm Hs.
  apply Hin; try done. by eapply permute_201_at3.
Qed.

Lemma backbone_transform_in_main_witness :
  exists out,
    preprocess (permute_201 sample_image) pixel_mean pixel_std 1024 = Ok out /\
    has_shape out 3 1024 1024 /\
    (forall k i j p a m s,
       (i < 1024)%nat -> (j < 1024)%nat ->
       at2 sample_image i j = Some p -> channel k p = Some a ->
       pixel_mean !! k = Some m -> pixel_std !! k = Some s ->
       at3 out k i j = Some (normalized m s a)) /\
    (forall k i j,
       (k < 3)%nat -> (i < 1024)%nat -> (j < 1024)%nat -> (1 <= i)%nat \/ (2 <= j)%nat ->
       at3 out k i j = Some F32.zero).
Proof.
  apply (backbone_transform_in_main sample_image 1 2).
  split; [reflexivity|]. repeat constructor.
Defined.

(** ** The names of the artifacts *)

Module NameFacts.
Import Str StrFacts.
#[local] Arguments String.append !s1 s2 : simpl nomatch.

Lemma all_chars_app P a b : all_chars P (a +:+ b) = all_chars P a && all_chars P b.
Proof. induction a as [|x a IH]; simpl; [done|]. by rewrite IH, andb_assoc. Qed.

(** Two strings cut at a character that occurs in neither head: the
    heads and the tails agree. *)
Lemma cut_at_char P c a a' b b' :
  all_chars P a = true -> all_chars P a' = true -> P c = false ->
  a +:+ String c b = a' +:+ String c b' -> a = a' /\ b = b'.
Proof.
  intros Ha Ha' Hc. revert a' Ha'. induction a as [|x a IH]; intros [|y a'] Ha' Heq;
    simpl in *.
  - by injection Heq as ->.
  - injection Heq as -> _. apply andb_true_iff in Ha' as [? _]. congruence.
  - injection Heq as -> _. apply andb_true_iff in Ha as [? _]. congruence.
  - injection Heq as -> Heq. apply andb_true_iff in Ha as [_ Ha].
    apply andb_true_iff in Ha' as [_ Ha']. destruct (IH Ha a' Ha' Heq) as [-> ->]. done.
Qed.

Lemma pretty_N_char_is_int_char x : is_int_char (pretty_N_char x) = true.
Proof. unfold pretty_N_char. by repeat case_match. Qed.

Lemma pretty_N_go_chars x s :
  all_chars is_int_char s = true -> all_chars is_int_char (pretty_N_go x s) = true.
Proof.
  revert s. induction (N.lt_wf_0 x) as [x _ IH]; intros s Hs.
  destruct (decide (x = 0%N)) as [->|Hx]; [by rewrite pretty_N_go_0|].
  rewrite pretty_N_go_step by lia. apply IH; [apply N.div_lt; lia|].
  simpl. by rewrite pretty_N_char_is_int_char.
Qed.

Lemma pretty_N_chars (x : N) : all_chars is_int_char (pretty x) = true.
Proof.
  unfold pretty, pretty_N. destruct (decide (x = 0%N)); [done|].
  by apply pretty_N_go_chars.
Qed.

Lemma of_nat_chars (n : nat) : all_chars is_int_char (of_nat n) = true.
Proof. apply pretty_N_chars. Qed.

Lemma of_Z_chars (z : Z) : all_chars is_int_char (of_Z z) = true.
Proof.
  unfold of_Z, pretty, pretty_Z. destruct z as [|p|p]; [done|apply pretty_N_chars|].
  rewrite all_chars_app. simpl. apply (pretty_N_chars (N.pos p)).
Qed.

(** [str(i) + "_prompt" + str(n) + ".png"] determines [i] and [n]. *)
Lemma index_and_prompt_suffix_inj (i j : nat) (n n' : Z) :
  of_nat i +:+ "_prompt" +:+ of_Z n +:+ ".png" = of_nat j +:+ "_prompt" +:+ of_Z n' +:+ ".png" ->
  i = j /\ n = n'.
Proof.
  intros H.
  destruct (cut_at_char is_int_char "_" (of_nat i) (of_nat j)
              ("prompt" +:+ of_Z n +:+ ".png") ("prompt" +:+ of_Z n' +:+ ".png")
              (of_nat_chars i) (of_nat_chars j) eq_refl H) as [Hi Hrest].
  apply (app_inv_head "prompt") in Hrest.
  destruct (cut_at_char is_int_char "." (of_Z n) (of_Z n') "png" "png"
              (of_Z_chars n) (of_Z_chars n') eq_refl Hrest) as [Hn _].
  split; [by apply (inj pretty) in Hi|by apply (inj pretty) in Hn].
Qed.

End NameFacts.

(** X11. For one label, the names of the artifacts tell the kind of the
    artifact, the index of the mask and the prompt id apart: two binary
    mask names, or two overlay names, are equal only for equal indices
    and equal prompt ids, and a binary mask name is never an overlay
    name.  Runs with different prompts, and masks at different
    positions, never write to the same file of a label. *)
Theorem artifact_names_are_distinct (parent_dir base_name : string) (i j : nat) (n n' : Z) :
  (mask_path parent_dir base_name i n = mask_path parent_dir base_name j n' ->
     i = j /\ n = n') /\
  (masked_img_path parent_dir base_name i n = masked_img_path parent_dir base_name j n' ->
     i = j /\ n = n') /\
  mask_path parent_dir base_name i n ≠ masked_img_path parent_dir base_name j n'.
Proof.
  unfold mask_path, masked_img_path. split; [|split]; intros H;
    apply StrFacts.app_inv_head, (StrFacts.app_inv_head "/"), StrFacts.app_inv_head in H.
  - apply (StrFacts.app_inv_head "_LISA_mask_") in H.
    by apply NameFacts.index_and_prompt_suffix_inj.
  - apply (StrFacts.app_inv_head "_LISA_masked_img_") in H.
    by apply NameFacts.index_and_prompt_suffix_inj.
  - apply (f_equal (String.get 10)) in H. lazy in H. discriminate H.
Qed.

(** ** The files that the mask loop writes *)

Lemma mask_events_files prompt_number lbl_path image_np i pred_mask :
  writes_of (mask_events prompt_number (parent_dir_of lbl_path) (base_name_of lbl_path)
               image_np i pred_mask) =
  mask_files prompt_number lbl_path image_np i pred_mask.
Proof. by destruct pred_mask. Qed.

Lemma writes_of_concat_imap {X} (f : nat -> X -> list event) (l : list X) :
  writes_of (concat (imap f l)) = concat (imap (fun i x => writes_of (f i x)) l).
Proof.
  revert f. induction l as [|x l IH]; intros f; [done|].
  rewrite !imap_cons. simpl. rewrite writes_of_app. f_equal. apply IH.
Qed.

Lemma concat_imap_count {X Y} (f : nat -> list X -> list Y) (l : list (list X)) :
  (forall i m, length (f i m) = match m with [] => 0 | _ :: _ => 2 end%nat) ->
  length (concat (imap f l)) = (2 * length (filter (fun m => m ≠ []) l))%nat.
Proof.
  revert f. induction l as [|m l IH]; intros f Hf; [done|].
  rewrite imap_cons. simpl. rewrite length_app, filter_cons, Hf.
  rewrite IH by (intros i m'; apply Hf).
  destruct m as [|first rest].
  - destruct (decide ([] ≠ [])) as [Hn|_]; [by destruct Hn|]. lia.
  - destruct (decide (first :: rest ≠ [])) as [_|Hn]; [simpl; lia|]. by destruct Hn.
Qed.

Lemma mask_files_count prompt_number lbl_path image_np
    (pred_masks : list (list (list (list spec_float)))) :
  length (concat (imap (mask_files prompt_number lbl_path image_np) pred_masks)) =
  (2 * length (filter (fun m => m ≠ []) pred_masks))%nat.
Proof. apply concat_imap_count. by intros i [|??]. Qed.

(** What [save_masks] does to the world, for masks that fit a non-empty
    image. *)
Lemma save_masks_files {MS} (prompt_number : Z) (lbl_path : string) (image_np : image)
    (pred_masks : list (tensor3 spec_float)) (w : world MS) :
  empty2 image_np = false ->
  Forall (mask_fits image_np) pred_masks ->
  exists w',
    save_masks prompt_number lbl_path image_np pred_masks w = (Ok tt, w') /\
    w_fs w' = apply_writes (w_fs w)
                (concat (imap (mask_files prompt_number lbl_path image_np) pred_masks)) /\
    writes_of (w_trace w') =
      writes_of (w_trace w) ++
      concat (imap (mask_files prompt_number lbl_path image_np) pred_masks) /\
    w_model w' = w_model w.
Proof.
  intros Himage Hfit. eexists. split; [by apply save_masks_run|].
  assert (Hw : writes_of (concat (imap (mask_events prompt_number (parent_dir_of lbl_path)
                  (base_name_of lbl_path) image_np) pred_masks)) =
               concat (imap (mask_files prompt_number lbl_path image_np) pred_masks)).
  { rewrite writes_of_concat_imap. f_equal. apply imap_ext. intros.
    apply mask_events_files. }
  simpl. rewrite writes_of_app, Hw. done.
Qed.

(** X12. For masks that fit a non-empty image (each mask is empty or has
    the height and width of the image), the mask loop returns without an
    exception and writes, in the order of the list, exactly the two files
    of each non-empty mask: the binary mask and the overlay, both named
    with the position of the mask in the whole list.  A mask of zero rows
    writes nothing and does not shift the positions after it; the number
    of files is twice the number of non-empty masks. *)
Theorem save_masks_writes_two_files_per_mask {MS}
    (prompt_number : Z) (lbl_path : string) (image_np : image)
    (pred_masks : list (tensor3 spec_float)) (w : world MS) :
  empty2 image_np = false ->
  Forall (mask_fits image_np) pred_masks ->
  exists w',
    save_masks prompt_number lbl_path image_np pred_masks w = (Ok tt, w') /\
    writes_of (w_trace w') =
      writes_of (w_trace w) ++
      concat (imap (mask_files prompt_number lbl_path image_np) pred_masks) /\
    length (writes_of (w_trace w')) =
      (length (writes_of (w_trace w)) +
       2 * length (filter (fun m => m ≠ []) pred_masks))%nat /\
    w_model w' = w_model w.
Proof.
  intros Himage Hfit.
  destruct (save_masks_files prompt_number lbl_path image_np pred_masks w Himage Hfit)
    as (w' & Hrun & _ & Htrace & Hmodel).
  exists w'. split; [done|]. split; [done|]. split; [|done].
  rewrite Htrace, length_app. f_equal. apply mask_files_count.
Qed.

Lemma save_masks_writes_two_files_per_mask_witness :
  exists w',
    save_masks 3 "/d/labels/c1/t1/f.png" sample_image [ []; sample_mask ] sample_world
      = (Ok tt, w') /\
    writes_of (w_trace w') =
      writes_of (w_trace sample_world) ++
      concat (imap (mask_files 3 "/d/labels/c1/t1/f.png" sample_image) [ []; sample_mask ]) /\
    length (writes_of (w_trace w')) =
      (length (writes_of (w_trace sample_world)) +
       2 * length (filter (fun m => m ≠ []) [ []; sample_mask ]))%nat /\
    w_model w' = w_model sample_world.
Proof.
  apply (save_masks_writes_two_files_per_mask 3 "/d/labels/c1/t1/f.png" sample_image
           [ []; sample_mask ] sample_world).
  - reflexivity.
  - repeat constructor.
Defined.

(** ** Reading the artifacts back *)

Lemma mask_path_inj (parent_dir base_name : string) (i j : nat) (n n' : Z) :
  mask_path parent_dir base_name i n = mask_path parent_dir base_name j n' -> i = j /\ n = n'.
Proof.
  unfold mask_path. intros H.
  apply StrFacts.app_inv_head, (StrFacts.app_inv_head "/"), StrFacts.app_inv_head,
    (StrFacts.app_inv_head "_LISA_mask_") in H.
  by apply NameFacts.index_and_prompt_suffix_inj.
Qed.

Lemma masked_img_path_inj (parent_dir base_name : string) (i j : nat) (n n' : Z) :
  masked_img_path parent_dir base_name i n = masked_img_path parent_dir base_name j n' ->
  i = j /\ n = n'.
Proof.
  unfold masked_img_path. intros H.
  apply StrFacts.app_inv_head, (StrFacts.app_inv_head "/"), StrFacts.app_inv_head,
    (StrFacts.app_inv_head "_LISA_masked_img_") in H.
  by apply NameFacts.index_and_prompt_suffix_inj.
Qed.

Lemma mask_path_neq_masked_img_path (parent_dir base_name : string) (i j : nat) (n n' : Z) :
  mask_path parent_dir base_name i n ≠ masked_img_path parent_dir base_name j n'.
Proof.
  unfold mask_path, masked_img_path. intros H.
  apply StrFacts.app_inv_head, (StrFacts.app_inv_head "/"), StrFacts.app_inv_head in H.
  apply (f_equal (String.get 10)) in H. lazy in H. discriminate H.
Qed.

Lemma write_file_other (fs : filesystem) (path q : string) (r : raster) :
  q ≠ path -> fs_entry (write_file fs path r) q = fs_entry fs q.
Proof. intros Hq. simpl. by destruct (String.eqb_spec q path). Qed.

Lemma write_file_same (fs : filesystem) (path : string) (r : raster) :
  fs_entry (write_file fs path r) path = Some (Img r).
Proof. simpl. by rewrite String.eqb_refl. Qed.

Lemma apply_writes_snoc (fs : filesystem) l p r :
  apply_writes fs (l ++ [(p, r)]) = write_file (apply_writes fs l) p r.
Proof. unfold apply_writes. by rewrite foldl_app. Qed.

(** A path that is not written keeps its entry. *)
Lemma apply_writes_untouched (fs : filesystem) (l : list (string * raster)) (q : string) :
  (forall r, (q, r) ∉ l) -> fs_entry (apply_writes fs l) q = fs_entry fs q.
Proof.
  induction l as [|[p r] l IH] using rev_ind; intros Hq; [done|].
  rewrite apply_writes_snoc, write_file_other.
  - apply IH. intros r' Hin. apply (Hq r'), elem_of_app. by left.
  - intros ->. apply (Hq r), elem_of_app. right. by apply list_elem_of_singleton.
Qed.

(** A path that is written with one content only holds that content. *)
Lemma apply_writes_lookup (fs : filesystem) (l : list (string * raster)) (p : string) (r : raster) :
  (forall r', (p, r') ∈ l -> r' = r) -> (p, r) ∈ l ->
  fs_entry (apply_writes fs l) p = Some (Img r).
Proof.
  induction l as [|[q s] l IH] using rev_ind; intros Hfun Hin; [by apply elem_of_nil in Hin|].
  rewrite apply_writes_snoc. destruct (decide (p = q)) as [<-|Hpq].
  - rewrite write_file_same. do 2 f_equal. apply Hfun, elem_of_app. right.
    by apply list_elem_of_singleton.
  - rewrite write_file_other by done. apply IH.
    + intros r' Hr'. apply Hfun, elem_of_app. by left.
    + apply elem_of_app in Hin as [Hin|Hin]; [done|].
      apply list_elem_of_singleton in Hin. congruence.
Qed.

Lemma elem_of_concat_imap {X Y} (f : nat -> X -> list Y) (l : list X) (y : Y) :
  y ∈ concat (imap f l) <-> exists i x, l !! i = Some x /\ y ∈ f i x.
Proof.
  rewrite list_elem_of_In, in_concat. split.
  - intros (ys & Hys & Hy). apply list_elem_of_In, elem_of_lookup_imap in Hys
      as (i & x & -> & Hx). exists i, x. split; [done|]. by apply list_elem_of_In.
  - intros (i & x & Hx & Hy). exists (f i x). split; [|by apply list_elem_of_In].
    apply list_elem_of_In, elem_of_lookup_imap. by exists i, x.
Qed.

(** The files of the mask loop: a file is in the list exactly when it is
    one of the two artifacts of a non-empty mask. *)
Lemma elem_of_mask_files prompt_number lbl_path image_np
    (pred_masks : list (list (list (list spec_float)))) (p : string) (r : raster) :
  (p, r) ∈ concat (imap (mask_files prompt_number lbl_path image_np) pred_masks) <->
  exists i first rest,
    pred_masks !! i = Some (first :: rest) /\
    ((p = mask_path (parent_dir_of lbl_path) (base_name_of lbl_path) i prompt_number /\
      r = Gray (gray_mask_of (binarize first))) \/
     (p = masked_img_path (parent_dir_of lbl_path) (base_name_of lbl_path) i prompt_number /\
      r = Color (cvtColor (overlay_array image_np (binarize first))))).
Proof.
  rewrite elem_of_concat_imap. split.
  - intros (i & [|first rest] & Hi & Hin); [by apply elem_of_nil in Hin|].
    exists i, first, rest. split; [done|]. simpl in Hin.
    apply elem_of_cons in Hin as [[= -> ->]|Hin]; [by left|].
    apply list_elem_of_singleton in Hin as [= -> ->]. by right.
  - intros (i & first & rest & Hi & Hpr). exists i, (first :: rest). split; [done|].
    simpl. destruct Hpr as [[-> ->]|[-> ->]]; [by left|right; by left].
Qed.

(** No path gets two contents in one run of the mask loop. *)
Lemma mask_files_functional prompt_number lbl_path image_np
    (pred_masks : list (list (list (list spec_float)))) (p : string) (r r' : raster) :
  (p, r) ∈ concat (imap (mask_files prompt_number lbl_path image_np) pred_masks) ->
  (p, r') ∈ concat (imap (mask_files prompt_number lbl_path image_np) pred_masks) ->
  r = r'.
Proof.
  rewrite !elem_of_mask_files.
  intros (i & first & rest & Hi & Hpr) (j & first' & rest' & Hj & Hpr').
  destruct Hpr as [[-> ->]|[-> ->]], Hpr' as [[Hp ->]|[Hp ->]].
  - apply mask_path_inj in Hp as [-> _]. rewrite Hi in Hj. by injection Hj as -> _.
  - by apply mask_path_neq_masked_img_path in Hp.
  - symmetry in Hp. by apply mask_path_neq_masked_img_path in Hp.
  - apply masked_img_path_inj in Hp as [-> _]. rewrite Hi in Hj. by injection Hj as -> _.
Qed.

(** X13. After the mask loop, for masks that fit a non-empty image, both
    artifacts of every non-empty mask are on disk with the content that
    was written for that mask: no artifact is overwritten by the artifact
    of another mask of the same call.  Every path that is not a directory
    and is not such an artifact holds what it held before: no other file
    is created, changed or removed.  (The directory of the label gains
    the names of the new artifacts; its listing is not part of this
    statement.) *)
Theorem save_masks_artifacts_are_on_disk {MS}
    (prompt_number : Z) (lbl_path : string) (image_np : image)
    (pred_masks : list (tensor3 spec_float)) (w : world MS) :
  empty2 image_np = false ->
  Forall (mask_fits image_np) pred_masks ->
  exists w',
    save_masks prompt_number lbl_path image_np pred_masks w = (Ok tt, w') /\
    (forall i first rest, pred_masks !! i = Some (first :: rest) ->
       fs_entry (w_fs w')
         (mask_path (parent_dir_of lbl_path) (base_name_of lbl_path) i prompt_number) =
         Some (Img (Gray (gray_mask_of (binarize first)))) /\
       fs_entry (w_fs w')
         (masked_img_path (parent_dir_of lbl_path) (base_name_of lbl_path) i prompt_number) =
         Some (Img (Color (cvtColor (overlay_array image_np (binarize first)))))) /\
    (forall q,
       Os.path_isdir (w_fs w) q = false ->
       (forall i first rest, pred_masks !! i = Some (first :: rest) ->
          q ≠ mask_path (parent_dir_of lbl_path) (base_name_of lbl_path) i prompt_number /\
          q ≠ masked_img_path (parent_dir_of lbl_path) (base_name_of lbl_path) i prompt_number) ->
       fs_entry (w_fs w') q = fs_entry (w_fs w) q).
Proof.
  intros Himage Hfit.
  destruct (save_masks_files prompt_number lbl_path image_np pred_masks w Himage Hfit)
    as (w' & Hrun & Hfs & _ & _).
  exists w'. split; [done|]. rewrite Hfs. unfold tensor3 in *. split.
  - intros i first rest Hi. split.
    + apply apply_writes_lookup.
      * intros r' Hr'. eapply mask_files_functional; [exact Hr'|].
        apply elem_of_mask_files. exists i, first, rest. split; [done|by left].
      * apply elem_of_mask_files. exists i, first, rest. split; [done|by left].
    + apply apply_writes_lookup.
      * intros r' Hr'. eapply mask_files_functional; [exact Hr'|].
        apply elem_of_mask_files. exists i, first, rest. split; [done|by right].
      * apply elem_of_mask_files. exists i, first, rest. split; [done|by right].
  - intros q _ Hq. apply apply_writes_untouched. intros r Hin.
    apply elem_of_mask_files in Hin as (i & first & rest & Hi & Hpr).
    destruct (Hq i first rest Hi) as [H1 H2]. by destruct Hpr as [[? _]|[? _]].
Qed.

Lemma save_masks_artifacts_are_on_disk_witness :
  exists w',
    save_masks 3 "/d/labels/c1/t1/f.png" sample_image [ []; sample_mask ] sample_world
      = (Ok tt, w') /\
    (forall i first rest, [ []; sample_mask ] !! i = Some (first :: rest) ->
       fs_entry (w_fs w')
         (mask_path (parent_dir_of "/d/labels/c1/t1/f.png")
            (base_name_of "/d/labels/c1/t1/f.png") i 3) =
         Some (Img (Gray (gray_mask_of (binarize first)))) /\
       fs_entry (w_fs w')
         (masked_img_path (parent_dir_of "/d/labels/c1/t1/f.png")
            (base_name_of "/d/labels/c1/t1/f.png") i 3) =
         Some (Img (Color (cvtColor (overlay_array sample_image (binarize first)))))) /\
    (forall q,
       Os.path_isdir (w_fs sample_world) q = false ->
       (forall i first rest, [ []; sample_mask ] !! i = Some (first :: rest) ->
          q ≠ mask_path (parent_dir_of "/d/labels/c1/t1/f.png")
                (base_name_of "/d/labels/c1/t1/f.png") i 3 /\
          q ≠ masked_img_path (parent_dir_of "/d/labels/c1/t1/f.png")
                (base_name_of "/d/labels/c1/t1/f.png") i 3) ->
       fs_entry (w_fs w') q = fs_entry (w_fs sample_world) q).
Proof.
  apply (save_masks_artifacts_are_on_disk 3 "/d/labels/c1/t1/f.png" sample_image
           [ []; sample_mask ] sample_world).
  - reflexivity.
  - repeat constructor.
Defined.

(** ** The label file and the artifacts *)

Module PathFacts.
Import Str StrFacts.
#[local] Arguments String.append !s1 s2 : simpl nomatch.
#[local] Open Scope nat_scope.

Lemma join_cons_cons sep x y l : join sep (x :: y :: l) = x +:+ sep +:+ join sep (y :: l).
Proof. reflexivity. Qed.

Lemma join_snoc sep (l : list string) x :
  l ≠ [] -> join sep (l ++ [x]) = join sep l +:+ sep +:+ x.
Proof.
  induction l as [|y l IH]; intros Hl; [done|].
  destruct l as [|z l]; [reflexivity|].
  change ((y :: z :: l) ++ [x]) with (y :: z :: (l ++ [x])).
  rewrite !join_cons_cons. change (z :: l ++ [x]) with ((z :: l) ++ [x]).
  rewrite IH by done. by rewrite !StrFacts.app_assoc.
Qed.

(** A string is its parent, a separator and its last segment, unless it
    has one segment only. *)
Lemma split_parent_last c s :
  removelast (split c s) = [] \/
  s = join (String c "") (removelast (split c s)) +:+ String c (last_seg (split c s)).
Proof.
  destruct (decide (removelast (split c s) = [])) as [|Hne]; [by left|right].
  pose proof (SplitFacts.join_split c s) as Hjoin.
  rewrite (app_removelast_last "" (SplitFacts.split_nonempty c s)) in Hjoin at 1.
  rewrite join_snoc in Hjoin by done. symmetry. exact Hjoin.
Qed.

(** The first segment is the whole string, or is followed by the
    separator. *)
Lemma first_seg_prefix c s :
  first_seg (split c s) = s \/ exists rest, s = first_seg (split c s) +:+ String c rest.
Proof.
  induction s as [|x s IH]; [by left|]. simpl.
  destruct (Ascii.eqb_spec x c) as [->|Hx]; [right; by exists s|].
  destruct (split c s) as [|h t] eqn:Hs; [by destruct (SplitFacts.split_nonempty c s)|].
  simpl in *. destruct IH as [->|[rest ->]]; [by left|right; by exists rest].
Qed.

Lemma append_nonempty_neq (a b : string) : b ≠ "" -> a +:+ b ≠ a.
Proof.
  intros Hb H. apply (f_equal len) in H. rewrite len_app in H.
  apply len_pos in Hb. lia.
Qed.

(** No name [base_name + "_" + ...], with the base name of a file name,
    is that file name. *)
Lemma base_name_suffix_neq (file_name tail : string) :
  first_seg (split "." file_name) +:+ String "_" tail ≠ file_name.
Proof.
  intros H. destruct (first_seg_prefix "." file_name) as [Hall|[rest Hrest]].
  - rewrite Hall in H. by apply append_nonempty_neq in H.
  - rewrite Hrest in H at 2. apply app_inv_head in H. discriminate H.
Qed.

(** A name in the parent directory of the label, made of the base name and
    a tail that begins with an underscore, is not the label. *)
Lemma artifact_neq_label (lbl_path tail : string) :
  parent_dir_of lbl_path +:+ "/" +:+ base_name_of lbl_path +:+ String "_" tail ≠ lbl_path.
Proof.
  unfold parent_dir_of, base_name_of. intros H.
  destruct (split_parent_last "/" lbl_path) as [Hone|Hsplit].
  - rewrite Hone in H. simpl in H.
    rewrite <- H in Hone. simpl in Hone.
    match type of Hone with
    | match ?x with _ => _ end = _ =>
        destruct x eqn:Hs; [by destruct (SplitFacts.split_nonempty _ _ Hs)|]
    end.
    discriminate Hone.
  - rewrite Hsplit in H at 3.
    apply app_inv_head in H. apply (app_inv_head "/") in H.
    by apply base_name_suffix_neq in H.
Qed.

Lemma mask_path_neq_label (lbl_path : string) (i : nat) (n : Z) :
  mask_path (parent_dir_of lbl_path) (base_name_of lbl_path) i n ≠ lbl_path.
Proof. apply (artifact_neq_label lbl_path ("LISA_mask_" +:+ of_nat i +:+ "_prompt" +:+ of_Z n +:+ ".png")). Qed.

Lemma masked_img_path_neq_label (lbl_path : string) (i : nat) (n : Z) :
  masked_img_path (parent_dir_of lbl_path) (base_name_of lbl_path) i n ≠ lbl_path.
Proof. apply (artifact_neq_label lbl_path ("LISA_masked_img_" +:+ of_nat i +:+ "_prompt" +:+ of_Z n +:+ ".png")). Qed.

End PathFacts.

(** One iteration of the mask loop, whatever its outcome, changes no file
    but its two artifacts. *)
Lemma mask_body_touches {MS} prompt_number parent_dir base_name image_np i pred_mask
    (w : world MS) r w' q :
  mask_body prompt_number parent_dir base_name image_np (i, pred_mask) w = (r, w') ->
  q ≠ mask_path parent_dir base_name i prompt_number ->
  q ≠ masked_img_path parent_dir base_name i prompt_number ->
  fs_entry (w_fs w') q = fs_entry (w_fs w) q.
Proof.
  intros Hrun H1 H2. destruct pred_mask as [|first rest].
  - by injection Hrun as _ <-.
  - unfold mask_body, se_bind, imwrite, print, se_modify, se_lift, se_raise in Hrun.
    destruct (raster_empty (Gray _)); [by injection Hrun as _ <-|].
    simpl in Hrun. destruct (overlay _ _) as [save_img|e].
    + destruct (empty2 (cvtColor save_img)); injection Hrun as _ <-; simpl.
      * by destruct (String.eqb_spec q (mask_path parent_dir base_name i prompt_number)).
      * destruct (String.eqb_spec q (masked_img_path parent_dir base_name i prompt_number)); [done|].
        by destruct (String.eqb_spec q (mask_path parent_dir base_name i prompt_number)).
    + injection Hrun as _ <-. simpl.
      by destruct (String.eqb_spec q (mask_path parent_dir base_name i prompt_number)).
Qed.

(** X14. The mask loop never writes to the label file it names its
    artifacts after: whatever the masks, and whether the loop returns or
    raises, the entry at the label path is after the loop what it was
    before. *)
Theorem save_masks_keeps_label_file {MS} (prompt_number : Z) (lbl_path : string)
    (image_np : image) (pred_masks : list (tensor3 spec_float)) (w : world MS) :
  fs_entry (w_fs (save_masks prompt_number lbl_path image_np pred_masks w).2) lbl_path =
  fs_entry (w_fs w) lbl_path.
Proof.
  destruct (save_masks prompt_number lbl_path image_np pred_masks w) as [r w'] eqn:Hrun.
  unfold save_masks in Hrun. simpl.
  apply (for_each_invariant
           (fun w' : world MS => fs_entry (w_fs w') lbl_path = fs_entry (w_fs w) lbl_path)
           _ _) with (s := w) (r := r) (s' := w') in Hrun; [done| |done].
  intros [i m] s r' s' _ Hs Hbody. rewrite <- Hs.
  eapply mask_body_touches; [exact Hbody| |].
  - intros H. symmetry in H. by apply PathFacts.mask_path_neq_label in H.
  - intros H. symmetry in H. by apply PathFacts.masked_img_path_neq_label in H.
Qed.

(** ** One iteration of the loop of [main] *)

Lemma imread_exists (fs : filesystem) (path : string) (px : image) :
  imread fs path = Some px -> Os.path_exists fs path = true.
Proof. unfold imread, Os.path_exists. by destruct (fs_entry fs path). Qed.

(** An iteration whose image can be read comes to the model call; what
    follows depends on the outcome of that call only. *)
Lemma pair_body_readable (C : Collaborators) (args : Args)
    (img_path lbl_path text : string) (image_bgr : image) (w : world (model_state C)) :
  lookup_prompt (prompt_number args) = Ok text ->
  imread (w_fs w) img_path = Some image_bgr ->
  pair_body C args (img_path, lbl_path) w =
  match model_call C args text (cvtColor image_bgr) (w_model w) with
  | (Ok (output_ids, pred_masks), ms) =>
      save_masks (prompt_number args) lbl_path (cvtColor image_bgr) pred_masks
        (World (w_fs w)
           (w_trace w ++ [ Printed (processing_line img_path lbl_path);
                           Printed ("text_output:  " +:+ text_output_of C output_ids) ])
           ms)
  | (Raise e, ms) =>
      (Raise e,
       World (w_fs w) (w_trace w ++ [Printed (processing_line img_path lbl_path)]) ms)
  end.
Proof.
  intros Hprompt Hread.
  destruct (preprocess_in_main_returns (apply_image C (image_size args) (cvtColor image_bgr)))
    as [out Hout].
  unfold pair_body, se_bind, print, se_modify, se_lift, se_get, run_model, model_call,
    backbone_input, input_ids_of, text_output_of, processing_line. simpl.
  rewrite Hprompt. simpl. rewrite (imread_exists _ _ _ Hread), Hread. simpl.
  rewrite Hout. simpl.
  destruct (evaluate C _ _ _ _ _ _) as [[[output_ids pred_masks]|e] ms]; simpl; [|done].
  by rewrite <- app_assoc.
Qed.

(** X15. An exception of the model is fatal: when the image of a pair is
    read and [model.evaluate] raises, the loop of [main] ends with that
    exception at this pair; the pairs after it are not processed, and for
    this pair only the line "Processing image: ..." is printed and no file
    is written. *)
Theorem model_failure_ends_the_loop (C : Collaborators) (args : Args)
    (img_path lbl_path text : string) (image_bgr : image) (e : exception)
    (ms : model_state C) (after : list pair) (w : world (model_state C)) :
  lookup_prompt (prompt_number args) = Ok text ->
  imread (w_fs w) img_path = Some image_bgr ->
  model_call C args text (cvtColor image_bgr) (w_model w) = (Raise e, ms) ->
  for_each ((img_path, lbl_path) :: after) (pair_body C args) w =
  (Raise e,
   World (w_fs w) (w_trace w ++ [Printed (processing_line img_path lbl_path)]) ms).
Proof.
  intros Hprompt Hread Hcall.
  by rewrite for_each_cons, (pair_body_readable C args _ _ text image_bgr), Hcall.
Qed.

Lemma model_failure_ends_the_loop_witness :
  for_each (("/d/images/c1/t1/f.jpeg", "/d/labels/c1/t1/f.png")
              :: [("/d/images/c1/t1/g.jpeg", "/d/labels/c1/t1/g.png")])
    (pair_body sample_collaborators_failing sample_args) sample_world =
  (Raise (RuntimeError "CUDA out of memory"),
   World (w_fs sample_world)
     (w_trace sample_world ++
        [Printed (processing_line "/d/images/c1/t1/f.jpeg" "/d/labels/c1/t1/f.png")])
     1%nat).
Proof.
  apply (model_failure_ends_the_loop sample_collaborators_failing sample_args
           "/d/images/c1/t1/f.jpeg" "/d/labels/c1/t1/f.png" PROMPT3
           [[(30, 20, 10); (0, 0, 0)]] (RuntimeError "CUDA out of memory") 1%nat
           [("/d/images/c1/t1/g.jpeg", "/d/labels/c1/t1/g.png")] sample_world).
  - reflexivity.
  - reflexivity.
  - reflexivity.
Defined.

(** X16. A path that exists but cannot be read as an image (a directory,
    a file that is no image) is not skipped as a missing file is:
    [cv2.imread] gives [None], the colour conversion raises [cv2.error],
    and the loop of [main] ends there; the pairs after it are not
    processed and nothing is written. *)
Theorem unreadable_image_ends_the_loop (C : Collaborators) (args : Args)
    (img_path lbl_path text : string) (after : list pair) (w : world (model_state C)) :
  lookup_prompt (prompt_number args) = Ok text ->
  Os.path_exists (w_fs w) img_path = true ->
  imread (w_fs w) img_path = None ->
  exists e,
    exc_class e = "cv2.error" /\
    for_each ((img_path, lbl_path) :: after) (pair_body C args) w =
    (Raise e,
     World (w_fs w) (w_trace w ++ [Printed (processing_line img_path lbl_path)]) (w_model w)).
Proof.
  intros Hprompt Hexists Hread. eexists. split; [|].
  2: { rewrite for_each_cons.
       unfold pair_body, se_bind, print, se_modify, se_lift, se_get, se_raise, processing_line.
       simpl. rewrite Hprompt. simpl. rewrite Hexists, Hread. simpl. reflexivity. }
  reflexivity.
Qed.

Lemma unreadable_image_ends_the_loop_witness :
  exists e,
    exc_class e = "cv2.error" /\
    for_each (("/d/images/c1/t1", "/d/labels/c1/t1")
                :: [("/d/images/c1/t1/f.jpeg", "/d/labels/c1/t1/f.png")])
      (pair_body sample_collaborators sample_args) sample_world =
    (Raise e,
     World (w_fs sample_world)
       (w_trace sample_world ++
          [Printed (processing_line "/d/images/c1/t1" "/d/labels/c1/t1")])
       (w_model sample_world)).
Proof.
  apply (unreadable_image_ends_the_loop sample_collaborators sample_args
           "/d/images/c1/t1" "/d/labels/c1/t1" PROMPT3
           [("/d/images/c1/t1/f.jpeg", "/d/labels/c1/t1/f.png")] sample_world).
  - reflexivity.
  - reflexivity.
  - reflexivity.
Defined.



(** ** A mask of another shape *)

Lemma mask_body_misfit {MS} prompt_number parent_dir base_name (image_np : image) i
    (first : list (list spec_float)) (rest : list (list (list spec_float))) (w : world MS) :
  empty2 first = false ->
  shape2 first ≠ shape2 image_np ->
  exists e,
    (exc_class e = "IndexError" \/ exc_class e = "ValueError") /\
    mask_body prompt_number parent_dir base_name image_np (i, first :: rest) w =
    (Raise e,
     World (write_file (w_fs w) (mask_path parent_dir base_name i prompt_number)
              (Gray (gray_mask_of (binarize first))))
       (w_trace w ++
          [ Wrote (mask_path parent_dir base_name i prompt_number)
              (Gray (gray_mask_of (binarize first)));
            Printed (mask_path parent_dir base_name i prompt_number +:+ " has been saved.") ])
       (w_model w)).
Proof.
  intros Hne Hshape.
  assert (Hm : shape2 (binarize first) ≠ shape2 image_np)
    by (unfold binarize; by rewrite shape2_map).
  assert (Hg : empty2 (gray_mask_of (binarize first)) = false)
    by (unfold gray_mask_of, binarize; by rewrite !empty2_map).
  unfold mask_body, se_bind, imwrite, print, se_modify, se_lift. simpl. rewrite Hg. simpl.
  unfold overlay.
  destruct (shape2 image_np) as [h wd], (shape2 (binarize first)) as [mh mw].
  assert (Hcond : (h =? mh)%nat && (wd =? mw)%nat = false).
  { apply andb_false_iff.
    destruct (Nat.eqb_spec h mh) as [->|]; [right|by left].
    destruct (Nat.eqb_spec wd mw) as [->|]; [by destruct Hm|done]. }
  rewrite Hcond.
  destruct (broadcastable h mh && broadcastable wd mw); eexists;
    (split; [|by rewrite <- app_assoc]); [by left|by right].
Qed.

(** X18. A mask whose first slice is not empty and does not have the
    height and width of the image stops the mask loop with numpy's
    [IndexError] or [ValueError], after its binary mask was written and
    before its overlay: the files of the masks before it are complete,
    this mask has a binary mask file without an overlay, and the masks
    after it have no file. *)
Theorem misfitting_mask_leaves_mask_without_overlay {MS}
    (prompt_number : Z) (lbl_path : string) (image_np : image)
    (before after : list (tensor3 spec_float))
    (first : list (list spec_float)) (rest : tensor3 spec_float) (w : world MS) :
  empty2 image_np = false ->
  Forall (mask_fits image_np) before ->
  empty2 first = false ->
  shape2 first ≠ shape2 image_np ->
  exists e w',
    save_masks prompt_number lbl_path image_np (before ++ (first :: rest) :: after) w =
      (Raise e, w') /\
    (exc_class e = "IndexError" \/ exc_class e = "ValueError") /\
    writes_of (w_trace w') =
      writes_of (w_trace w) ++
      concat (imap (mask_files prompt_number lbl_path image_np) before) ++
      [ (mask_path (parent_dir_of lbl_path) (base_name_of lbl_path) (length before)
           prompt_number,
         Gray (gray_mask_of (binarize first))) ].
Proof.
  intros Himage Hfit Hne Hshape.
  unfold save_masks, enumerate. rewrite imap_app, for_each_app.
  pose proof (mask_loop_run prompt_number (parent_dir_of lbl_path) (base_name_of lbl_path)
                image_np Himage before 0 w Hfit) as Hbefore.
  simpl in Hbefore. unfold tensor3 in *. rewrite Hbefore. clear Hbefore.
  rewrite imap_cons, for_each_cons, Nat.add_0_r.
  match goal with
  | |- context [mask_body _ _ _ _ _ ?w1] =>
      destruct (mask_body_misfit prompt_number (parent_dir_of lbl_path)
                  (base_name_of lbl_path) image_np (length before) first rest w1 Hne Hshape)
        as (e & Hclass & Hrun)
  end.
  rewrite Hrun. eexists _, _. split; [reflexivity|]. split; [done|].
  simpl. rewrite !writes_of_app, writes_of_concat_imap. simpl. rewrite <- app_assoc.
  do 2 f_equal. f_equal. apply imap_ext. intros. apply mask_events_files.
Qed.

Lemma misfitting_mask_leaves_mask_without_overlay_witness :
  exists e w',
    save_masks 3 "/d/labels/c1/t1/f.png" sample_image
      ([sample_mask] ++ sample_mask_tall :: [sample_mask]) sample_world = (Raise e, w') /\
    (exc_class e = "IndexError" \/ exc_class e = "ValueError") /\
    writes_of (w_trace w') =
      writes_of (w_trace sample_world) ++
      concat (imap (mask_files 3 "/d/labels/c1/t1/f.png" sample_image) [sample_mask]) ++
      [ (mask_path (parent_dir_of "/d/labels/c1/t1/f.png")
           (base_name_of "/d/labels/c1/t1/f.png") (length [sample_mask]) 3,
         Gray (gray_mask_of (binarize [ [S754_finite false 1 0]; [S754_zero false] ]))) ].
Proof.
  apply (misfitting_mask_leaves_mask_without_overlay 3 "/d/labels/c1/t1/f.png" sample_image
           [sample_mask] [sample_mask] [ [S754_finite false 1 0]; [S754_zero false] ] []
           sample_world).
  - reflexivity.
  - repeat constructor.
  - reflexivity.
  - discriminate.
Defined.

(** ** Files are created, never removed *)

Lemma write_file_keeps (fs : filesystem) (path q : string) (r : raster) :
  Os.path_exists fs q = true -> Os.path_exists (write_file fs path r) q = true.
Proof. unfold Os.path_exists. simpl. by destruct (String.eqb q path). Qed.

Lemma mask_body_keeps_files {MS} prompt_number parent_dir base_name image_np
    (item : nat * tensor3 spec_float) (w : world MS) r w' q :
  mask_body prompt_number parent_dir base_name image_np item w = (r, w') ->
  Os.path_exists (w_fs w) q = true -> Os.path_exists (w_fs w') q = true.
Proof.
  destruct item as [i [|first rest]]; intros Hrun Hq.
  - by injection Hrun as _ <-.
  - unfold mask_body, se_bind, imwrite, print, se_modify, se_lift, se_raise in Hrun.
    destruct (raster_empty (Gray _)); [by injection Hrun as _ <-|].
    simpl in Hrun. destruct (overlay _ _) as [save_img|e].
    + destruct (empty2 (cvtColor save_img)); injection Hrun as _ <-; simpl;
        repeat apply write_file_keeps; done.
    + injection Hrun as _ <-. simpl. by apply write_file_keeps.
Qed.

Lemma save_masks_keeps_files {MS} prompt_number lbl_path image_np pred_masks
    (w : world MS) r w' q :
  save_masks prompt_number lbl_path image_np pred_masks w = (r, w') ->
  Os.path_exists (w_fs w) q = true -> Os.path_exists (w_fs w') q = true.
Proof.
  intros Hrun Hq. unfold save_masks in Hrun.
  apply (for_each_invariant (fun w' : world MS => Os.path_exists (w_fs w') q = true) _ _)
    with (s := w) (r := r) (s' := w') in Hrun; [done| |done].
  intros item s r' s' _ Hs Hbody. by eapply mask_body_keeps_files.
Qed.

Lemma pair_body_keeps_files (C : Collaborators) (args : Args) (p : pair)
    (w : world (model_state C)) r w' q :
  pair_body C args p w = (r, w') ->
  Os.path_exists (w_fs w) q = true -> Os.path_exists (w_fs w') q = true.
Proof.
  destruct p as [img_path lbl_path]. intros Hrun Hq.
  unfold pair_body, se_bind, print, se_modify, se_lift, se_get, se_raise, run_model in Hrun.
  simpl in Hrun.
  destruct (lookup_prompt (prompt_number args)) as [text|e]; [|by injection Hrun as _ <-].
  simpl in Hrun.
  destruct (Os.path_exists (w_fs w) img_path); simpl in Hrun; [|by injection Hrun as _ <-].
  destruct (imread (w_fs w) img_path) as [image_bgr|]; [|by injection Hrun as _ <-].
  destruct (preprocess _ _ _ _) as [img|e]; simpl in Hrun; [|by injection Hrun as _ <-].
  destruct (evaluate C _ _ _ _ _ _) as [[[output_ids pred_masks]|e] ms]; simpl in Hrun;
    [|by injection Hrun as _ <-].
  by eapply save_masks_keeps_files in Hrun.
Qed.

(** X19. From discovery on, [main] only creates or overwrites files:
    every path that exists when discovery starts still exists when [main]
    ends, whether it returns or raises, whatever the model returns. *)
Theorem main_loop_removes_no_file (C : Collaborators) (args : Args)
    (w : world (model_state C)) (q : string) :
  Os.path_exists (w_fs w) q = true ->
  Os.path_exists (w_fs (main_loop C args w).2) q = true.
Proof.
  intros Hq. destruct (main_loop C args w) as [r w'] eqn:Hrun. simpl.
  unfold main_loop, se_bind, discover, print, se_modify, se_lift in Hrun.
  destruct (collect_pairs (w_fs w) (folder_path args)) as [pairs|e];
    [|by injection Hrun as _ <-].
  simpl in Hrun.
  destruct (lookup_prompt (prompt_number args)) as [text|e]; [|by injection Hrun as _ <-].
  simpl in Hrun.
  apply (for_each_invariant
           (fun w' : world (model_state C) => Os.path_exists (w_fs w') q = true) _ _)
    with (r := r) (s' := w') in Hrun; [done| |done].
  intros p s r' s' _ Hs Hbody. by eapply pair_body_keeps_files.
Qed.

Lemma main_loop_removes_no_file_witness :
  Os.path_exists (w_fs (main_loop sample_collaborators sample_args sample_world).2)
    "/d/images/c1/t1/g.jpeg" = true.
Proof.
  apply (main_loop_removes_no_file sample_collaborators sample_args sample_world
           "/d/images/c1/t1/g.jpeg").
  reflexivity.
Defined.

(** ** The text output *)

Module TextFacts.
Import Str StrFacts.
#[local] Arguments String.append !s1 s2 : simpl nomatch.
#[local] Open Scope nat_scope.

Lemma all_chars_append P a b :
  all_chars P a = true -> all_chars P b = true -> all_chars P (a +:+ b) = true.
Proof.
  induction a as [|x a IH]; simpl; [done|]. intros Ha Hb.
  apply andb_true_iff in Ha as [Hx Ha]. by rewrite Hx, IH.
Qed.

(** A replacement by a text of allowed characters keeps a text of allowed
    characters so. *)
Lemma replace_go_all_chars P old new k s :
  all_chars P new = true -> all_chars P s = true ->
  all_chars P (replace_go old new k s) = true.
Proof.
  intros Hnew. revert k. induction s as [|c s IH]; intros k Hs; [done|].
  simpl in Hs. apply andb_true_iff in Hs as [Hc Hs]. simpl.
  destruct k as [|k]; [|by apply IH].
  destruct (startswith old (String c s)).
  - apply all_chars_append; [done|by apply IH].
  - simpl. by rewrite Hc, IH.
Qed.

(** Replacing a character by nothing leaves none of it. *)
Lemma replace_go_removes_char x k s :
  all_chars (fun c => negb (Ascii.eqb x c)) (replace_go (String x "") "" k s) = true.
Proof.
  revert k. induction s as [|c s IH]; intros k; [done|]. simpl.
  destruct k as [|k]; [|apply IH].
  destruct (Ascii.eqb x c) eqn:Hc.
  - replace (startswith "" s) with true by (by destruct s). simpl. apply IH.
  - simpl. by rewrite Hc, IH.
Qed.

Lemma all_chars_not_contains x s :
  all_chars (fun c => negb (Ascii.eqb x c)) s = true -> contains (String x "") s = false.
Proof.
  induction s as [|c s IH]; [done|]. simpl. intros H.
  apply andb_true_iff in H as [Hc Hs]. apply negb_true_iff in Hc. rewrite Hc. simpl.
  by apply IH.
Qed.

End TextFacts.

(** X20. The text printed after "text_output:  " is on one line: whatever
    the tokenizer decodes, the two replacements leave no newline character
    in it. *)
Theorem text_output_has_no_newline (C : Collaborators) (output_ids : list Z) :
  Str.contains NL (text_output_of C output_ids) = false.
Proof.
  unfold text_output_of.
  generalize (tokenizer_decode C (filter (fun t => t ≠ IMAGE_TOKEN_INDEX C) output_ids)).
  intros text. apply TextFacts.all_chars_not_contains.
  unfold Str.replace. apply TextFacts.replace_go_all_chars; [done|].
  apply TextFacts.replace_go_removes_char.
Qed.

(** The second replacement is one pass: a run of spaces is halved, not
    reduced to one space. *)
Example replace_double_space_is_one_pass :
  Str.replace "a    b" "  " " " = "a  b".
Proof. reflexivity. Qed.

(** ** The order of the checks of [main] *)

(** X21. A prompt id that is not in the registry is found only after the
    whole dataset was walked: if discovery raises, [main] ends with that
    exception and has printed nothing; otherwise it prints the line of the
    pairs collected and then raises [KeyError] with the id.  In neither
    case is a pair processed, the model called or a file written. *)
Theorem main_loop_unknown_prompt_after_discovery (C : Collaborators) (args : Args)
    (w : world (model_state C)) :
  prompt_number args ∉ dom Prompts ->
  main_loop C args w =
  match collect_pairs (w_fs w) (folder_path args) with
  | Ok pairs =>
      (Raise (KeyError (prompt_number args)),
       World (w_fs w)
         (w_trace w ++ [Printed ("Total pairs collected: " +:+ repr_pairs C pairs)])
         (w_model w))
  | Raise e => (Raise e, w)
  end.
Proof.
  intros Hk. apply not_elem_of_dom in Hk.
  unfold main_loop, se_bind, discover, se_lift, print, se_modify, lookup_prompt.
  destruct (collect_pairs (w_fs w) (folder_path args)) as [pairs|e]; [|done].
  simpl. by rewrite Hk.
Qed.

Lemma main_loop_unknown_prompt_after_discovery_witness :
  main_loop sample_collaborators sample_args_unknown_prompt sample_world =
  match collect_pairs (w_fs sample_world) (folder_path sample_args_unknown_prompt) with
  | Ok pairs =>
      (Raise (KeyError (prompt_number sample_args_unknown_prompt)),
       World (w_fs sample_world)
         (w_trace sample_world ++
            [Printed ("Total pairs collected: " +:+ repr_pairs sample_collaborators pairs)])
         (w_model sample_world))
  | Raise e => (Raise e, sample_world)
  end.
Proof.
  apply (main_loop_unknown_prompt_after_discovery sample_collaborators
           sample_args_unknown_prompt sample_world).
  apply not_elem_of_dom. reflexivity.
Defined.

(** ** The overlay file against the image file *)

(** X22. The overlay file, compared with the image file it was made from
    (both in OpenCV's blue, green, red order): for a mask of the shape of
    the image, a pixel where the mask is not set is the pixel of the image
    file, and a pixel where it is set has blue and green halved and red
    moved halfway to 255, so that the two colour conversions of [main]
    cancel and the red of the blend lands in the third channel. *)
Theorem overlay_file_against_image_file (image_bgr : image) (pred_mask : list (list bool))
    (y x : nat) (b g r : Z) (bit : bool) :
  at2 image_bgr y x = Some (b, g, r) ->
  at2 pred_mask y x = Some bit ->
  0 <= b < 256 -> 0 <= g < 256 -> 0 <= r < 256 ->
  at2 (cvtColor (overlay_array (cvtColor image_bgr) pred_mask)) y x =
  Some (if bit then (b / 2, g / 2, (r + 255) / 2) else (b, g, r)).
Proof.
  intros Hp Hm Hb Hg Hr. unfold cvtColor, overlay_array. rewrite at2_map.
  assert (Hrgb : at2 (map (map swap_rb) image_bgr) y x = Some (r, g, b))
    by (by rewrite at2_map, Hp).
  rewrite (at2_zip_with _ _ _ _ _ _ _ Hrgb Hm). cbv beta.
  destruct bit; [|done]. by rewrite blend_pixel_value.
Qed.

Lemma overlay_file_against_image_file_witness :
  at2 (cvtColor (overlay_array (cvtColor [[(30, 20, 10); (0, 0, 0)]]) [[true; false]])) 0 0 =
  Some (if true then (30 / 2, 20 / 2, (10 + 255) / 2) else (30, 20, 10)).
Proof.
  apply (overlay_file_against_image_file [[(30, 20, 10); (0, 0, 0)]] [[true; false]]
           0 0 30 20 10 true).
  - reflexivity.
  - reflexivity.
  - lia.
  - lia.
  - lia.
Defined.

